(** * A shallow embedding of the [reqwest] request builder and of the
      correlation [logger]

    The development follows [src/reqwest/reqwest.go] (the request builder,
    its [Build]/[Send] split and the status policy of [makeRequest]) and the
    [logger] package ([Trace]).  Go maps are reference values that may be
    [nil]; a write to a [nil] map panics, so every operation that writes to a
    map returns in the [exec] monad below.  The parts of the Go standard
    library the builder delegates to ([net/url], [encoding/json], the HTTP
    transport) are parameters of the development; the encoder of
    [encoding/json] is also given as a definition, [Json.Marshal]. *)

From stdpp Require Import base option list sorting gmap strings pretty.
From Stdlib Require Import ZArith Ascii String.
From Stdlib.Strings Require Import Byte.

Local Open Scope string_scope.
Local Open Scope Z_scope.

(** ** Outcomes of Go code: a value, or a run-time panic *)

Inductive exec (A : Type) : Type :=
| Ret (a : A)
| Panic (reason : string).
Arguments Ret {A} a.
Arguments Panic {A} reason.

#[global] Instance exec_ret : MRet exec := @Ret.
#[global] Instance exec_bind : MBind exec := λ A B f m,
  match m with
  | Ret a => f a
  | Panic r => Panic r
  end.

Definition returns {A} (m : exec A) : Prop := ∃ a, m = Ret a.
Definition panics {A} (m : exec A) : Prop := ∃ r, m = Panic r.

Definition nil_map_panic : string := "assignment to entry in nil map".

(** ** Errors ([error], [github.com/pkg/errors]) *)

(** An error value and the errors it wraps.  Go compares errors by
    identity; here two errors are the same when they were made the same
    way, so a sentinel is told apart by its message. *)
Inductive error : Type :=
| errors_New (msg : string)
| WithStack (cause : error)
| Wrapf (cause : error) (msg : string)
| LibraryError (pkg msg : string).

#[global] Instance error_eq_dec : EqDecision error.
Proof. solve_decision. Defined.

(** [errors.Is]: walk the chain of causes looking for the target. *)
Fixpoint errors_Is (e target : error) : bool :=
  bool_decide (e = target) ||
  match e with
  | WithStack c => errors_Is c target
  | Wrapf c _ => errors_Is c target
  | _ => false
  end.

(** [errors.Is] on a possibly-nil error. *)
Definition Is (e : option error) (target : error) : bool :=
  match e with
  | Some e => errors_Is e target
  | None => false
  end.

(** ** Dynamically typed values ([interface{}]) *)

Inductive any : Type :=
| ANil
| AString (s : string)
| AStrings (ss : list string)
| AInt (n : Z)
| ABool (b : bool)
| AMapStringString (m : list (string * string))
| AChan (id : nat).

(** ** [context.Context] *)

(** Context keys are compared by identity; a key is modelled by the address
    of the value it points to. *)
Record ContextKey := { key_addr : nat; Value : string }.

Definition context := list (ContextKey * any).

Definition context_Background : context := [].
Definition context_WithValue (ctx : context) (k : ContextKey) (v : any) : context :=
  (k, v) :: ctx.

Fixpoint ctx_Value (ctx : context) (k : ContextKey) : any :=
  match ctx with
  | [] => ANil
  | (k', v) :: parent =>
      if bool_decide (key_addr k' = key_addr k) then v else ctx_Value parent k
  end.

(** ** Formatting ([fmt.Sprintf], for the verbs the packages use) *)

Inductive fmt_arg : Type :=
| fmt_int (n : Z)
| fmt_string (s : string).

Definition fmt_verb (verb : ascii) (a : fmt_arg) : string :=
  match a with
  | fmt_int n =>
      if Ascii.eqb verb "d" then pretty n
      else "%!" ++ String verb "(int=" ++ pretty n ++ ")"
  | fmt_string s =>
      if Ascii.eqb verb "s" then s
      else "%!" ++ String verb "(string=" ++ s ++ ")"
  end.

Fixpoint Sprintf (format : string) (args : list fmt_arg) : string :=
  match format with
  | EmptyString => EmptyString
  | String c rest =>
      if Ascii.eqb c "%"
      then match rest with
           | EmptyString => "%!(NOVERB)"
           | String verb rest' =>
               match args with
               | a :: args' => fmt_verb verb a ++ Sprintf rest' args'
               | [] => "%!" ++ String verb "(MISSING)" ++ Sprintf rest' []
               end
           end
      else String c (Sprintf rest args)
  end.

(** ** Byte sources ([io.Reader], [io.ReadCloser]) *)

Record Reader := { unread : list byte; failure : option error }.

Definition bytes_NewBuffer (buf : list byte) : Reader :=
  {| unread := buf; failure := None |}.
Definition strings_NewReader (s : string) : Reader :=
  {| unread := list_byte_of_string s; failure := None |}.

Record ReadCloser := { stream : Reader; closed : bool }.

Definition io_NopCloser (r : Reader) : ReadCloser :=
  {| stream := r; closed := false |}.

(** [ioutil.ReadAll]: everything the source delivers, the error that stopped
    it (if any), and the source once it has been read to its end. *)
Definition ioutil_ReadAll (rc : ReadCloser) : list byte * option error * ReadCloser :=
  (unread (stream rc), failure (stream rc),
   {| stream := {| unread := []; failure := failure (stream rc) |};
      closed := closed rc |}).

Definition Close (rc : ReadCloser) : ReadCloser :=
  {| stream := stream rc; closed := true |}.

Definition drained (rc : ReadCloser) : Prop := unread (stream rc) = [].

(** ** Header maps ([net/http.Header], [net/textproto]) *)

Abbreviation http_Header := (gmap string (list string)).
Abbreviation url_Values := (gmap string (list string)).

(** Reading a Go map: the zero value for a missing key, also on a nil map. *)
Definition index (m : gmap string (list string)) (k : string) : list string :=
  default [] (m !! k).
Definition index_nilable (m : option (gmap string (list string))) (k : string)
  : list string :=
  match m with
  | Some m => index m k
  | None => []
  end.
Definition len (m : option (gmap string (list string))) : nat :=
  match m with
  | Some m => size m
  | None => 0
  end.

Definition in_range (lo hi : string) (c : ascii) : bool :=
  match lo, hi with
  | String l EmptyString, String h EmptyString =>
      (nat_of_ascii l <=? nat_of_ascii c)%nat && (nat_of_ascii c <=? nat_of_ascii h)%nat
  | _, _ => false
  end.

Definition isLower : ascii → bool := in_range "a" "z".
Definition isUpper : ascii → bool := in_range "A" "Z".
Definition isDigit : ascii → bool := in_range "0" "9".

(** The token bytes of RFC 7230 ([validHeaderFieldByte], [isNotToken]). *)
Definition validHeaderFieldByte (c : ascii) : bool :=
  isLower c || isUpper c || isDigit c ||
  bool_decide (c ∈ list_ascii_of_string "!#$%&'*+-.^_`|~").

Definition toLower : nat := 32.

Fixpoint canonicalize (upper : bool) (a : string) : string :=
  match a with
  | EmptyString => EmptyString
  | String c rest =>
      let c' :=
        if upper && isLower c then ascii_of_nat (nat_of_ascii c - toLower)
        else if negb upper && isUpper c then ascii_of_nat (nat_of_ascii c + toLower)
        else c in
      String c' (canonicalize (bool_decide (c' = "-"%char)) rest)
  end.

(** [textproto.CanonicalMIMEHeaderKey]: a key with a byte that is not a
    token byte is returned unchanged. *)
Definition CanonicalMIMEHeaderKey (s : string) : string :=
  if forallb validHeaderFieldByte (list_ascii_of_string s)
  then canonicalize true s
  else s.

(** [http.Header.Add] and [http.Header.Get]. *)
Definition Header_Add (key value : string) (h : http_Header) : http_Header :=
  let key := CanonicalMIMEHeaderKey key in
  <[key := (index h key ++ [value])%list]> h.

Definition Header_Get (h : http_Header) (key : string) : string :=
  match index h (CanonicalMIMEHeaderKey key) with
  | [] => ""
  | v :: _ => v
  end.

(** ** Requests and responses ([net/http], [net/url]) *)

Record URL := { Location : string; RawQuery : string }.

Record http_Request := {
  Method : string;
  req_URL : URL;
  req_Header : http_Header;
  req_Body : option ReadCloser;
  req_ctx : context;
}.

Record http_Response := {
  StatusCode : Z;
  resp_Header : http_Header;
  resp_Body : ReadCloser;
}.

(** [http.Client]: [Do] answers a request, given the round trips made so
    far, with a response, an error, or (when a redirect check fails) both. *)
Record http_Client := {
  Do : list http_Request → http_Request → option http_Response * option error;
}.

(** The standard-library collaborators of the package. *)
Class GoLibrary := {
  url_Parse : string → error + URL;
  url_QueryEscape : string → string;
  json_Marshal : any → error + list byte;
  json_Unmarshal : list byte → error + any;
  http_DefaultClient : http_Client;
}.

Definition http_MethodGet : string := "GET".
Definition http_MethodPost : string := "POST".
Definition http_MethodPatch : string := "PATCH".
Definition http_MethodPut : string := "PUT".

Definition validMethod (method : string) : bool :=
  (0 <? String.length method)%nat &&
  forallb validHeaderFieldByte (list_ascii_of_string method).

Definition WithContext (req : http_Request) (ctx : context) : http_Request :=
  {| Method := Method req; req_URL := req_URL req; req_Header := req_Header req;
     req_Body := req_Body req; req_ctx := ctx |}.

Definition with_Header (h : http_Header) (req : http_Request) : http_Request :=
  {| Method := Method req; req_URL := req_URL req; req_Header := h;
     req_Body := req_Body req; req_ctx := req_ctx req |}.

Definition with_RawQuery (q : string) (req : http_Request) : http_Request :=
  {| Method := Method req;
     req_URL := {| Location := Location (req_URL req); RawQuery := q |};
     req_Header := req_Header req;
     req_Body := req_Body req; req_ctx := req_ctx req |}.

Section Library.
Context `{GoLibrary}.

(** [http.NewRequest]: a request with a fresh, empty header map, bound to
    the background context. *)
Definition http_NewRequest (method url : string) (body : option Reader)
  : error + http_Request :=
  let method := if bool_decide (method = "") then "GET" else method in
  if negb (validMethod method)
  then inl (LibraryError "net/http" "invalid method")
  else match url_Parse url with
       | inl e => inl e
       | inr u =>
           inr {| Method := method; req_URL := u; req_Header := ∅;
                  req_Body := io_NopCloser <$> body;
                  req_ctx := context_Background |}
       end.

(** [url.Values.Add] writes to the map, which must not be nil. *)
Definition Values_Add (key value : string) (v : option url_Values)
  : exec (option url_Values) :=
  match v with
  | None => Panic nil_map_panic
  | Some m => Ret (Some (<[key := (index m key ++ [value])%list]> m))
  end.

Definition sorted_keys (m : url_Values) : list string :=
  merge_sort (λ a b : string, Is_true (String.leb a b)) (fst <$> map_to_list m).

(** [url.Values.Encode]: "bar=baz&foo=quux", sorted by key. *)
Definition Values_Encode (v : option url_Values) : string :=
  match v with
  | None => ""
  | Some m =>
      String.concat "&"
        (flat_map
           (λ k, (λ x, url_QueryEscape k ++ "=" ++ url_QueryEscape x) <$> index m k)
           (sorted_keys m))
  end.
End Library.

(** * The request builder ([package reqwest]) *)

(** [PureRequestBuilder] and [ImpureRequestBuilder] embed [RequestBuilder]
    and forward to it; the model keeps the one record and gives it the
    methods of both. *)

Module Reqwest.

(** [type Interceptor]: a function on a request pointer; an interceptor is
    given the request and may change it in place. *)
Definition Interceptor := http_Request → http_Request.

(** The process-wide state the package touches: the registered interceptors
    and the round trips the transport has been asked to make. *)
Record World := {
  beforeEachInterceptors : list Interceptor;
  roundTrips : list http_Request;
}.

Definition BeforeEach (interceptor : Interceptor) (w : World) : World :=
  {| beforeEachInterceptors := (beforeEachInterceptors w ++ [interceptor])%list;
     roundTrips := roundTrips w |}.

Definition CorrelationIDContextKey : ContextKey :=
  {| key_addr := 0; Value := "correlation_id_context_key" |}.

Definition CorrelationIDHeaderKey : string := "x-correlation-id".

Definition ErrUnexpectedResponseStatus : error :=
  errors_New "expected response status to be in the 200-299 range".

Record RequestBuilder := {
  client : http_Client;
  ctx : context;
  method : string;
  endpoint : string;
  request : option http_Request;
  response : option http_Response;
  query : option url_Values;
  headers : option http_Header;
  body : option Reader;
  err : option error;
}.

Definition set_headers (h : option http_Header) (b : RequestBuilder) : RequestBuilder :=
  {| client := client b; ctx := ctx b; method := method b; endpoint := endpoint b;
     request := request b; response := response b; query := query b;
     headers := h; body := body b; err := err b |}.

Definition set_query (q : option url_Values) (b : RequestBuilder) : RequestBuilder :=
  {| client := client b; ctx := ctx b; method := method b; endpoint := endpoint b;
     request := request b; response := response b; query := q;
     headers := headers b; body := body b; err := err b |}.

Definition set_body (r : option Reader) (b : RequestBuilder) : RequestBuilder :=
  {| client := client b; ctx := ctx b; method := method b; endpoint := endpoint b;
     request := request b; response := response b; query := query b;
     headers := headers b; body := r; err := err b |}.

Definition set_err (e : option error) (b : RequestBuilder) : RequestBuilder :=
  {| client := client b; ctx := ctx b; method := method b; endpoint := endpoint b;
     request := request b; response := response b; query := query b;
     headers := headers b; body := body b; err := e |}.

Record Response := {
  Response_ : option http_Response;
  Body_ : list byte;
}.

Record ResponseBuilder := {
  out_client : http_Client;
  out_request : option http_Request;
  out_response : Response;
  out_err : option error;
}.

Definition set_out_err (e : option error) (out : ResponseBuilder) : ResponseBuilder :=
  {| out_client := out_client out; out_request := out_request out;
     out_response := out_response out; out_err := e |}.

Definition set_out_request (r : option http_Request) (out : ResponseBuilder)
  : ResponseBuilder :=
  {| out_client := out_client out; out_request := r;
     out_response := out_response out; out_err := out_err out |}.

Definition set_out_response (r : Response) (out : ResponseBuilder) : ResponseBuilder :=
  {| out_client := out_client out; out_request := out_request out;
     out_response := r; out_err := out_err out |}.

Section Builder.
Context `{GoLibrary}.

(** [func (builder *RequestBuilder) Header(key, value string)] *)
Definition Header (key value : string) (builder : RequestBuilder)
  : exec RequestBuilder :=
  match headers builder with
  | None => Panic nil_map_panic
  | Some h =>
      Ret (set_headers (Some (<[key := (index h key ++ [value])%list]> h)) builder)
  end.

Fixpoint Values_AddEach (key : string) (value : list string) (q : option url_Values)
  : exec (option url_Values) :=
  match value with
  | [] => Ret q
  | v :: rest => q' ← Values_Add key v q; Values_AddEach key rest q'
  end.

(** [func (builder *RequestBuilder) Query(key string, value interface{})] *)
Definition Query (key : string) (value : any) (builder : RequestBuilder)
  : exec RequestBuilder :=
  match value with
  | AString value =>
      q ← Values_Add key value (query builder); Ret (set_query q builder)
  | AStrings value =>
      q ← Values_AddEach key value (query builder); Ret (set_query q builder)
  | _ => Ret builder
  end.

(** [func (builder *ImpureRequestBuilder) Body(reader io.Reader)] *)
Definition Body (reader : option Reader) (builder : RequestBuilder) : RequestBuilder :=
  set_body reader builder.

(** [func (builder *ImpureRequestBuilder) JSON(body interface{})] *)
Definition JSON (body : any) (builder : RequestBuilder) : RequestBuilder :=
  match err builder with
  | Some _ => builder
  | None =>
      match json_Marshal body with
      | inl e => set_err (Some (WithStack e)) builder
      | inr out => Body (Some (bytes_NewBuffer out)) builder
      end
  end.

(** [func (builder *RequestBuilder) Build()].  When the
    builder holds at least one header, the request shares the builder's
    header map, so the correlation header added to the request is added
    to the builder's map as well: [Build] returns the builder too. *)
Definition Build (builder : RequestBuilder) : ResponseBuilder * RequestBuilder :=
  let out := {| out_client := client builder; out_request := None;
                out_response := {| Response_ := None; Body_ := [] |};
                out_err := None |} in
  match err builder with
  | Some e => (set_out_err (Some (WithStack e)) out, builder)
  | None =>
      match http_NewRequest (method builder) (endpoint builder) (body builder) with
      | inl e => (set_out_err (Some (WithStack e)) out, builder)
      | inr req =>
          let req := WithContext req (ctx builder) in
          let shared := bool_decide (0 < len (headers builder))%nat in
          let h := if shared then default ∅ (headers builder) else req_Header req in
          let h :=
            match ctx_Value (ctx builder) CorrelationIDContextKey with
            | AString correlationID =>
                Header_Add CorrelationIDHeaderKey correlationID h
            | _ => h
            end in
          let req := with_Header h req in
          let req := with_RawQuery (Values_Encode (query builder)) req in
          (set_out_request (Some req) out,
           if shared then set_headers (Some h) builder else builder)
      end
  end.

(** [func (builder *RequestBuilder) Request()], returning the request and
    the error. *)
Definition Request (builder : RequestBuilder)
  : (option http_Request * option error) * RequestBuilder :=
  let '(responseBuilder, builder) := Build builder in
  match out_err responseBuilder with
  | Some e => ((out_request responseBuilder, Some (WithStack e)), builder)
  | None => ((out_request responseBuilder, None), builder)
  end.

Definition runInterceptors (interceptors : list Interceptor) (req : http_Request)
  : http_Request :=
  foldl (λ r interceptor, interceptor r) req interceptors.

Definition unexpectedStatus (code : Z) : bool := (code <? 200) || (299 <? code).

(** [func (builder *ResponseBuilder) makeRequest()].  With no stored error
    the request was set by [Build]; a nil request, or a nil response
    returned together with a nil error, is a nil dereference. *)
Definition makeRequest (builder : ResponseBuilder) (w : World)
  : exec (ResponseBuilder * World) :=
  match out_err builder with
  | Some _ => Ret (builder, w)
  | None =>
      match out_request builder with
      | None => Panic "nil pointer dereference"
      | Some req =>
          let req := runInterceptors (beforeEachInterceptors w) req in
          let '(response, err) := Do (out_client builder) (roundTrips w) req in
          let w := {| beforeEachInterceptors := beforeEachInterceptors w;
                      roundTrips := (roundTrips w ++ [req])%list |} in
          let builder := set_out_request (Some req) builder in
          let builder :=
            set_out_response {| Response_ := response; Body_ := [] |} builder in
          match err with
          | Some err => Ret (set_out_err (Some (WithStack err)) builder, w)
          | None =>
              match response with
              | None => Panic "nil pointer dereference"
              | Some response =>
                  let '(body, _, rc) := ioutil_ReadAll (resp_Body response) in
                  let response :=
                    {| StatusCode := StatusCode response;
                       resp_Header := resp_Header response;
                       resp_Body := Close rc |} in
                  let builder :=
                    set_out_response
                      {| Response_ := Some response; Body_ := body |} builder in
                  if unexpectedStatus (StatusCode response)
                  then Ret (set_out_err
                              (Some (Wrapf ErrUnexpectedResponseStatus
                                       (Sprintf "got status %d"
                                          [fmt_int (StatusCode response)])))
                              builder, w)
                  else Ret (builder, w)
              end
          end
      end
  end.

(** [func (builder *RequestBuilder) Send()], returning the response and
    the error.  The builder in the result is the one [Build] leaves.  An
    interceptor is a function on requests here, so what it writes through
    the request's header map, which is the builder's own map when the
    builder holds headers, shows on the request handed to the transport
    and is not followed back into that builder: the theorems on an
    exchange say nothing of the builder's headers after [Send]. *)
Definition Send (builder : RequestBuilder) (w : World)
  : exec ((Response * option error) * RequestBuilder * World) :=
  let '(responseBuilder, builder) := Build builder in
  '(responseBuilder, w) ← makeRequest responseBuilder w;
  match out_err responseBuilder with
  | Some e => Ret ((out_response responseBuilder, Some (WithStack e)), builder, w)
  | None => Ret ((out_response responseBuilder, None), builder, w)
  end.

(** [Response.JSON], [Response.Bytes] and [Response.Text]. *)
Definition Response_JSON (response : Response) : error + any :=
  json_Unmarshal (Body_ response).
Definition Bytes (response : Response) : list byte := Body_ response.
Definition Text (response : Response) : string :=
  string_of_list_byte (Body_ response).

(** The constructors.  [GET] and [POST] allocate the query values;
    [PATCH] and [PUT] leave the field at its zero value, the nil map. *)
Definition POST (ctx : context) (endpoint : string) : RequestBuilder :=
  {| ctx := ctx; endpoint := endpoint; client := http_DefaultClient;
     method := http_MethodPost; query := Some ∅; headers := Some ∅;
     request := None; response := None; body := None; err := None |}.

Definition PATCH (ctx : context) (endpoint : string) : RequestBuilder :=
  {| ctx := ctx; endpoint := endpoint; client := http_DefaultClient;
     method := http_MethodPatch; query := None; headers := Some ∅;
     request := None; response := None; body := None; err := None |}.

Definition PUT (ctx : context) (endpoint : string) : RequestBuilder :=
  {| ctx := ctx; endpoint := endpoint; client := http_DefaultClient;
     method := http_MethodPut; query := None; headers := Some ∅;
     request := None; response := None; body := None; err := None |}.

Definition GET (ctx : context) (endpoint : string) : RequestBuilder :=
  {| ctx := ctx; endpoint := endpoint; client := http_DefaultClient;
     method := http_MethodGet; query := Some ∅; headers := Some ∅;
     request := None; response := None; body := None; err := None |}.

(** ** Chains of calls on one builder *)

(** The configuration calls of the fluent interface. *)
Inductive config : Type :=
| CallHeader (key value : string)
| CallQuery (key : string) (value : any)
| CallBody (reader : option Reader)
| CallJSON (body : any).

Definition configure (c : config) (builder : RequestBuilder) : exec RequestBuilder :=
  match c with
  | CallHeader key value => Header key value builder
  | CallQuery key value => Query key value builder
  | CallBody reader => Ret (Body reader builder)
  | CallJSON body => Ret (JSON body builder)
  end.

Fixpoint chain (cs : list config) (builder : RequestBuilder) : exec RequestBuilder :=
  match cs with
  | [] => Ret builder
  | c :: rest => builder' ← configure c builder; chain rest builder'
  end.

(** Every call of the package, on one builder and the process-wide
    state. *)
Inductive call : Type :=
| Configure (c : config)
| CallBuild
| CallRequest
| CallSend.

Definition step (c : call) (s : RequestBuilder * World)
  : exec (RequestBuilder * World) :=
  let '(builder, w) := s in
  match c with
  | Configure c => builder' ← configure c builder; Ret (builder', w)
  | CallBuild => Ret ((Build builder).2, w)
  | CallRequest => Ret ((Request builder).2, w)
  | CallSend => '(_, builder', w') ← Send builder w; Ret (builder', w')
  end.

Fixpoint run (cs : list call) (s : RequestBuilder * World)
  : exec (RequestBuilder * World) :=
  match cs with
  | [] => Ret s
  | c :: rest => s' ← step c s; run rest s'
  end.
End Builder.

End Reqwest.

(** * An earlier revision of [ImpureRequestBuilder.JSON]

    The revision kept next to the current one announces the payload type
    itself and stores the payload on the request the constructor made. *)

Module Earlier.
Import Reqwest.

Definition with_Body (rc : option ReadCloser) (req : http_Request) : http_Request :=
  {| Method := Method req; req_URL := req_URL req; req_Header := req_Header req;
     req_Body := rc; req_ctx := req_ctx req |}.

Definition set_request (r : option http_Request) (b : RequestBuilder) : RequestBuilder :=
  {| client := client b; ctx := ctx b; method := method b; endpoint := endpoint b;
     request := r; response := response b; query := query b;
     headers := headers b; body := body b; err := err b |}.

Section Builder.
Context `{GoLibrary}.

(** [JSON] with [builder.Header("content-type", "application/json")]
    ahead of the marshalling. *)
Definition JSON (body : any) (builder : RequestBuilder) : exec RequestBuilder :=
  match err builder with
  | Some _ => Ret builder
  | None =>
      builder ← Header "content-type" "application/json" builder;
      match err builder with
      | Some _ => Ret builder
      | None =>
          match json_Marshal body with
          | inl e => Ret (set_err (Some e) builder)
          | inr out =>
              match request builder with
              | None => Panic "nil pointer dereference"
              | Some req =>
                  Ret (set_request
                         (Some (with_Body (Some (io_NopCloser (bytes_NewBuffer out))) req))
                         builder)
              end
          end
      end
  end.
End Builder.

End Earlier.

(** * The correlation logger ([package logger]) *)

Module Logger.

Record Event := { name : string }.

Definition TraceStart : Event := {| name := "trace_start" |}.
Definition TraceEnd : Event := {| name := "trace_end" |}.

(** One structured line handed to the log sink. *)
Record Line := {
  level : string;
  caller : string;
  correlation_id : string;
  msg : string;
}.

(** The clock and the sink: [clock n] is the reading (nanoseconds since the
    epoch) of the [n]-th query of the clock, [ticks] counts the queries
    made so far, [output] holds the lines emitted so far. *)
Record World := {
  clock : nat → Z;
  ticks : nat;
  output : list Line;
}.

Definition EventHandler := Event → string → World → World.

Record logger := {
  prefix : string;
  beforeEach : list EventHandler;
}.

Definition New : logger := {| prefix := ""; beforeEach := [] |}.

Definition Prefix (p : string) (log : logger) : logger :=
  {| prefix := p; beforeEach := beforeEach log |}.

Definition BeforeEach (handler : EventHandler) (log : logger) : logger :=
  {| prefix := prefix log; beforeEach := (beforeEach log ++ [handler])%list |}.

Definition callBeforeEachHandlers (log : logger) (event : Event) (message : string)
    (w : World) : World :=
  foldl (λ w handler, handler event message w) w (beforeEach log).

Definition time_Now (w : World) : Z * World :=
  (clock w (ticks w),
   {| clock := clock w; ticks := S (ticks w); output := output w |}).

(** [time.Since(start)] reads the clock. *)
Definition time_Since (start : Z) (w : World) : Z * World :=
  let '(now, w) := time_Now w in (now - start, w).

Definition UnixMilli (t : Z) : Z := t `div` 1000000.
Definition Milliseconds (d : Z) : Z := d `quot` 1000000.

(** [zerolog.Info().Caller(1).Str("correlation_id", ...).Msgf(...)] *)
Definition zerolog_Info (site correlation : string) (format : string)
    (args : list fmt_arg) (w : World) : World :=
  {| clock := clock w; ticks := ticks w;
     output := (output w ++
                [{| level := "info"; caller := site; correlation_id := correlation;
                    msg := Sprintf format args |}])%list |}.

(** The closure [Trace] returns captures the start time and the message;
    the logger is reached through its pointer when the closure runs. *)
Record Tracer := { start : Z; message : string }.

(** [func (log *logger) Trace(message string) Tracer]; [site] is the frame
    the runtime reports for [Caller(1)]. *)
Definition Trace (log : logger) (message site : string) (w : World) : Tracer * World :=
  let w := callBeforeEachHandlers log TraceStart message w in
  let '(start, w) := time_Now w in
  let '(now, w) := time_Now w in
  let '(since, w) := time_Since start w in
  let w := zerolog_Info site (prefix log) "[END - %d(%dms)] %s"
             [fmt_int (UnixMilli now); fmt_int (Milliseconds since); fmt_string message]
             w in
  ({| start := start; message := message |}, w).

(** Running the closure returned by [Trace]. *)
Definition invoke (t : Tracer) (log : logger) (site : string) (w : World) : World :=
  let w := callBeforeEachHandlers log TraceEnd (message t) w in
  let '(now, w) := time_Now w in
  let '(since, w) := time_Since (start t) w in
  zerolog_Info site (prefix log) "[END - %d(%dms)] %s"
    [fmt_int (UnixMilli now); fmt_int (Milliseconds since); fmt_string (message t)]
    w.

(** The other events of [Events], and the lines of the other levels.
    [Error] asks for no caller; its line has an empty [caller]. *)
Definition Events_Info : Event := {| name := "info" |}.
Definition Events_Error : Event := {| name := "error" |}.
Definition Events_Debug : Event := {| name := "debug" |}.

Definition zerolog_Msg (lvl site correlation message : string) (w : World) : World :=
  {| clock := clock w; ticks := ticks w;
     output := (output w ++
                [{| level := lvl; caller := site; correlation_id := correlation;
                    msg := message |}])%list |}.

(** [func (log *logger) Info(message string)] *)
Definition Info (log : logger) (message site : string) (w : World) : World :=
  let w := callBeforeEachHandlers log Events_Info message w in
  zerolog_Msg "info" site (prefix log) message w.

(** [func (log *logger) Error(message string)] *)
Definition Error (log : logger) (message : string) (w : World) : World :=
  let w := callBeforeEachHandlers log Events_Error message w in
  zerolog_Msg "error" "" (prefix log) message w.

(** [func (log *logger) Debug(message string)] *)
Definition Debug (log : logger) (message site : string) (w : World) : World :=
  let w := callBeforeEachHandlers log Events_Debug message w in
  zerolog_Msg "debug" site (prefix log) message w.

(** [strings.Split(s, "/")] *)
Fixpoint strings_Split_slash (s : string) : list string :=
  match s with
  | EmptyString => [EmptyString]
  | String c rest =>
      if Ascii.eqb c "/" then EmptyString :: strings_Split_slash rest
      else match strings_Split_slash rest with
           | first :: others => String c first :: others
           | [] => [String c EmptyString]
           end
  end.

(** [func caller(skip int) string], from the name of the function of the
    frame the runtime reports: [path[len(path)-1]] of the name split at
    the slashes. *)
Definition callerName (function : string) : exec string :=
  let path := strings_Split_slash function in
  match last path with
  | Some segment => Ret segment
  | None => Panic "index out of range [-1]"
  end.

End Logger.

(** * The earlier revisions kept in the repository *)

(** [http.Header.Set]: the canonical key gets the one value. *)
Definition Header_Set (key value : string) (h : http_Header) : http_Header :=
  <[CanonicalMIMEHeaderKey key := [value]]> h.

Definition with_req_Body (rc : option ReadCloser) (req : http_Request) : http_Request :=
  {| Method := Method req; req_URL := req_URL req; req_Header := req_Header req;
     req_Body := rc; req_ctx := req_ctx req |}.

Definition with_resp_Body (rc : ReadCloser) (response : http_Response) : http_Response :=
  {| StatusCode := StatusCode response; resp_Header := resp_Header response;
     resp_Body := rc |}.

(** ** The revision whose response builder consumes the response

    [Build] returns a [ResponseBuilder] with [Response], [Bytes], [Text]
    and [JSON]; each of them makes the round trip itself.  The state
    threaded through them is the log of the round trips made.  When the
    builder holds headers, the request built from it has the builder's
    header map; what [JSON] writes there is followed on the request
    only. *)

Module Responses.

Record ResponseBuilder := {
  client : http_Client;
  request : option http_Request;
  response : option http_Response;
  err : option error;
}.

Definition set_err (e : option error) (builder : ResponseBuilder) : ResponseBuilder :=
  {| client := client builder; request := request builder;
     response := response builder; err := e |}.

Definition set_response (r : option http_Response) (builder : ResponseBuilder)
  : ResponseBuilder :=
  {| client := client builder; request := request builder;
     response := r; err := err builder |}.

Definition set_request (r : option http_Request) (builder : ResponseBuilder)
  : ResponseBuilder :=
  {| client := client builder; request := r;
     response := response builder; err := err builder |}.

Section Builder.
Context `{GoLibrary}.

(** [func (builder *ImpureRequestBuilder) Body(reader io.Reader)], with its
    guard. *)
Definition Body (reader : option Reader) (builder : Reqwest.RequestBuilder)
  : Reqwest.RequestBuilder :=
  match Reqwest.err builder with
  | Some _ => builder
  | None => Reqwest.set_body reader builder
  end.

(** [func (builder *RequestBuilder) Build()] *)
Definition Build (builder : Reqwest.RequestBuilder) : ResponseBuilder :=
  let out := {| client := Reqwest.client builder; request := None;
                response := None; err := None |} in
  match Reqwest.err builder with
  | Some e => set_err (Some (WithStack e)) out
  | None =>
      match http_NewRequest (Reqwest.method builder) (Reqwest.endpoint builder)
              (Reqwest.body builder) with
      | inl e => set_err (Some (WithStack e)) out
      | inr req =>
          let req := WithContext req (Reqwest.ctx builder) in
          let req :=
            if bool_decide (0 < len (Reqwest.headers builder))%nat
            then with_Header (default ∅ (Reqwest.headers builder)) req
            else req in
          set_request (Some req) out
      end
  end.

(** [func (builder *ResponseBuilder) makeRequest()] *)
Definition makeRequest (builder : ResponseBuilder) (trips : list http_Request)
  : exec (ResponseBuilder * list http_Request) :=
  match err builder with
  | Some _ => Ret (builder, trips)
  | None =>
      match request builder with
      | None => Panic "nil pointer dereference"
      | Some req =>
          let '(response, e) := Do (client builder) trips req in
          let builder :=
            match e with
            | Some e => set_err (Some (WithStack e)) builder
            | None => builder
            end in
          Ret (set_response response builder, (trips ++ [req])%list)
      end
  end.

(** [func (builder *ResponseBuilder) Request()] *)
Definition Request (builder : ResponseBuilder) : option http_Request :=
  request builder.

(** [func (builder *ResponseBuilder) Response()] *)
Definition Response (builder : ResponseBuilder) (trips : list http_Request)
  : exec ((option http_Response * option error) * ResponseBuilder * list http_Request) :=
  '(builder, trips) ← makeRequest builder trips;
  match err builder with
  | Some e => Ret ((response builder, Some (WithStack e)), builder, trips)
  | None => Ret ((response builder, None), builder, trips)
  end.

(** [func (builder *ResponseBuilder) Bytes()]; the deferred [Close] runs on
    both ways out once the response is there. *)
Definition Bytes (builder : ResponseBuilder) (trips : list http_Request)
  : exec ((list byte * option error) * ResponseBuilder * list http_Request) :=
  '(builder, trips) ← makeRequest builder trips;
  match err builder with
  | Some e => Ret (([], Some (WithStack e)), builder, trips)
  | None =>
      match response builder with
      | None => Panic "nil pointer dereference"
      | Some resp =>
          let '(out, e, rc) := ioutil_ReadAll (resp_Body resp) in
          let builder := set_response (Some (with_resp_Body (Close rc) resp)) builder in
          match e with
          | Some e =>
              Ret ((out, Some (WithStack e)),
                   set_err (Some (WithStack e)) builder, trips)
          | None => Ret ((out, None), builder, trips)
          end
      end
  end.

(** [func (builder *ResponseBuilder) Text()] *)
Definition Text (builder : ResponseBuilder) (trips : list http_Request)
  : exec ((string * option error) * ResponseBuilder * list http_Request) :=
  '(out, e, builder, trips) ← Bytes builder trips;
  match e with
  | Some e =>
      Ret ((string_of_list_byte out, Some (WithStack e)),
           set_err (Some (WithStack e)) builder, trips)
  | None => Ret ((string_of_list_byte out, None), builder, trips)
  end.

(** [func (builder *ResponseBuilder) JSON(out interface{}) error]: the
    decoded value, or the error. *)
Definition JSON (builder : ResponseBuilder) (trips : list http_Request)
  : exec ((error + any) * ResponseBuilder * list http_Request) :=
  match err builder with
  | Some e => Ret (inl (WithStack e), builder, trips)
  | None =>
      match request builder with
      | None => Panic "nil pointer dereference"
      | Some req =>
          let req := with_Header (Header_Set "accept" "application/json"
                                    (req_Header req)) req in
          let builder := set_request (Some req) builder in
          '(builder, trips) ← makeRequest builder trips;
          match err builder with
          | Some e => Ret (inl e, builder, trips)
          | None =>
              match response builder with
              | None => Panic "nil pointer dereference"
              | Some resp =>
                  let '(body, e, rc) := ioutil_ReadAll (resp_Body resp) in
                  let builder :=
                    set_response (Some (with_resp_Body (Close rc) resp)) builder in
                  match e with
                  | Some e => Ret (inl e, builder, trips)
                  | None => Ret (json_Unmarshal body, builder, trips)
                  end
              end
          end
      end
  end.
End Builder.

End Responses.

(** ** The first revision ([package http])

    The constructor makes the request, [Header] writes the request's own
    header map, and [JSON] makes the round trip itself. *)

Module Http.

Record RequestBuilder := {
  client : http_Client;
  method : string;
  request : option http_Request;
  response : option http_Response;
  query : option url_Values;
  err : option error;
}.

Definition set_err (e : option error) (builder : RequestBuilder) : RequestBuilder :=
  {| client := client builder; method := method builder; request := request builder;
     response := response builder; query := query builder; err := e |}.

Definition set_response (r : option http_Response) (builder : RequestBuilder)
  : RequestBuilder :=
  {| client := client builder; method := method builder; request := request builder;
     response := r; query := query builder; err := err builder |}.

Definition set_request (r : option http_Request) (builder : RequestBuilder)
  : RequestBuilder :=
  {| client := client builder; method := method builder; request := r;
     response := response builder; query := query builder; err := err builder |}.

(** [type ResponseBuilder struct { requestBuilder *RequestBuilder }] *)
Record ResponseBuilder := { requestBuilder : RequestBuilder }.

Section Builder.
Context `{GoLibrary}.

(** [func (builder *RequestBuilder) makeRequest()]: the error of the
    transport is stored as it comes, nil included. *)
Definition makeRequest (builder : RequestBuilder) (trips : list http_Request)
  : exec (RequestBuilder * list http_Request) :=
  match err builder with
  | Some _ => Ret (builder, trips)
  | None =>
      match request builder with
      | None => Panic "nil pointer dereference"
      | Some req =>
          let '(response, e) := Do (client builder) trips req in
          Ret (set_response response (set_err e builder), (trips ++ [req])%list)
      end
  end.

(** [func (builder *RequestBuilder) Send() *ResponseBuilder] wraps the
    builder. *)
Definition Send (builder : RequestBuilder) : ResponseBuilder :=
  {| requestBuilder := builder |}.

(** [Header], of both builder types: [builder.request.Header.Set]. *)
Definition Header (key value : string) (builder : RequestBuilder)
  : exec RequestBuilder :=
  match request builder with
  | None => Panic "nil pointer dereference"
  | Some req =>
      Ret (set_request
             (Some (with_Header (Header_Set key value (req_Header req)) req)) builder)
  end.

(** [func (builder *ImpureRequestBuilder) JSON(body interface{})] *)
Definition JSON (body : any) (builder : RequestBuilder) (trips : list http_Request)
  : exec (RequestBuilder * list http_Request) :=
  match err builder with
  | Some _ => Ret (builder, trips)
  | None =>
      builder ← Header "content-type" "application/json" builder;
      '(builder, trips) ← makeRequest builder trips;
      match err builder with
      | Some _ => Ret (builder, trips)
      | None =>
          match json_Marshal body with
          | inl e => Ret (set_err (Some e) builder, trips)
          | inr out =>
              match request builder with
              | None => Panic "nil pointer dereference"
              | Some req =>
                  Ret (set_request
                         (Some (with_req_Body
                                  (Some (io_NopCloser (bytes_NewBuffer out))) req))
                         builder, trips)
              end
          end
      end
  end.

(** [func (builder *ResponseBuilder) JSON(out interface{}) error] *)
Definition ResponseBuilder_JSON (builder : ResponseBuilder) (trips : list http_Request)
  : exec ((error + any) * ResponseBuilder * list http_Request) :=
  rb ← Header "accept" "application/json" (requestBuilder builder);
  '(rb, trips) ← makeRequest rb trips;
  match err rb with
  | Some e => Ret (inl e, {| requestBuilder := rb |}, trips)
  | None =>
      match response rb with
      | None => Panic "nil pointer dereference"
      | Some resp =>
          let '(body, e, rc) := ioutil_ReadAll (resp_Body resp) in
          let rb := set_response (Some (with_resp_Body (Close rc) resp)) rb in
          match e with
          | Some e => Ret (inl e, {| requestBuilder := rb |}, trips)
          | None => Ret (json_Unmarshal body, {| requestBuilder := rb |}, trips)
          end
      end
  end.

(** The constructors: [req.WithContext(ctx)] is called on whatever
    [http.NewRequest] returned, a nil request included. *)
Definition construct (ctx : context) (method endpoint : string) : exec RequestBuilder :=
  match http_NewRequest method endpoint None with
  | inl _ => Panic "nil pointer dereference"
  | inr req =>
      Ret {| request := Some (WithContext req ctx); client := http_DefaultClient;
             method := method; query := Some ∅; response := None; err := None |}
  end.

Definition POST (ctx : context) (endpoint : string) : exec RequestBuilder :=
  construct ctx http_MethodPost endpoint.

Definition GET (ctx : context) (endpoint : string) : exec RequestBuilder :=
  construct ctx http_MethodGet endpoint.
End Builder.

End Http.

(** ** The revision of [Earlier.JSON]: its constructors and [Build]

    [POST] still makes a request of its own and leaves the endpoint of the
    builder empty, [GET] allocates no header map, and [Build] makes a new
    request from method and endpoint with no body. *)

Module Transitional.

Section Builder.
Context `{GoLibrary}.

Definition POST (ctx : context) (endpoint : string) : exec Reqwest.RequestBuilder :=
  match http_NewRequest http_MethodPost endpoint None with
  | inl _ => Panic "nil pointer dereference"
  | inr req =>
      Ret {| Reqwest.ctx := ctx; Reqwest.request := Some (WithContext req ctx);
             Reqwest.client := http_DefaultClient; Reqwest.method := http_MethodPost;
             Reqwest.err := None; Reqwest.headers := Some ∅;
             Reqwest.endpoint := ""; Reqwest.response := None;
             Reqwest.query := None; Reqwest.body := None |}
  end.

Definition GET (ctx : context) (endpoint : string) : Reqwest.RequestBuilder :=
  {| Reqwest.ctx := ctx; Reqwest.endpoint := endpoint;
     Reqwest.client := http_DefaultClient; Reqwest.method := http_MethodGet;
     Reqwest.query := Some ∅; Reqwest.headers := None;
     Reqwest.request := None; Reqwest.response := None;
     Reqwest.body := None; Reqwest.err := None |}.

(** [func (builder *RequestBuilder) Build()] *)
Definition Build (builder : Reqwest.RequestBuilder) : Responses.ResponseBuilder :=
  let out := {| Responses.client := Reqwest.client builder; Responses.request := None;
                Responses.response := None; Responses.err := None |} in
  match Reqwest.err builder with
  | Some e => Responses.set_err (Some (WithStack e)) out
  | None =>
      match http_NewRequest (Reqwest.method builder) (Reqwest.endpoint builder) None with
      | inl e => Responses.set_err (Some (WithStack e)) out
      | inr req =>
          let req := WithContext req (Reqwest.ctx builder) in
          let req :=
            if bool_decide (0 < len (Reqwest.headers builder))%nat
            then with_Header (default ∅ (Reqwest.headers builder)) req
            else req in
          Responses.set_request (Some req) out
      end
  end.
End Builder.

End Transitional.

(** * [encoding/json] and [unicode/utf8]: how [json.Marshal] writes a value

    [JSON] hands the payload to [json.Marshal].  What follows is the
    encoder of the standard library for the values of [any]: the string
    writer of [encoding/json] ([appendString], with HTML escaping on, as
    [Marshal] sets it) over the rune decoder of [unicode/utf8], and the
    layouts of nil, booleans, integers, string slices and string maps. *)
Module Json.

Definition byte_value (b : byte) : Z := Z.of_N (Byte.to_N b).

(** [utf8.RuneError], the replacement rune. *)
Definition RuneError : Z := 0xFFFD.

(** The codes of the table [first]: the low three bits are the size of
    the sequence a first byte opens, the high four index [acceptRanges];
    [xx] marks a byte that opens no sequence, [as_] an ASCII byte. *)
Definition xx : Z := 0xF1.
Definition as_ : Z := 0xF0.
Definition s1 : Z := 0x02.
Definition s2 : Z := 0x13.
Definition s3 : Z := 0x03.
Definition s4 : Z := 0x23.
Definition s5 : Z := 0x34.
Definition s6 : Z := 0x04.
Definition s7 : Z := 0x44.

Definition first (b : Z) : Z :=
  if b <? 0x80 then as_
  else if b <? 0xC2 then xx
  else if b <? 0xE0 then s1
  else if b =? 0xE0 then s2
  else if b <? 0xED then s3
  else if b =? 0xED then s4
  else if b <? 0xF0 then s3
  else if b =? 0xF0 then s5
  else if b <? 0xF4 then s6
  else if b =? 0xF4 then s7
  else xx.

(** [acceptRanges]: the bounds of the second byte of a sequence. *)
Definition acceptRanges (i : Z) : Z * Z :=
  if i =? 0 then (0x80, 0xBF)
  else if i =? 1 then (0xA0, 0xBF)
  else if i =? 2 then (0x80, 0x9F)
  else if i =? 3 then (0x90, 0xBF)
  else if i =? 4 then (0x80, 0x8F)
  else (0, 0).

Definition continuation (b : Z) : bool := (0x80 <=? b) && (b <=? 0xBF).

(** [utf8.DecodeRuneInString]: the first rune of [s] and its width in
    bytes; [(RuneError, 1)] on a byte sequence that is not UTF-8. *)
Definition DecodeRuneInString (s : list byte) : Z * nat :=
  match s with
  | [] => (RuneError, 0%nat)
  | b0 :: rest =>
      let s0 := byte_value b0 in
      let x := first s0 in
      if as_ <=? x then ((if x =? xx then RuneError else s0), 1%nat)
      else
        let sz := Z.land x 7 in
        let accept := acceptRanges (Z.shiftr x 4) in
        if Z.of_nat (List.length s) <? sz then (RuneError, 1%nat)
        else
          match rest with
          | [] => (RuneError, 1%nat)
          | b1 :: rest =>
              let s1 := byte_value b1 in
              if (s1 <? accept.1) || (accept.2 <? s1) then (RuneError, 1%nat)
              else if sz <=? 2
              then (Z.lor (Z.shiftl (Z.land s0 0x1F) 6) (Z.land s1 0x3F), 2%nat)
              else
                match rest with
                | [] => (RuneError, 1%nat)
                | b2 :: rest =>
                    let s2 := byte_value b2 in
                    if negb (continuation s2) then (RuneError, 1%nat)
                    else if sz <=? 3
                    then (Z.lor (Z.lor (Z.shiftl (Z.land s0 0x0F) 12)
                                       (Z.shiftl (Z.land s1 0x3F) 6))
                                (Z.land s2 0x3F), 3%nat)
                    else
                      match rest with
                      | [] => (RuneError, 1%nat)
                      | b3 :: _ =>
                          let s3 := byte_value b3 in
                          if negb (continuation s3) then (RuneError, 1%nat)
                          else (Z.lor (Z.lor (Z.lor (Z.shiftl (Z.land s0 0x07) 18)
                                                    (Z.shiftl (Z.land s1 0x3F) 12))
                                             (Z.shiftl (Z.land s2 0x3F) 6))
                                      (Z.land s3 0x3F), 4%nat)
                      end
                end
          end
  end.

(** The digits of [hex] and the bytes the writer names. *)
Definition hex (n : Z) : list byte :=
  take 1 (drop (Z.to_nat n) (list_byte_of_string "0123456789abcdef")).

Definition quote : byte := x22.
Definition backslash : byte := x5c.

(** [htmlSafeSet]: the ASCII bytes written as they are. *)
Definition htmlSafeSet (b : Z) : bool :=
  (0x20 <=? b) && (b <? 0x80) &&
  negb ((b =? 0x22) || (b =? 0x26) || (b =? 0x3C) || (b =? 0x3E) || (b =? 0x5C)).

(** What the writer puts for an ASCII byte outside [htmlSafeSet].  The
    two-byte escapes of backspace and form feed are those of Go 1.22 and
    later; earlier releases write the six-byte escape for them. *)
Definition escaped (b : byte) : list byte :=
  let c := byte_value b in
  if (c =? 0x5C) || (c =? 0x22) then [backslash; b]
  else if c =? 0x08 then list_byte_of_string "\b"
  else if c =? 0x0C then list_byte_of_string "\f"
  else if c =? 0x0A then list_byte_of_string "\n"
  else if c =? 0x0D then list_byte_of_string "\r"
  else if c =? 0x09 then list_byte_of_string "\t"
  else (list_byte_of_string "\u00" ++ hex (Z.shiftr c 4) ++ hex (Z.land c 0xF))%list.

(** The loop of [appendString] from position [i] on, [src] being what is
    left of the string there; [fuel] bounds the iterations, and each one
    consumes at least one byte. *)
Fixpoint written (fuel : nat) (src : list byte) : list byte :=
  match fuel, src with
  | O, _ | _, [] => []
  | S fuel, b :: rest =>
      if byte_value b <? 0x80
      then
        ((if htmlSafeSet (byte_value b) then [b] else escaped b) ++
         written fuel rest)%list
      else
        let '(c, size) := DecodeRuneInString (take 4 src) in
        if (c =? RuneError) && (size =? 1)%nat
        then (list_byte_of_string "\ufffd" ++ written fuel rest)%list
        else if (c =? 0x2028) || (c =? 0x2029)
        then (list_byte_of_string "\u202" ++ hex (Z.land c 0xF) ++
              written fuel (drop size src))%list
        else (take size src ++ written fuel (drop size src))%list
  end.

(** [appendString(nil, src, true)]: the JSON string literal for [src]. *)
Definition appendString (src : string) : list byte :=
  let bytes := list_byte_of_string src in
  (quote :: written (List.length bytes) bytes ++ [quote])%list.

Definition comma : list byte := list_byte_of_string ",".

Fixpoint joined (parts : list (list byte)) : list byte :=
  match parts with
  | [] => []
  | [part] => part
  | part :: parts => (part ++ comma ++ joined parts)%list
  end.

(** [json.Marshal].  A slice or a map of [any] stands for one that is not
    nil, and a map holds one pair per key; the pairs of a map are written
    in the order of their keys. *)
Definition Marshal (v : any) : error + list byte :=
  match v with
  | ANil => inr (list_byte_of_string "null")
  | ABool true => inr (list_byte_of_string "true")
  | ABool false => inr (list_byte_of_string "false")
  | AInt n => inr (list_byte_of_string (pretty n))
  | AString s => inr (appendString s)
  | AStrings ss =>
      inr (list_byte_of_string "[" ++ joined (appendString <$> ss) ++
           list_byte_of_string "]")%list
  | AMapStringString m =>
      inr (list_byte_of_string "{" ++
           joined ((λ kv : string * string,
                      appendString kv.1 ++ list_byte_of_string ":" ++
                      appendString kv.2)%list <$>
                   merge_sort (λ a b : string * string,
                                 Is_true (String.leb a.1 b.1)) m) ++
           list_byte_of_string "}")%list
  | AChan _ => inl (LibraryError "encoding/json" "unsupported type")
  end.

End Json.

(** ** What a body determines

    The class of strings [utf8.ValidString] accepts, and a reader of what
    [appendString] writes: the bytes a string literal spells, read from
    behind its opening quote, and what follows its closing quote.  The
    reader serves to show that the encoder loses nothing on that class;
    it is not the decoder of [encoding/json]. *)
Module Spelling.
Import Json.

(** No position at which [DecodeRuneInString] answers [(RuneError, 1)]. *)
Fixpoint wellFormed (fuel : nat) (src : list byte) : bool :=
  match fuel, src with
  | _, [] => true
  | O, _ :: _ => false
  | S fuel, b :: rest =>
      if byte_value b <? 0x80 then wellFormed fuel rest
      else
        let '(c, size) := DecodeRuneInString (take 4 src) in
        negb ((c =? RuneError) && (size =? 1)%nat) &&
        wellFormed fuel (drop size src)
  end.

Definition ValidString (s : string) : bool :=
  let bytes := list_byte_of_string s in
  wellFormed (List.length bytes) bytes.

Definition byte_of (z : Z) : byte :=
  default x00 (Byte.of_N (Z.to_N z)).

Definition hexValue (b : byte) : option Z :=
  let c := byte_value b in
  if (0x30 <=? c) && (c <=? 0x39) then Some (c - 0x30)
  else if (0x61 <=? c) && (c <=? 0x66) then Some (c - 0x61 + 10)
  else None.

(** The UTF-8 bytes of a rune below [0x10000]. *)
Definition runeBytes (r : Z) : list byte :=
  if r <? 0x80 then [byte_of r]
  else if r <? 0x800
  then [byte_of (Z.lor 0xC0 (Z.shiftr r 6)); byte_of (Z.lor 0x80 (Z.land r 0x3F))]
  else [byte_of (Z.lor 0xE0 (Z.shiftr r 12));
        byte_of (Z.lor 0x80 (Z.land (Z.shiftr r 6) 0x3F));
        byte_of (Z.lor 0x80 (Z.land r 0x3F))].

(** The byte a two-byte escape stands for. *)
Definition escapeByte (e : byte) : option byte :=
  let c := byte_value e in
  if (c =? 0x5C) || (c =? 0x22) then Some e
  else if c =? 0x62 then Some x08
  else if c =? 0x66 then Some x0c
  else if c =? 0x6E then Some x0a
  else if c =? 0x72 then Some x0d
  else if c =? 0x74 then Some x09
  else None.

Definition spelling (prefix : list byte) (r : option (list byte * list byte))
  : option (list byte * list byte) :=
  match r with
  | Some (s, tail) => Some ((prefix ++ s)%list, tail)
  | None => None
  end.

Fixpoint spelled (bs : list byte) : option (list byte * list byte) :=
  match bs with
  | [] => None
  | b :: rest =>
      if byte_value b =? 0x22 then Some ([], rest)
      else if byte_value b =? 0x5C
      then
        match rest with
        | [] => None
        | e :: rest =>
            if byte_value e =? 0x75
            then
              match rest with
              | h1 :: h2 :: h3 :: h4 :: rest =>
                  match hexValue h1, hexValue h2, hexValue h3, hexValue h4 with
                  | Some d1, Some d2, Some d3, Some d4 =>
                      spelling (runeBytes (((d1 * 16 + d2) * 16 + d3) * 16 + d4))
                        (spelled rest)
                  | _, _, _, _ => None
                  end
              | _ => None
              end
            else
              match escapeByte e with
              | Some p => spelling [p] (spelled rest)
              | None => None
              end
        end
      else spelling [b] (spelled rest)
  end.

End Spelling.

(** ** The values the encoder takes apart again

    Values whose strings are UTF-8, values of one Go type, and values that
    are the same: maps with the same pairs, anything else when equal. *)
Definition ValidUTF8 (v : any) : bool :=
  match v with
  | AString s => Spelling.ValidString s
  | AStrings ss => forallb Spelling.ValidString ss
  | AMapStringString m =>
      forallb (λ kv : string * string,
                 Spelling.ValidString kv.1 && Spelling.ValidString kv.2) m
  | _ => true
  end.

Definition sameType (v v' : any) : bool :=
  match v, v' with
  | ANil, ANil
  | AString _, AString _
  | AStrings _, AStrings _
  | AInt _, AInt _
  | ABool _, ABool _
  | AMapStringString _, AMapStringString _
  | AChan _, AChan _ => true
  | _, _ => false
  end.

Definition sameValue (v v' : any) : Prop :=
  match v, v' with
  | AMapStringString m, AMapStringString m' => m ≡ₚ m'
  | _, _ => v = v'
  end.

(** * A concrete library, for running the model

    A small stand-in for the standard library: URLs with an http or https
    scheme parse, query escaping is the identity, the JSON encoder covers
    null, booleans, strings that need no escaping and maps of such strings
    (keys in the order given), the decoder covers null, booleans and
    strings, and the transport answers every request with a fixed status
    and body. *)

Module Example.
Import Reqwest.

Definition parse (s : string) : error + URL :=
  if String.prefix "http://" s || String.prefix "https://" s
  then inr {| Location := s; RawQuery := "" |}
  else inl (LibraryError "net/url" "missing protocol scheme").

Definition quote : ascii := ascii_of_nat 34.

Definition quoted (s : string) : string := String quote (s ++ String quote "").

Definition marshal (v : any) : error + list byte :=
  match v with
  | ANil => inr (list_byte_of_string "null")
  | ABool true => inr (list_byte_of_string "true")
  | ABool false => inr (list_byte_of_string "false")
  | AString s => inr (list_byte_of_string (quoted s))
  | AMapStringString m =>
      inr (list_byte_of_string
             ("{" ++ String.concat "," ((λ kv, quoted kv.1 ++ ":" ++ quoted kv.2) <$> m)
                  ++ "}"))
  | _ => inl (LibraryError "encoding/json" "unsupported type")
  end.

Definition unmarshal (bs : list byte) : error + any :=
  let s := string_of_list_byte bs in
  if bool_decide (s = "null") then inr ANil
  else if bool_decide (s = "true") then inr (ABool true)
  else if bool_decide (s = "false") then inr (ABool false)
  else match s with
       | String c rest =>
           let n := (String.length rest - 1)%nat in
           if bool_decide (c = quote) && bool_decide (String.get n rest = Some quote)
           then inr (AString (String.substring 0 n rest))
           else inl (LibraryError "encoding/json" "invalid character")
       | EmptyString => inl (LibraryError "encoding/json" "unexpected end of JSON input")
       end.

Definition reply (status : Z) (payload : string) : http_Response :=
  {| StatusCode := status; resp_Header := ∅;
     resp_Body := io_NopCloser (strings_NewReader payload) |}.

Definition replying (status : Z) (payload : string) : http_Client :=
  {| Do := λ _ _, (Some (reply status payload), None) |}.

(** The request [GET] builds for an endpoint when nothing was configured. *)
Definition plain (endpoint : string) : http_Request :=
  {| Method := "GET"; req_URL := {| Location := endpoint; RawQuery := "" |};
     req_Header := ∅; req_Body := None; req_ctx := context_Background |}.

Definition library (c : http_Client) : GoLibrary :=
  {| url_Parse := parse; url_QueryEscape := λ s, s;
     json_Marshal := marshal; json_Unmarshal := unmarshal;
     http_DefaultClient := c |}.

(** The library with the encoder of [encoding/json] and a decoder of
    one's choice. *)
Definition encoding_json (decoder : list byte → error + any) : GoLibrary :=
  {| url_Parse := parse; url_QueryEscape := λ s, s;
     json_Marshal := Json.Marshal; json_Unmarshal := decoder;
     http_DefaultClient := replying 200 "ok" |}.

(** The one-byte strings [0xFF] and [0xFE]: neither byte occurs in
    UTF-8. *)
Definition xFF : any := AString (String (ascii_of_nat 255) "").
Definition xFE : any := AString (String (ascii_of_nat 254) "").

(** The library and the endpoint of the package's tests. *)
Definition standard : GoLibrary := library (replying 200 "hello world").
Definition repos : string :=
  "https://api.github.com/users/poorlydefinedbehaviour/repos".

Definition idle : World := {| beforeEachInterceptors := []; roundTrips := [] |}.

Definition requestID : string := "03823a30-5bf8-4cd9-ac53-d12d18ab6d3d".

Definition tracing : context :=
  context_WithValue context_Background CorrelationIDContextKey (AString requestID).

Definition someError : error := errors_New "some error".

(** A clock that starts at 1 700 000 000 s and advances by 125 ms per
    reading, and an empty sink. *)
Definition ticking : Logger.World :=
  {| Logger.clock := λ n, 1700000000000000000 + Z.of_nat n * 125000000;
     Logger.ticks := 0; Logger.output := [] |}.

(** A parser that splits the endpoint at its first question mark, a
    transport that fails, and the library built on them. *)
Fixpoint splitQuery (s : string) : string * string :=
  match s with
  | EmptyString => (EmptyString, EmptyString)
  | String c rest =>
      if Ascii.eqb c "?" then (EmptyString, rest)
      else let '(location, rawQuery) := splitQuery rest in (String c location, rawQuery)
  end.

Definition parseQuery (s : string) : error + URL :=
  if String.prefix "http://" s || String.prefix "https://" s
  then let '(location, rawQuery) := splitQuery s in
       inr {| Location := location; RawQuery := rawQuery |}
  else inl (LibraryError "net/url" "missing protocol scheme").

Definition splitting (c : http_Client) : GoLibrary :=
  {| url_Parse := parseQuery; url_QueryEscape := λ s, s;
     json_Marshal := marshal; json_Unmarshal := unmarshal;
     http_DefaultClient := c |}.

Definition refused : error := LibraryError "net/http" "connection refused".

Definition failing (e : error) : http_Client := {| Do := λ _ _, (None, Some e) |}.

(** Two interceptors: one stamps a header, one marks the query. *)
Definition stamp (key value : string) : Interceptor :=
  λ req, with_Header (Header_Add key value (req_Header req)) req.
Definition mark (q : string) : Interceptor := with_RawQuery q.

(** A transport whose reply tells how many round trips came before, and
    one whose body breaks off with a read error. *)
Definition counting : http_Client :=
  {| Do := λ trips _,
       (Some (reply 200 ("reply " ++ pretty (Z.of_nat (List.length trips)))), None) |}.

Definition unexpectedEOF : error := LibraryError "io" "unexpected EOF".

Definition truncated (partial : string) : http_Response :=
  {| StatusCode := 200; resp_Header := ∅;
     resp_Body := io_NopCloser {| unread := list_byte_of_string partial;
                                  failure := Some unexpectedEOF |} |}.

Definition truncating (partial : string) : http_Client :=
  {| Do := λ _ _, (Some (truncated partial), None) |}.

(** [plain] with the [Accept] header [JSON] sets. *)
Definition accepting (endpoint : string) : http_Request :=
  with_Header (Header_Set "accept" "application/json" ∅) (plain endpoint).

(** What the first revision's [POST] returns for the test endpoint. *)
Definition posting (endpoint : string) : http_Request :=
  {| Method := "POST"; req_URL := {| Location := endpoint; RawQuery := "" |};
     req_Header := ∅; req_Body := None; req_ctx := context_Background |}.

Definition posted (c : http_Client) : Http.RequestBuilder :=
  {| Http.request := Some (posting repos); Http.client := c; Http.method := "POST";
     Http.query := Some ∅; Http.response := None; Http.err := None |}.

(** Handlers that write a line of their own to the sink. *)
Definition noting (tag : string) : Logger.EventHandler :=
  λ event message,
    Logger.zerolog_Msg "debug" "" tag (Logger.name event ++ ": " ++ message).

End Example.

(** * Properties of the request builder *)

Import Reqwest.

(** The values [Build] appends under the canonical correlation header. *)
Definition correlation (ctx : context) : list string :=
  match ctx_Value ctx CorrelationIDContextKey with
  | AString correlationID => [correlationID]
  | _ => []
  end.

(** The values a chain of [Header] calls supplies for one key, in call
    order. *)
Definition supplied (key : string) (calls : list (string * string)) : list string :=
  snd <$> filter (λ kv, kv.1 = key) calls.

Definition headerCalls (calls : list (string * string)) : list config :=
  (λ kv, CallHeader kv.1 kv.2) <$> calls.

(** The calls of a run that trigger a send. *)
Definition isSend (c : call) : bool :=
  match c with
  | CallSend => true
  | _ => false
  end.

Definition sends (cs : list call) : nat := List.length (List.filter isSend cs).

(** The status policy, as the error message states it. *)
Definition in_200_299 (code : Z) : Prop := 200 ≤ code ≤ 299.

(** The values a [Query] call supplies: one for a string, all of them for
    a slice of strings, none for a value of any other type. *)
Definition queryValues (value : any) : list string :=
  match value with
  | AString s => [s]
  | AStrings ss => ss
  | _ => []
  end.

(** The pairs [Values.Encode] writes for one key. *)
Definition encodedPairs `{GoLibrary} (key : string) (values : list string)
  : list string :=
  (λ x, url_QueryEscape key ++ "=" ++ url_QueryEscape x) <$> values.

(** Registering interceptors one after the other. *)
Definition register (interceptors : list Interceptor) (w : World) : World :=
  foldl (λ w interceptor, BeforeEach interceptor w) w interceptors.

(** The payload a chain of calls leaves on the builder: the one of the
    last [Body] call or of the last [JSON] call whose value the library
    encodes. *)
Fixpoint lastBody `{GoLibrary} (cs : list config) (current : option Reader)
  : option Reader :=
  match cs with
  | [] => current
  | CallBody reader :: rest => lastBody rest reader
  | CallJSON v :: rest =>
      match json_Marshal v with
      | inr out => lastBody rest (Some (bytes_NewBuffer out))
      | inl _ => lastBody rest current
      end
  | _ :: rest => lastBody rest current
  end.

(** A call whose [JSON] value, if it has one, the library encodes. *)
Definition marshals `{GoLibrary} (c : config) : Prop :=
  match c with
  | CallJSON v => ∃ out, json_Marshal v = inr out
  | _ => True
  end.

Definition zeroResponse : Response := {| Response_ := None; Body_ := [] |}.

Example canonical_correlation_key :
  CanonicalMIMEHeaderKey CorrelationIDHeaderKey = "X-Correlation-Id".
Proof. reflexivity. Qed.

Lemma index_insert (m : gmap string (list string)) (k key : string) (vs : list string) :
  index (<[k := vs]> m) key = if bool_decide (key = k) then vs else index m key.
Proof.
  unfold index. case_bool_decide as Hk.
  - subst. by rewrite lookup_insert_eq.
  - by rewrite lookup_insert_ne.
Qed.

Lemma index_empty (key : string) : index ∅ key = [].
Proof. unfold index. by rewrite lookup_empty. Qed.

Lemma index_Header_Add (h : gmap string (list string)) (k v key : string) :
  index (Header_Add k v h) key =
  (index h key ++ if bool_decide (key = CanonicalMIMEHeaderKey k) then [v] else [])%list.
Proof.
  unfold Header_Add. rewrite index_insert.
  case_bool_decide; subst; [done | by rewrite app_nil_r].
Qed.

Lemma supplied_same_key (key : string) (values : list string) :
  supplied key ((λ v, (key, v)) <$> values) = values.
Proof.
  unfold supplied. induction values as [| v values IH]; [done |].
  rewrite fmap_cons, filter_cons. simpl.
  case_decide; [| done]. rewrite fmap_cons. simpl. by f_equal.
Qed.

Section BuilderFacts.
Context `{GoLibrary}.

Lemma NewRequest_Header (m e : string) (r : option Reader) (req : http_Request) :
  http_NewRequest m e r = inr req → req_Header req = ∅.
Proof.
  unfold http_NewRequest. intros Hreq.
  destruct (negb _); [done |].
  destruct (url_Parse e); [done |].
  by injection Hreq as <-.
Qed.

(** What [Build] answers on a builder that carries an error. *)
Lemma Build_err (builder : RequestBuilder) (e : error) :
  err builder = Some e →
  Build builder =
  ({| out_client := client builder; out_request := None;
      out_response := {| Response_ := None; Body_ := [] |};
      out_err := Some (WithStack e) |}, builder).
Proof. intros He. unfold Build. by rewrite He. Qed.

(** What [Build] answers when the request can be constructed. *)
Lemma Build_ok (builder : RequestBuilder) (req0 : http_Request) :
  err builder = None →
  http_NewRequest (method builder) (endpoint builder) (body builder) = inr req0 →
  ∃ req,
    (Build builder).1 =
      {| out_client := client builder; out_request := Some req;
         out_response := {| Response_ := None; Body_ := [] |};
         out_err := None |} ∧
    Method req = Method req0 ∧
    req_Body req = req_Body req0 ∧
    req_ctx req = ctx builder ∧
    RawQuery (req_URL req) = Values_Encode (query builder) ∧
    ∀ key,
      index (req_Header req) key =
      (index_nilable (headers builder) key ++
       if bool_decide (key = CanonicalMIMEHeaderKey CorrelationIDHeaderKey)
       then correlation (ctx builder) else [])%list.
Proof.
  intros He Hreq. unfold Build. rewrite He, Hreq.
  eexists. split; [reflexivity |]. cbn.
  repeat split.
  intros key. rewrite (NewRequest_Header _ _ _ _ Hreq).
  assert (Hh : index (if bool_decide (0 < len (headers builder))%nat
                      then default ∅ (headers builder) else ∅) key =
               index_nilable (headers builder) key).
  { case_bool_decide as Hlen.
    - destruct (headers builder); [done | simpl in Hlen; lia].
    - destruct (headers builder) as [h |]; simpl in *; [| apply index_empty].
      assert (h = ∅) as -> by (apply map_size_empty_iff; lia). done. }
  unfold correlation.
  destruct (ctx_Value (ctx builder) CorrelationIDContextKey);
    rewrite ?index_Header_Add, Hh;
    repeat case_bool_decide; by rewrite ?app_nil_r.
Qed.

Lemma Request_Build (builder : RequestBuilder) (req : http_Request) :
  out_request (Build builder).1 = Some req →
  out_err (Build builder).1 = None →
  (Request builder).1 = (Some req, None).
Proof.
  unfold Request. destruct (Build builder) as [out b']. simpl.
  by intros -> ->.
Qed.

Lemma chain_app (cs ds : list config) (builder : RequestBuilder) :
  chain (cs ++ ds) builder = (chain cs builder ≫= chain ds).
Proof.
  revert builder. induction cs as [| c cs IH]; intros builder; [done |].
  simpl. destruct (configure c builder) as [b' | r]; simpl; [apply IH | done].
Qed.

(** A chain of [Header] calls on a builder whose header map is allocated
    returns, and only extends the header map. *)
Lemma chain_headerCalls (calls : list (string * string)) (builder : RequestBuilder)
    (h : gmap string (list string)) :
  headers builder = Some h →
  ∃ h',
    chain (headerCalls calls) builder = Ret (set_headers (Some h') builder) ∧
    ∀ key, index h' key = (index h key ++ supplied key calls)%list.
Proof.
  revert builder h. induction calls as [| [k v] calls IH]; intros builder h Hh.
  - exists h. split.
    + simpl. f_equal. destruct builder; simpl in *; by subst.
    + intros key. unfold supplied. by rewrite app_nil_r.
  - simpl. unfold Header. rewrite Hh. simpl.
    edestruct (IH (set_headers (Some (<[k := (index h k ++ [v])%list]> h)) builder))
      as (h' & Hchain & Hidx); [reflexivity |].
    exists h'. split; [exact Hchain |].
    intros key. rewrite Hidx, index_insert. unfold supplied.
    rewrite filter_cons. simpl.
    case_bool_decide as Hk; case_decide as Hk'; subst; try done.
    by rewrite <- app_assoc.
Qed.
End BuilderFacts.

Section HeaderClaims.
Context `{GoLibrary}.

(** Any chain of [Header] calls, whatever the keys: the request built
    afterwards lists, under every key, the values the builder held, then
    the values the calls supplied for that key in call order, then (under
    the canonical correlation key only) the correlation id of the
    context. *)
Lemma Header_chain_built (builder : RequestBuilder) (calls : list (string * string))
    (h : gmap string (list string)) (req0 : http_Request) :
  err builder = None →
  headers builder = Some h →
  http_NewRequest (method builder) (endpoint builder) (body builder) = inr req0 →
  ∃ builder' req,
    chain (headerCalls calls) builder = Ret builder' ∧
    (Request builder').1 = (Some req, None) ∧
    ∀ key,
      index (req_Header req) key =
      (index h key ++ supplied key calls ++
       if bool_decide (key = CanonicalMIMEHeaderKey CorrelationIDHeaderKey)
       then correlation (ctx builder) else [])%list.
Proof.
  intros He Hh Hreq.
  destruct (chain_headerCalls calls builder h Hh) as (h' & Hchain & Hidx).
  destruct (Build_ok (set_headers (Some h') builder) req0 He Hreq)
    as (req & Hout & _ & _ & _ & _ & Hkey).
  exists (set_headers (Some h') builder), req.
  split; [exact Hchain |]. split.
  - apply Request_Build; by rewrite Hout.
  - intros key. rewrite Hkey. simpl. by rewrite Hidx, <- app_assoc.
Qed.

(** C2.  For every builder (with no recorded error, an allocated header
    map and an endpoint the library accepts) and any sequence of [Header]
    calls with the same key, the calls return and the header value list of
    the request built afterwards is: the values already held for the key,
    followed by all supplied values in call order, followed only by the
    context's correlation id when the key is the canonical correlation
    key.  Nothing is overwritten. *)
Theorem Header_accumulates (builder : RequestBuilder) (key : string)
    (values : list string) (h : gmap string (list string)) (req0 : http_Request) :
  err builder = None →
  headers builder = Some h →
  http_NewRequest (method builder) (endpoint builder) (body builder) = inr req0 →
  ∃ builder' req,
    chain (CallHeader key <$> values) builder = Ret builder' ∧
    (Request builder').1 = (Some req, None) ∧
    index (req_Header req) key =
    (index h key ++ values ++
     if bool_decide (key = CanonicalMIMEHeaderKey CorrelationIDHeaderKey)
     then correlation (ctx builder) else [])%list.
Proof.
  intros He Hh Hreq.
  destruct (Header_chain_built builder ((λ v, (key, v)) <$> values) h req0 He Hh Hreq)
    as (builder' & req & Hchain & Hrequest & Hkey).
  exists builder', req. split; [| split; [exact Hrequest |]].
  - rewrite <- Hchain. unfold headerCalls. by rewrite <- list_fmap_compose.
  - by rewrite Hkey, supplied_same_key.
Qed.

(** C5.  For every builder whose context carries a string correlation id
    under [CorrelationIDContextKey] (and whose request can be built), the
    built request carries that id, unchanged, as the last value of the
    header [X-Correlation-Id]; the values before it are the ones the
    builder already held under that key, so the id is put there by
    [Build] and not by a [Header] call; and when the builder held none,
    [Header.Get("x-correlation-id")] is the id exactly. *)
Theorem Build_injects_correlation_id (builder : RequestBuilder)
    (correlationID : string) (req0 : http_Request) :
  err builder = None →
  http_NewRequest (method builder) (endpoint builder) (body builder) = inr req0 →
  ctx_Value (ctx builder) CorrelationIDContextKey = AString correlationID →
  ∃ req,
    (Request builder).1 = (Some req, None) ∧
    index (req_Header req) "X-Correlation-Id" =
      (index_nilable (headers builder) "X-Correlation-Id" ++ [correlationID])%list ∧
    correlationID ∈ index (req_Header req) (CanonicalMIMEHeaderKey CorrelationIDHeaderKey) ∧
    (index_nilable (headers builder) "X-Correlation-Id" = [] →
     Header_Get (req_Header req) CorrelationIDHeaderKey = correlationID).
Proof.
  intros He Hreq Hctx.
  destruct (Build_ok builder req0 He Hreq) as (req & Hout & _ & _ & _ & _ & Hkey).
  exists req. split; [apply Request_Build; by rewrite Hout |].
  specialize (Hkey "X-Correlation-Id").
  rewrite bool_decide_eq_true_2 in Hkey by reflexivity.
  unfold correlation in Hkey. rewrite Hctx in Hkey.
  split; [exact Hkey |]. split.
  - change (CanonicalMIMEHeaderKey CorrelationIDHeaderKey) with "X-Correlation-Id".
    rewrite Hkey. set_solver.
  - intros Hnone. unfold Header_Get.
    change (CanonicalMIMEHeaderKey CorrelationIDHeaderKey) with "X-Correlation-Id".
    by rewrite Hkey, Hnone.
Qed.
End HeaderClaims.

Lemma Header_accumulates_witness :
  let lib := Example.library (Example.replying 200 "ok") in
  let builder := @GET lib context_Background "http://foo.com" in
  let req0 := {| Method := "GET";
                 req_URL := {| Location := "http://foo.com"; RawQuery := "" |};
                 req_Header := ∅; req_Body := None; req_ctx := context_Background |} in
  (err builder = None ∧ headers builder = Some ∅ ∧
   @http_NewRequest lib (method builder) (endpoint builder) (body builder) = inr req0) ∧
  ∃ builder' req,
    @chain lib (CallHeader "key1" <$> ["value1"; "value2"]) builder = Ret builder' ∧
    (@Request lib builder').1 = (Some req, None) ∧
    index (req_Header req) "key1" =
    (index ∅ "key1" ++ ["value1"; "value2"] ++
     if bool_decide ("key1" = CanonicalMIMEHeaderKey CorrelationIDHeaderKey)
     then correlation (ctx builder) else [])%list.
Proof.
  intros lib builder req0.
  split; [repeat split |].
  apply (@Header_accumulates lib builder "key1" ["value1"; "value2"] ∅ req0);
    reflexivity.
Defined.

Lemma Build_injects_correlation_id_witness :
  let lib := Example.library (Example.replying 200 "ok") in
  let builder := @GET lib Example.tracing "http://foo.com" in
  let req0 := {| Method := "GET";
                 req_URL := {| Location := "http://foo.com"; RawQuery := "" |};
                 req_Header := ∅; req_Body := None; req_ctx := context_Background |} in
  (err builder = None ∧
   @http_NewRequest lib (method builder) (endpoint builder) (body builder) = inr req0 ∧
   ctx_Value (ctx builder) CorrelationIDContextKey = AString Example.requestID) ∧
  ∃ req,
    (@Request lib builder).1 = (Some req, None) ∧
    index (req_Header req) "X-Correlation-Id" =
      (index_nilable (headers builder) "X-Correlation-Id" ++ [Example.requestID])%list ∧
    Example.requestID ∈
      index (req_Header req) (CanonicalMIMEHeaderKey CorrelationIDHeaderKey) ∧
    (index_nilable (headers builder) "X-Correlation-Id" = [] →
     Header_Get (req_Header req) CorrelationIDHeaderKey = Example.requestID).
Proof.
  intros lib builder req0.
  split; [repeat split |].
  apply (@Build_injects_correlation_id lib builder Example.requestID req0);
    reflexivity.
Defined.

(** ** The recorded error *)

Lemma errors_Is_refl (e : error) : errors_Is e e = true.
Proof. destruct e; simpl; by rewrite bool_decide_eq_true_2. Qed.

Lemma errors_Is_WithStack (e target : error) :
  errors_Is e target = true → errors_Is (WithStack e) target = true.
Proof. intros He. simpl. rewrite He. apply orb_true_r. Qed.

Section StickyError.
Context `{GoLibrary}.

Lemma JSON_err (builder : RequestBuilder) (e : error) (body : any) :
  err builder = Some e → JSON body builder = builder.
Proof. intros He. unfold JSON. by rewrite He. Qed.

Lemma Values_AddEach_allocated (key : string) (value : list string)
    (q : gmap string (list string)) :
  ∃ q', Values_AddEach key value (Some q) = Ret (Some q').
Proof.
  revert q. induction value as [| v value IH]; intros q; simpl; eauto.
Qed.

(** A configuration call never touches the recorded error nor the
    client. *)
Lemma configure_err (c : config) (builder builder' : RequestBuilder) (e : error) :
  err builder = Some e →
  configure c builder = Ret builder' →
  err builder' = Some e ∧ client builder' = client builder.
Proof.
  intros He Hc. destruct c as [k v | k v | r | v]; simpl in Hc.
  - unfold Header in Hc. destruct (headers builder); [| done].
    by injection Hc as <-.
  - unfold Query in Hc.
    destruct v; try (by injection Hc as <-).
    + destruct (Values_Add k s (query builder)); [| done].
      by injection Hc as <-.
    + destruct (Values_AddEach k ss (query builder)); [| done].
      by injection Hc as <-.
  - by injection Hc as <-.
  - rewrite (JSON_err _ e) in Hc by done. by injection Hc as <-.
Qed.

Lemma chain_err (cs : list config) (builder builder' : RequestBuilder) (e : error) :
  err builder = Some e →
  chain cs builder = Ret builder' →
  err builder' = Some e ∧ client builder' = client builder.
Proof.
  revert builder. induction cs as [| c cs IH]; intros builder He Hc; simpl in Hc.
  - by injection Hc as <-.
  - destruct (configure c builder) as [b1 | r] eqn:Hc1; [| done].
    destruct (configure_err c builder b1 e He Hc1) as [He1 Hcl1].
    destruct (IH b1 He1 Hc) as [He' Hcl']. split; congruence.
Qed.

(** On allocated maps no configuration call panics, and the maps stay
    allocated. *)
Lemma configure_returns (c : config) (builder : RequestBuilder) :
  is_Some (headers builder) → is_Some (query builder) →
  ∃ builder', configure c builder = Ret builder' ∧
              is_Some (headers builder') ∧ is_Some (query builder').
Proof.
  intros [h Hh] [q Hq]. destruct c as [k v | k v | r | v]; simpl.
  - unfold Header. rewrite Hh. eexists. split; [done |]. simpl. eauto.
  - unfold Query. destruct v; try (eexists; split; [done |]; eauto).
    + rewrite Hq. simpl. eexists. split; [done |]. simpl. eauto.
    + rewrite Hq. destruct (Values_AddEach_allocated k ss q) as [q' ->].
      simpl. eexists. split; [done |]. simpl. eauto.
  - eexists. split; [done |]. simpl. eauto.
  - eexists. split; [done |]. unfold JSON.
    destruct (err builder); [eauto |]. destruct (json_Marshal v); simpl; eauto.
Qed.

Lemma chain_returns (cs : list config) (builder : RequestBuilder) :
  is_Some (headers builder) → is_Some (query builder) →
  returns (chain cs builder).
Proof.
  revert builder. induction cs as [| c cs IH]; intros builder Hh Hq; simpl.
  - by eexists.
  - destruct (configure_returns c builder Hh Hq) as (b1 & -> & Hh1 & Hq1).
    simpl. by apply IH.
Qed.

(** C1, as the code has it.  On a builder that carries a recorded error
    [e]: [JSON] is a no-op; every chain of configuration calls that
    returns leaves [e] recorded; [Build], [Request] and [Send] on the
    resulting builder answer exactly as on the builder before the calls,
    with no request, no round trip and an error that wraps [e], so no
    later call is observable in a built request; and the chain does
    return whenever the header and query maps are allocated. *)
Theorem recorded_error_is_kept (builder : RequestBuilder) (e : error)
    (cs : list config) :
  err builder = Some e →
  (∀ body, JSON body builder = builder) ∧
  (∀ builder', chain cs builder = Ret builder' →
     err builder' = Some e ∧
     Build builder' = ((Build builder).1, builder') ∧
     out_request (Build builder').1 = None ∧
     (Request builder').1 = (None, Some (WithStack (WithStack e))) ∧
     Is (Request builder').1.2 e = true ∧
     ∀ w, Send builder' w =
          Ret (({| Response_ := None; Body_ := [] |},
                Some (WithStack (WithStack e))), builder', w)) ∧
  (is_Some (headers builder) → is_Some (query builder) →
   returns (chain cs builder)).
Proof.
  intros He. split; [intros body; by apply (JSON_err _ e) |].
  split; [| apply chain_returns].
  intros builder' Hchain.
  destruct (chain_err cs builder builder' e He Hchain) as [He' Hcl].
  rewrite (Build_err builder' e He'), (Build_err builder e He), Hcl.
  split; [done |]. split; [done |]. split; [done |].
  unfold Request, Send. rewrite (Build_err builder' e He'). simpl.
  split; [done |]. split; [| done].
  do 2 apply errors_Is_WithStack. apply errors_Is_refl.
Qed.
End StickyError.

Lemma recorded_error_is_kept_witness :
  let lib := Example.library (Example.replying 200 "ok") in
  let builder := set_err (Some Example.someError)
                   (@GET lib context_Background "http://foo.com") in
  let cs := [CallHeader "key" "value"; CallQuery "page" (AString "1");
             CallBody (Some (strings_NewReader "hello world"));
             CallJSON (AString "hello")] in
  err builder = Some Example.someError ∧
  (∀ body, @JSON lib body builder = builder) ∧
  (∀ builder', @chain lib cs builder = Ret builder' →
     err builder' = Some Example.someError ∧
     @Build lib builder' = ((@Build lib builder).1, builder') ∧
     out_request (@Build lib builder').1 = None ∧
     (@Request lib builder').1 =
       (None, Some (WithStack (WithStack Example.someError))) ∧
     Is (@Request lib builder').1.2 Example.someError = true ∧
     ∀ w, @Send lib builder' w =
          Ret (({| Response_ := None; Body_ := [] |},
                Some (WithStack (WithStack Example.someError))), builder', w)) ∧
  (is_Some (headers builder) → is_Some (query builder) →
   returns (@chain lib cs builder)).
Proof.
  intros lib builder cs. split; [reflexivity |].
  apply (@recorded_error_is_kept lib builder Example.someError cs). reflexivity.
Defined.

(** The calls after a recorded error are not all no-ops: on a [POST]
    builder whose [JSON] call failed, [Header], [Query] and [Body] still
    write the builder; on a [PATCH] builder in the same state, [Query] does
    not return at all. *)
Lemma calls_after_error_still_write :
  let lib := Example.library (Example.replying 200 "ok") in
  let failed := @JSON lib (AChan 0) (@POST lib context_Background "http://foo.com") in
  let patch := @JSON lib (AChan 0) (@PATCH lib context_Background "http://foo.com") in
  is_Some (err failed) ∧
  (∃ builder', Header "key" "value" failed = Ret builder' ∧
               index_nilable (headers failed) "key" = [] ∧
               index_nilable (headers builder') "key" = ["value"]) ∧
  Header "key" "value" failed ≠ Ret failed ∧
  (∃ builder', Query "page" (AString "1") failed = Ret builder' ∧
               index_nilable (query failed) "page" = [] ∧
               index_nilable (query builder') "page" = ["1"]) ∧
  Query "page" (AString "1") failed ≠ Ret failed ∧
  Body (Some (strings_NewReader "hello world")) failed ≠ failed ∧
  is_Some (err patch) ∧
  Query "page" (AString "1") patch = Panic nil_map_panic.
Proof.
  intros lib failed patch.
  split; [by eexists |].
  split; [eexists; repeat split |].
  split; [intros Heq; injection Heq as Heq; discriminate |].
  split; [eexists; repeat split |].
  split; [intros Heq; injection Heq as Heq; discriminate |].
  split; [intros Heq; discriminate |].
  split; [by eexists | reflexivity].
Qed.

(** ** Sending *)

Lemma errors_Is_Wrapf (e target : error) (m : string) :
  errors_Is e target = true → errors_Is (Wrapf e m) target = true.
Proof. intros He. simpl. rewrite He. apply orb_true_r. Qed.

Lemma unexpectedStatus_spec (code : Z) :
  unexpectedStatus code = true ↔ ¬ in_200_299 code.
Proof. unfold unexpectedStatus, in_200_299. rewrite orb_true_iff. lia. Qed.

Section SendClaims.
Context `{GoLibrary}.

Lemma Build_client (builder : RequestBuilder) :
  out_client (Build builder).1 = client builder.
Proof.
  unfold Build. destruct (err builder); [done |].
  by destruct (http_NewRequest _ _ _).
Qed.

Lemma Build_response (builder : RequestBuilder) :
  out_response (Build builder).1 = {| Response_ := None; Body_ := [] |}.
Proof.
  unfold Build. destruct (err builder); [done |].
  by destruct (http_NewRequest _ _ _).
Qed.

(** The whole of [Send] once the request is built and the transport
    answers with a response and no error. *)
Lemma Send_completed (builder : RequestBuilder) (w : World)
    (req : http_Request) (response : http_Response) :
  out_request (Build builder).1 = Some req →
  out_err (Build builder).1 = None →
  Do (client builder) (roundTrips w)
     (runInterceptors (beforeEachInterceptors w) req) = (Some response, None) →
  Send builder w =
  Ret (({| Response_ :=
             Some {| StatusCode := StatusCode response;
                     resp_Header := resp_Header response;
                     resp_Body := Close (ioutil_ReadAll (resp_Body response)).2 |};
           Body_ := unread (stream (resp_Body response)) |},
        if unexpectedStatus (StatusCode response)
        then Some (WithStack
                     (Wrapf ErrUnexpectedResponseStatus
                        (Sprintf "got status %d" [fmt_int (StatusCode response)])))
        else None),
       (Build builder).2,
       {| beforeEachInterceptors := beforeEachInterceptors w;
          roundTrips :=
            (roundTrips w ++ [runInterceptors (beforeEachInterceptors w) req])%list |}).
Proof.
  intros Hreq Herr HDo. unfold Send.
  pose proof (Build_client builder) as Hcl.
  destruct (Build builder) as [out b']. simpl in *.
  unfold makeRequest. rewrite Herr, Hreq, Hcl, HDo. simpl.
  destruct (unexpectedStatus (StatusCode response)); simpl;
    [done | by rewrite Herr].
Qed.

(** C3.  After [Send] completes a round trip (the request was built and
    the transport answered with a response and no error), [Send] returns,
    and its error is an [ErrUnexpectedResponseStatus] if and only if the
    status code lies outside the range 200..299; inside the range there
    is no error at all. *)
Theorem Send_status_policy (builder : RequestBuilder) (w : World)
    (req : http_Request) (response : http_Response) :
  out_request (Build builder).1 = Some req →
  out_err (Build builder).1 = None →
  Do (client builder) (roundTrips w)
     (runInterceptors (beforeEachInterceptors w) req) = (Some response, None) →
  ∃ resp e builder' w',
    Send builder w = Ret ((resp, e), builder', w') ∧
    (Is e ErrUnexpectedResponseStatus = true ↔ ¬ in_200_299 (StatusCode response)) ∧
    (e = None ↔ in_200_299 (StatusCode response)).
Proof.
  intros Hreq Herr HDo.
  rewrite (Send_completed builder w req response Hreq Herr HDo).
  do 4 eexists. split; [reflexivity |].
  pose proof (unexpectedStatus_spec (StatusCode response)) as Hspec.
  destruct (unexpectedStatus (StatusCode response)); simpl.
  - assert (Hout : ¬ in_200_299 (StatusCode response)) by by apply Hspec.
    split; [done | by split].
  - assert (Hin : in_200_299 (StatusCode response)).
    { destruct (decide (in_200_299 (StatusCode response))) as [Hin | Hout];
        [done |]. apply Hspec in Hout. discriminate. }
    split; [by split | by split].
Qed.

(** C4.  When a completed round trip yields a status code outside
    200..299, [Send] still returns the response object: it carries the
    status code and headers of the transport's response, its body stream
    has been read to the end and closed, and [Body] holds every byte the
    stream delivered; the error returned with it is an
    [ErrUnexpectedResponseStatus]. *)
Theorem Send_unexpected_status_keeps_response (builder : RequestBuilder) (w : World)
    (req : http_Request) (response : http_Response) :
  out_request (Build builder).1 = Some req →
  out_err (Build builder).1 = None →
  Do (client builder) (roundTrips w)
     (runInterceptors (beforeEachInterceptors w) req) = (Some response, None) →
  ¬ in_200_299 (StatusCode response) →
  ∃ resp raw e builder' w',
    Send builder w = Ret ((resp, Some e), builder', w') ∧
    errors_Is e ErrUnexpectedResponseStatus = true ∧
    Response_ resp = Some raw ∧
    StatusCode raw = StatusCode response ∧
    resp_Header raw = resp_Header response ∧
    drained (resp_Body raw) ∧
    closed (resp_Body raw) = true ∧
    Bytes resp = unread (stream (resp_Body response)) ∧
    Text resp = string_of_list_byte (unread (stream (resp_Body response))).
Proof.
  intros Hreq Herr HDo Hstatus.
  rewrite (Send_completed builder w req response Hreq Herr HDo).
  apply unexpectedStatus_spec in Hstatus. rewrite Hstatus.
  do 5 eexists. split; [reflexivity |].
  split; [apply errors_Is_WithStack, errors_Is_Wrapf, errors_Is_refl |].
  repeat split.
Qed.
End SendClaims.

Lemma Send_status_policy_witness :
  let lib := Example.library (Example.replying 103 "") in
  let builder := @GET lib context_Background "http://localhost:5000/a/" in
  let req := Example.plain "http://localhost:5000/a/" in
  (out_request (@Build lib builder).1 = Some req ∧
   out_err (@Build lib builder).1 = None ∧
   Do (client builder) (roundTrips Example.idle)
      (runInterceptors (beforeEachInterceptors Example.idle) req) =
     (Some (Example.reply 103 ""), None)) ∧
  ∃ resp e builder' w',
    @Send lib builder Example.idle = Ret ((resp, e), builder', w') ∧
    (Is e ErrUnexpectedResponseStatus = true ↔
     ¬ in_200_299 (StatusCode (Example.reply 103 ""))) ∧
    (e = None ↔ in_200_299 (StatusCode (Example.reply 103 ""))).
Proof.
  intros lib builder req. split; [repeat split |].
  apply (@Send_status_policy lib builder Example.idle req (Example.reply 103 ""));
    reflexivity.
Defined.

(** The two status codes of the package's own test: 103 and 300. *)
Example Send_103_is_unexpected :
  let lib := Example.library (Example.replying 103 "") in
  ∃ resp e builder' w',
    @Send lib (@GET lib context_Background "http://localhost:5000/a/") Example.idle =
      Ret ((resp, e), builder', w') ∧
    Is e ErrUnexpectedResponseStatus = true ∧
    StatusCode <$> Response_ resp = Some 103.
Proof. do 4 eexists. split; [vm_compute; reflexivity | by split]. Qed.

Example Send_300_is_unexpected :
  let lib := Example.library (Example.replying 300 "") in
  ∃ resp e builder' w',
    @Send lib (@GET lib context_Background "http://localhost:5000/a/") Example.idle =
      Ret ((resp, e), builder', w') ∧
    Is e ErrUnexpectedResponseStatus = true ∧
    StatusCode <$> Response_ resp = Some 300.
Proof. do 4 eexists. split; [vm_compute; reflexivity | by split]. Qed.

Example Send_200_is_expected :
  let lib := Example.library (Example.replying 200 "hello world") in
  ∃ resp builder' w',
    @Send lib (@GET lib context_Background "http://localhost:5000/a/") Example.idle =
      Ret ((resp, None), builder', w') ∧
    Text resp = "hello world".
Proof. do 3 eexists. split; [vm_compute; reflexivity | reflexivity]. Qed.

Lemma Send_unexpected_status_keeps_response_witness :
  let lib := Example.library (Example.replying 300 "moved") in
  let builder := @GET lib context_Background "http://localhost:5000/a/" in
  let req := Example.plain "http://localhost:5000/a/" in
  let response := Example.reply 300 "moved" in
  (out_request (@Build lib builder).1 = Some req ∧
   out_err (@Build lib builder).1 = None ∧
   Do (client builder) (roundTrips Example.idle)
      (runInterceptors (beforeEachInterceptors Example.idle) req) =
     (Some response, None) ∧
   ¬ in_200_299 (StatusCode response)) ∧
  ∃ resp raw e builder' w',
    @Send lib builder Example.idle = Ret ((resp, Some e), builder', w') ∧
    errors_Is e ErrUnexpectedResponseStatus = true ∧
    Response_ resp = Some raw ∧
    StatusCode raw = StatusCode response ∧
    resp_Header raw = resp_Header response ∧
    drained (resp_Body raw) ∧
    closed (resp_Body raw) = true ∧
    Bytes resp = unread (stream (resp_Body response)) ∧
    Text resp = string_of_list_byte (unread (stream (resp_Body response))).
Proof.
  intros lib builder req response.
  assert (Hout : ¬ in_200_299 (StatusCode response)).
  { unfold in_200_299. simpl. lia. }
  split; [repeat split; exact Hout |].
  apply (@Send_unexpected_status_keeps_response lib builder Example.idle req response);
    [reflexivity | reflexivity | reflexivity | exact Hout].
Defined.

(** ** Building makes no round trip *)

Section RoundTrips.
Context `{GoLibrary}.

Lemma makeRequest_trips (out out' : ResponseBuilder) (w w' : World) :
  makeRequest out w = Ret (out', w') →
  ∃ sent, roundTrips w' = (roundTrips w ++ sent)%list ∧
          (List.length sent ≤ 1)%nat ∧
          beforeEachInterceptors w' = beforeEachInterceptors w.
Proof.
  unfold makeRequest. intros Hm.
  destruct (out_err out).
  { injection Hm as <- <-. exists []. rewrite app_nil_r. simpl. by auto with lia. }
  destruct (out_request out) as [req |]; [| done].
  destruct (Do _ _ _) as [response e].
  assert (Hsent : ∀ o,
    Ret (o, {| beforeEachInterceptors := beforeEachInterceptors w;
               roundTrips :=
                 (roundTrips w ++
                  [runInterceptors (beforeEachInterceptors w) req])%list |}) =
    Ret (out', w') →
    ∃ sent, roundTrips w' = (roundTrips w ++ sent)%list ∧
            (List.length sent ≤ 1)%nat ∧
            beforeEachInterceptors w' = beforeEachInterceptors w).
  { intros o Ho. injection Ho as <- <-. eexists. split; [reflexivity |]. simpl.
    by auto with lia. }
  destruct e; [by eapply Hsent |].
  destruct response as [response |]; [| done]. simpl in Hm.
  destruct (unexpectedStatus _); by eapply Hsent.
Qed.

Lemma step_trips (c : call) (builder builder' : RequestBuilder) (w w' : World) :
  step c (builder, w) = Ret (builder', w') →
  (∃ sent, roundTrips w' = (roundTrips w ++ sent)%list ∧
           (List.length sent ≤ if isSend c then 1 else 0)%nat) ∧
  (isSend c = false → w' = w).
Proof.
  intros Hs. destruct c as [c | | |]; simpl in Hs.
  - destruct (configure c builder); [| done]. injection Hs as <- <-.
    split; [exists []; rewrite app_nil_r; simpl; by auto with lia | done].
  - injection Hs as <- <-.
    split; [exists []; rewrite app_nil_r; simpl; by auto with lia | done].
  - injection Hs as <- <-.
    split; [exists []; rewrite app_nil_r; simpl; by auto with lia | done].
  - split; [| done]. unfold Send in Hs.
    destruct (Build builder) as [out b1].
    destruct (makeRequest out w) as [[out' w1] | r] eqn:Hm; [| done].
    simpl in Hs.
    destruct (makeRequest_trips out out' w w1 Hm) as (sent & Hw & Hlen & _).
    exists sent. destruct (out_err out'); injection Hs as <- <-; by split.
Qed.

Lemma run_cons (c : call) (cs : list call) (s : RequestBuilder * World) :
  run (c :: cs) s = (step c s ≫= run cs).
Proof. reflexivity. Qed.

(** C6.  For every run of calls on a builder that returns: the round
    trips of the transport only grow, by at most one per [Send] call of
    the run; a run with no [Send] leaves the transport (and the rest of
    the process-wide state) exactly as it was; and [Build] and [Request]
    always return with the state untouched. *)
Theorem no_round_trip_before_Send (cs : list call)
    (builder builder' : RequestBuilder) (w w' : World) :
  run cs (builder, w) = Ret (builder', w') →
  (∃ sent, roundTrips w' = (roundTrips w ++ sent)%list ∧
           (List.length sent ≤ sends cs)%nat) ∧
  (sends cs = 0%nat → w' = w) ∧
  (∀ b0 w0, ∃ b1 b2, step CallBuild (b0, w0) = Ret (b1, w0) ∧
                     step CallRequest (b0, w0) = Ret (b2, w0)).
Proof.
  intros Hrun.
  split; [| split; [| intros b0 w0; eexists _, _; split; reflexivity]].
  - revert builder w Hrun. induction cs as [| c cs IH]; intros builder w Hrun.
    + injection Hrun as <- <-. exists []. rewrite app_nil_r. simpl.
      by auto with lia.
    + rewrite run_cons in Hrun.
      destruct (step c (builder, w)) as [[b1 w1] | r] eqn:Hstep; [| done].
      simpl in Hrun.
      destruct (step_trips c builder b1 w w1 Hstep) as [(s1 & Hw1 & Hl1) _].
      destruct (IH b1 w1 Hrun) as (s2 & Hw2 & Hl2).
      exists (s1 ++ s2)%list. split.
      * by rewrite Hw2, Hw1, <- app_assoc.
      * unfold sends in *. simpl. rewrite length_app.
        destruct (isSend c); simpl in *; lia.
  - revert builder w Hrun. induction cs as [| c cs IH]; intros builder w Hrun Hs.
    + by injection Hrun as <- <-.
    + rewrite run_cons in Hrun.
      destruct (step c (builder, w)) as [[b1 w1] | r] eqn:Hstep; [| done].
      simpl in Hrun. unfold sends in Hs. simpl in Hs.
      destruct (isSend c) eqn:Hc; [done |].
      destruct (step_trips c builder b1 w w1 Hstep) as [_ Hsame].
      rewrite <- (Hsame Hc). by apply (IH b1 w1).
Qed.

(** A [Send] that completes makes exactly one round trip, with the built
    request as the interceptors left it. *)
Lemma Send_makes_one_round_trip (builder : RequestBuilder) (w : World)
    (req : http_Request) (response : http_Response) :
  out_request (Build builder).1 = Some req →
  out_err (Build builder).1 = None →
  Do (client builder) (roundTrips w)
     (runInterceptors (beforeEachInterceptors w) req) = (Some response, None) →
  ∃ r b' w', Send builder w = Ret (r, b', w') ∧
    roundTrips w' =
    (roundTrips w ++ [runInterceptors (beforeEachInterceptors w) req])%list.
Proof.
  intros Hreq Herr HDo.
  rewrite (Send_completed builder w req response Hreq Herr HDo).
  by eexists _, _, _.
Qed.
End RoundTrips.

Lemma no_round_trip_before_Send_witness :
  let lib := Example.library (Example.replying 200 "ok") in
  let builder := @GET lib Example.tracing "http://foo.com" in
  let cs := [Configure (CallHeader "key1" "value1"); CallBuild; CallRequest;
             Configure (CallQuery "page" (AStrings ["1"; "2"])); CallRequest] in
  ∃ builder',
    @run lib cs (builder, Example.idle) = Ret (builder', Example.idle) ∧
    (∃ sent, roundTrips Example.idle = (roundTrips Example.idle ++ sent)%list ∧
             (List.length sent ≤ sends cs)%nat) ∧
    (sends cs = 0%nat → Example.idle = Example.idle) ∧
    (∀ b0 w0, ∃ b1 b2, @step lib CallBuild (b0, w0) = Ret (b1, w0) ∧
                       @step lib CallRequest (b0, w0) = Ret (b2, w0)).
Proof.
  intros lib builder cs. eexists. split; [reflexivity |].
  eapply (@no_round_trip_before_Send lib cs builder _ Example.idle Example.idle).
  reflexivity.
Defined.

(** ** What the encoder writes can be taken apart again *)

Module SpellingFacts.
Import Json Spelling.

Lemma spelled_safe (b : byte) (t : list byte) :
  htmlSafeSet (byte_value b) = true →
  spelled (b :: t) = spelling [b] (spelled t).
Proof.
  unfold htmlSafeSet. intros Hs.
  apply andb_prop in Hs as [_ Hs]. apply negb_true_iff in Hs.
  repeat (apply orb_false_elim in Hs as [Hs ?]).
  simpl. replace (byte_value b =? 34) with false by done.
  by replace (byte_value b =? 92) with false by done.
Qed.

Lemma spelled_escaped (b : byte) (t : list byte) :
  byte_value b < 0x80 →
  htmlSafeSet (byte_value b) = false →
  spelled (escaped b ++ t) = spelling [b] (spelled t).
Proof.
  intros Hlt Hs. destruct b; try (vm_compute in Hlt; discriminate);
    try (vm_compute in Hs; discriminate); reflexivity.
Qed.

Ltac split_tests :=
  repeat match goal with
         | |- context [if ?c then _ else _] => destruct c eqn:?
         | |- context [match ?l with [] => _ | _ :: _ => _ end] => destruct l
         end.

Lemma first_wide (s0 : Z) :
  0x80 ≤ s0 →
  first s0 = xx ∨
  (first s0 = s1 ∧ 0xC2 ≤ s0 < 0xE0) ∨
  (first s0 = s2 ∧ s0 = 0xE0) ∨
  (first s0 = s3 ∧ 0xE1 ≤ s0 < 0xF0) ∨
  (first s0 = s4 ∧ s0 = 0xED) ∨
  (first s0 = s5 ∧ s0 = 0xF0) ∨
  (first s0 = s6 ∧ 0xF1 ≤ s0 < 0xF4) ∨
  (first s0 = s7 ∧ s0 = 0xF4).
Proof.
  intros Hs0. unfold first.
  replace (s0 <? 128) with false by lia.
  repeat match goal with
         | |- context [if ?c then _ else _] => destruct c eqn:?
         end; try tauto.
  all: repeat first [left; split; [reflexivity | lia] | right].
  all: split; [reflexivity | lia].
Qed.

Ltac code_values :=
  cbv [as_ xx s1 s2 s3 s4 s5 s6 s7];
  repeat match goal with
         | |- context [Z.land (Zpos ?p) 7] =>
             let v := eval vm_compute in (Z.land (Zpos p) 7) in
             change (Z.land (Zpos p) 7) with v
         | |- context [acceptRanges (Z.shiftr (Zpos ?p) 4)] =>
             let v := eval vm_compute in (acceptRanges (Z.shiftr (Zpos p) 4)) in
             change (acceptRanges (Z.shiftr (Zpos p) 4)) with v
         | |- context [Zpos ?p =? Zpos ?q] =>
             let v := eval vm_compute in (Zpos p =? Zpos q) in
             change (Zpos p =? Zpos q) with v
         | |- context [Zpos ?p <=? Zpos ?q] =>
             let v := eval vm_compute in (Zpos p <=? Zpos q) in
             change (Zpos p <=? Zpos q) with v
         end;
  cbn [fst snd].

Lemma DecodeRune_wide (b0 : byte) (rest : list byte) (c : Z) (size : nat) :
  0x80 ≤ byte_value b0 →
  DecodeRuneInString (b0 :: rest) = (c, size) →
  (c =? RuneError) && (size =? 1)%nat = false →
  (1 ≤ size ≤ List.length (b0 :: rest))%nat ∧
  Forall (λ b, 0x80 ≤ byte_value b) (take size (b0 :: rest)).
Proof.
  intros Hb0. unfold DecodeRuneInString, continuation. cbn zeta.
  destruct (first_wide _ Hb0)
    as [-> | [[-> ?] | [[-> ?] | [[-> ?] | [[-> ?] | [[-> ?] | [[-> ?] | [-> ?]]]]]]]];
    code_values.
  all: split_tests.
  all: intros [= <- <-] Hinv.
  all: try discriminate Hinv.
  all: cbn [List.length take firstn]; split; [lia |].
  all: repeat first [apply Forall_nil_2 | apply Forall_cons_2; [lia |]].
Qed.

Lemma byte_value_inj (b b' : byte) : byte_value b = byte_value b' → b = b'.
Proof.
  unfold byte_value. intros Hv. apply N2Z.inj in Hv.
  pose proof (Byte.of_to_N b) as Hb. rewrite Hv, Byte.of_to_N in Hb.
  by injection Hb.
Qed.

Lemma lor_add (q lo k : Z) :
  0 ≤ k → 0 ≤ lo < 2 ^ k → Z.lor (q * 2 ^ k) lo = q * 2 ^ k + lo.
Proof.
  intros Hk Hlo. rewrite <- Z.add_lor_land.
  assert (Hz : Z.land (q * 2 ^ k) lo = 0); [| rewrite Hz; lia].
  apply Z.bits_inj'. intros n Hn. rewrite Z.land_spec, Z.bits_0.
  destruct (Z.lt_ge_cases n k) as [Hlt | Hge].
  - by rewrite Z.mul_pow2_bits_low.
  - destruct (Z.eq_dec lo 0) as [-> | Hne]; [by rewrite Z.bits_0, andb_false_r |].
    rewrite (Z.bits_above_log2 lo n), andb_false_r; [done | lia |].
    apply Z.log2_lt_pow2; [lia |].
    apply Z.lt_le_trans with (2 ^ k); [lia |].
    apply Z.pow_le_mono_r; lia.
Qed.

Lemma low6 (s : Z) : Z.land s 0x3F = s mod 64.
Proof. exact (Z.land_ones s 6 ltac:(lia)). Qed.
Lemma low5 (s : Z) : Z.land s 0x1F = s mod 32.
Proof. exact (Z.land_ones s 5 ltac:(lia)). Qed.
Lemma low4 (s : Z) : Z.land s 0x0F = s mod 16.
Proof. exact (Z.land_ones s 4 ltac:(lia)). Qed.
Lemma low3 (s : Z) : Z.land s 0x07 = s mod 8.
Proof. exact (Z.land_ones s 3 ltac:(lia)). Qed.

Lemma rune2 (a b : Z) :
  Z.lor (Z.shiftl (Z.land a 0x1F) 6) (Z.land b 0x3F) = (a mod 32) * 64 + b mod 64.
Proof.
  rewrite low5, low6, Z.shiftl_mul_pow2 by lia.
  rewrite (lor_add _ _ 6); [lia | lia |].
  apply Z.mod_pos_bound. lia.
Qed.

Lemma rune3 (a b c : Z) :
  Z.lor (Z.lor (Z.shiftl (Z.land a 0x0F) 12) (Z.shiftl (Z.land b 0x3F) 6))
        (Z.land c 0x3F) =
  (a mod 16) * 4096 + (b mod 64) * 64 + c mod 64.
Proof.
  rewrite low4, !low6, !Z.shiftl_mul_pow2 by lia.
  pose proof (Z.mod_pos_bound b 64 ltac:(lia)).
  pose proof (Z.mod_pos_bound c 64 ltac:(lia)).
  rewrite (lor_add _ _ 12) by lia.
  replace (a mod 16 * 2 ^ 12 + b mod 64 * 2 ^ 6)
    with ((a mod 16 * 64 + b mod 64) * 2 ^ 6) by lia.
  rewrite (lor_add _ _ 6) by lia. lia.
Qed.

Lemma rune4 (a b c d : Z) :
  Z.lor (Z.lor (Z.lor (Z.shiftl (Z.land a 0x07) 18) (Z.shiftl (Z.land b 0x3F) 12))
               (Z.shiftl (Z.land c 0x3F) 6))
        (Z.land d 0x3F) =
  (a mod 8) * 262144 + (b mod 64) * 4096 + (c mod 64) * 64 + d mod 64.
Proof.
  rewrite low3, !low6, !Z.shiftl_mul_pow2 by lia.
  pose proof (Z.mod_pos_bound b 64 ltac:(lia)).
  pose proof (Z.mod_pos_bound c 64 ltac:(lia)).
  pose proof (Z.mod_pos_bound d 64 ltac:(lia)).
  rewrite (lor_add _ _ 18) by lia.
  replace (a mod 8 * 2 ^ 18 + b mod 64 * 2 ^ 12)
    with ((a mod 8 * 64 + b mod 64) * 2 ^ 12) by lia.
  rewrite (lor_add _ _ 12) by lia.
  replace ((a mod 8 * 64 + b mod 64) * 2 ^ 12 + c mod 64 * 2 ^ 6)
    with (((a mod 8 * 64 + b mod 64) * 64 + c mod 64) * 2 ^ 6) by lia.
  rewrite (lor_add _ _ 6) by lia. lia.
Qed.

Lemma DecodeRune_separator (b0 : byte) (rest : list byte) (c : Z) (size : nat) :
  0x80 ≤ byte_value b0 →
  DecodeRuneInString (b0 :: rest) = (c, size) →
  c = 0x2028 ∨ c = 0x2029 →
  take size (b0 :: rest) = runeBytes c.
Proof.
  intros Hb0. unfold DecodeRuneInString, continuation. cbn zeta.
  destruct (first_wide _ Hb0)
    as [-> | [[-> ?] | [[-> ?] | [[-> ?] | [[-> ?] | [[-> ?] | [[-> ?] | [-> ?]]]]]]]];
    code_values.
  all: split_tests.
  all: intros Heq Hc; injection Heq as Hv <-.
  all: try (unfold RuneError in Hv; lia).
  all: rewrite ?rune2, ?rune3, ?rune4 in Hv.
  all: try (Z.div_mod_to_equations; lia).
  all: cbn [take firstn].
  all: destruct Hc as [-> | ->].
  all: change (runeBytes 8232) with [xe2; x80; xa8].
  all: change (runeBytes 8233) with [xe2; x80; xa9].
  all: repeat f_equal; apply byte_value_inj; unfold byte_value at 2;
       cbn [Byte.to_N Z.of_N]; Z.div_mod_to_equations; lia.
Qed.

Lemma spelling_app (p q : list byte) (r : option (list byte * list byte)) :
  spelling p (spelling q r) = spelling (p ++ q) r.
Proof. destruct r as [[s tail] |]; [| done]. simpl. by rewrite app_assoc. Qed.

Lemma spelling_nil (r : option (list byte * list byte)) : spelling [] r = r.
Proof. by destruct r as [[s tail] |]. Qed.

Lemma spelled_raw (p t : list byte) :
  Forall (λ b, 0x80 ≤ byte_value b) p →
  spelled (p ++ t) = spelling p (spelled t).
Proof.
  induction 1 as [| b p Hb _ IH]; [by rewrite spelling_nil |].
  change ((b :: p) ++ t)%list with (b :: (p ++ t))%list.
  cbn [spelled].
  replace (byte_value b =? 34) with false by lia.
  replace (byte_value b =? 92) with false by lia.
  by rewrite IH, spelling_app.
Qed.

Lemma spelled_separator (c : Z) (t : list byte) :
  c = 0x2028 ∨ c = 0x2029 →
  spelled (list_byte_of_string "\u202" ++ hex (Z.land c 0xF) ++ t) =
  spelling (runeBytes c) (spelled t).
Proof. by intros [-> | ->]. Qed.

Lemma spelled_written (fuel : nat) (src tail : list byte) :
  (List.length src ≤ fuel)%nat →
  wellFormed fuel src = true →
  spelled (written fuel src ++ quote :: tail) = Some (src, tail).
Proof.
  revert src. induction fuel as [| fuel IH]; intros src Hlen Hwf.
  { destruct src; [done | simpl in Hlen; lia]. }
  destruct src as [| b rest]; [done |].
  cbn [written wellFormed] in *.
  destruct (byte_value b <? 128) eqn:Hb.
  - simpl in Hlen.
    destruct (htmlSafeSet (byte_value b)) eqn:Hs.
    + change (([b] ++ written fuel rest) ++ quote :: tail)%list
        with (b :: (written fuel rest ++ quote :: tail))%list.
      rewrite spelled_safe by done. rewrite IH by (done || lia). done.
    + rewrite <- app_assoc. rewrite spelled_escaped by (done || lia).
      rewrite IH by (done || lia). done.
  - destruct (DecodeRuneInString (take 4 (b :: rest))) as [c size] eqn:Hd.
    apply andb_prop in Hwf as [Hvalid Hwf]. apply negb_true_iff in Hvalid.
    rewrite Hvalid.
    change (take 4 (b :: rest)) with (b :: take 3 rest) in Hd.
    destruct (DecodeRune_wide b (take 3 rest) c size ltac:(lia) Hd Hvalid)
      as [[Hsize Hfour] Hwide].
    assert (Htake : take size (b :: take 3 rest) = take size (b :: rest)).
    { change (b :: take 3 rest) with (take 4 (b :: rest)).
      rewrite take_take. f_equal. simpl in Hfour. rewrite length_take in Hfour. lia. }
    assert (Hrest : (List.length (drop size (b :: rest)) ≤ fuel)%nat).
    { rewrite length_drop. simpl in *. lia. }
    destruct ((c =? 8232) || (c =? 8233)) eqn:Hsep.
    + assert (Hc : c = 0x2028 ∨ c = 0x2029) by lia.
      rewrite <- !app_assoc. rewrite spelled_separator by done.
      rewrite IH by done. simpl.
      rewrite <- (DecodeRune_separator b (take 3 rest) c size ltac:(lia) Hd Hc).
      by rewrite Htake, take_drop.
    + rewrite <- app_assoc. rewrite spelled_raw by (by rewrite <- Htake).
      rewrite IH by done. simpl. by rewrite take_drop.
Qed.

Lemma appendString_spells (s : string) (tail : list byte) :
  ValidString s = true →
  ∃ literal, (appendString s ++ tail)%list = quote :: literal ∧
             spelled literal = Some (list_byte_of_string s, tail).
Proof.
  intros Hv. unfold appendString. eexists. split.
  - rewrite <- app_comm_cons. reflexivity.
  - rewrite <- app_assoc. by apply spelled_written.
Qed.

Lemma appendString_inj (s s' : string) :
  ValidString s = true → ValidString s' = true →
  appendString s = appendString s' → s = s'.
Proof.
  intros Hs Hs' Heq.
  destruct (appendString_spells s [] Hs) as (l & Hl & Hsp).
  destruct (appendString_spells s' [] Hs') as (l' & Hl' & Hsp').
  rewrite Heq, Hl' in Hl. injection Hl as <-.
  rewrite Hsp' in Hsp. injection Hsp as Hb.
  rewrite <- (string_of_list_byte_of_string s), <- (string_of_list_byte_of_string s').
  by rewrite Hb.
Qed.
End SpellingFacts.

Module MarshalFacts.
Import Json Spelling SpellingFacts.
#[local] Arguments appendString : simpl never.

Lemma appendString_prefix_inj (s s' : string) (t t' : list byte) :
  ValidString s = true → ValidString s' = true →
  (appendString s ++ t = appendString s' ++ t')%list → s = s' ∧ t = t'.
Proof.
  intros Hs Hs' Heq.
  destruct (appendString_spells s t Hs) as (l & Hl & Hsp).
  destruct (appendString_spells s' t' Hs') as (l' & Hl' & Hsp').
  rewrite Heq, Hl' in Hl. injection Hl as <-.
  rewrite Hsp' in Hsp. injection Hsp as Hb Ht. split; [| done].
  rewrite <- (string_of_list_byte_of_string s), <- (string_of_list_byte_of_string s').
  by rewrite Hb.
Qed.

Section Joined.
Context {A : Type} (item : A → list byte) (P : A → Prop) (close : byte).
Hypothesis item_inj : ∀ a a' t t',
  P a → P a' → (item a ++ t = item a' ++ t')%list → a = a' ∧ t = t'.
Hypothesis item_quote : ∀ a, ∃ t, item a = quote :: t.
Hypothesis close_quote : close ≠ quote.
Hypothesis close_comma : close ≠ x2c.

Lemma joined_cons (a : A) (l : list A) (t : list byte) :
  (joined (item <$> (a :: l)) ++ t)%list =
  (item a ++ match l with
             | [] => t
             | _ :: _ => x2c :: joined (item <$> l) ++ t
             end)%list.
Proof. destruct l; simpl; [done |]. by rewrite <- !app_assoc. Qed.

Lemma joined_inj (l l' : list A) :
  Forall P l → Forall P l' →
  (joined (item <$> l) ++ [close] = joined (item <$> l') ++ [close])%list →
  l = l'.
Proof.
  intros Hl. revert l'. induction Hl as [| a l Ha Hl IH]; intros l' Hl' Heq.
  - destruct l' as [| a' l']; [done |].
    rewrite joined_cons in Heq. destruct (item_quote a') as [t Ht]. rewrite Ht in Heq.
    simpl in Heq. by injection Heq as Hc _.
  - destruct Hl' as [| a' l' Ha' Hl'].
    + rewrite joined_cons in Heq. destruct (item_quote a) as [t Ht]. rewrite Ht in Heq.
      simpl in Heq. by injection Heq as Hc _.
    + rewrite !joined_cons in Heq.
      apply item_inj in Heq as [-> Heq]; [| done | done]. f_equal.
      destruct l as [| b l], l' as [| b' l'].
      * done.
      * by injection Heq as Hc _.
      * by injection Heq as Hc _.
      * injection Heq as Heq. by apply IH.
Qed.
End Joined.

Lemma pair_inj (kv kv' : string * string) (t t' : list byte) :
  ValidString kv.1 && ValidString kv.2 = true →
  ValidString kv'.1 && ValidString kv'.2 = true →
  ((appendString kv.1 ++ list_byte_of_string ":" ++ appendString kv.2) ++ t =
   (appendString kv'.1 ++ list_byte_of_string ":" ++ appendString kv'.2) ++ t')%list →
  kv = kv' ∧ t = t'.
Proof.
  destruct kv as [k v], kv' as [k' v']. cbn [fst snd].
  intros [Hk Hv]%andb_prop [Hk' Hv']%andb_prop Heq.
  rewrite <- (app_assoc (appendString k)), <- (app_assoc (appendString k')) in Heq.
  apply appendString_prefix_inj in Heq as [-> Heq]; [| done | done].
  rewrite <- !(app_assoc (list_byte_of_string ":")) in Heq.
  apply app_inv_head in Heq.
  apply appendString_prefix_inj in Heq as [-> Heq]; done.
Qed.

Lemma list_byte_of_string_inj (s s' : string) :
  list_byte_of_string s = list_byte_of_string s' → s = s'.
Proof.
  intros Heq.
  rewrite <- (string_of_list_byte_of_string s), <- (string_of_list_byte_of_string s').
  by rewrite Heq.
Qed.

Lemma forallb_Forall {A : Type} (f : A → bool) (l : list A) :
  forallb f l = true → Forall (λ a, f a = true) l.
Proof.
  induction l as [| a l IH]; simpl; [by constructor |].
  intros [Ha Hl]%andb_prop. constructor; [done | by apply IH].
Qed.

(** On values of one type whose strings are UTF-8, [Marshal] is
    injective: equal encodings come from the same value. *)
Lemma Marshal_inj (v v' : any) (body : list byte) :
  ValidUTF8 v = true → ValidUTF8 v' = true → sameType v v' = true →
  Marshal v = inr body → Marshal v' = inr body → sameValue v v'.
Proof.
  intros Hv Hv' Ht Hm Hm'. pose proof Hm' as Hbody. rewrite <- Hm in Hm'.
  clear Hm. rename Hm' into Hm. symmetry in Hm.
  destruct v as [| s | ss | n | b | m | c], v' as [| s' | ss' | n' | b' | m' | c'];
    try discriminate Ht; cbn [Marshal ValidUTF8 sameValue] in *.
  - done.
  - apply (inj inr) in Hm. f_equal. by apply appendString_inj.
  - apply (inj inr) in Hm. apply app_inv_head in Hm. f_equal.
    apply (joined_inj appendString (λ s, ValidString s = true) x5d).
    + intros a a' t t'. apply appendString_prefix_inj.
    + intros a. by eexists.
    + done.
    + done.
    + by apply forallb_Forall.
    + by apply forallb_Forall.
    + exact Hm.
  - apply (inj inr) in Hm. apply list_byte_of_string_inj in Hm.
    f_equal. by apply (inj pretty).
  - by destruct b, b'.
  - apply (inj inr) in Hm. apply app_inv_head in Hm.
    set (R := λ a b : string * string, Is_true (String.leb a.1 b.1)) in *.
    set (item := λ kv : string * string,
           (appendString kv.1 ++ list_byte_of_string ":" ++ appendString kv.2)%list) in *.
    set (P := λ kv : string * string,
           ValidString kv.1 && ValidString kv.2 = true).
    assert (HP : ∀ l, forallb (λ kv : string * string,
                   ValidString kv.1 && ValidString kv.2) l = true →
                 Forall P (merge_sort R l)).
    { intros l Hl. rewrite merge_sort_Permutation. by apply forallb_Forall in Hl. }
    rewrite <- (merge_sort_Permutation R m), <- (merge_sort_Permutation R m').
    assert (Hsorted : merge_sort R m = merge_sort R m'); [| by rewrite Hsorted].
    apply (joined_inj item P x7d).
    + intros a a' t t'. apply pair_inj.
    + intros a. by eexists.
    + done.
    + done.
    + by apply HP.
    + by apply HP.
    + exact Hm.
  - discriminate Hbody.
Qed.
End MarshalFacts.

(** ** JSON payloads *)

Section Payload.
Context `{GoLibrary}.

Lemma JSON_ok (builder : RequestBuilder) (v : any) (out : list byte) :
  err builder = None →
  json_Marshal v = inr out →
  JSON v builder = set_body (Some (bytes_NewBuffer out)) builder.
Proof. intros He Hm. unfold JSON. by rewrite He, Hm. Qed.

Lemma NewRequest_Body (m e : string) (r : option Reader) (req : http_Request) :
  http_NewRequest m e r = inr req → req_Body req = io_NopCloser <$> r.
Proof.
  unfold http_NewRequest. intros Hreq.
  destruct (negb _); [done |].
  destruct (url_Parse e); [done |].
  by injection Hreq as <-.
Qed.

(** [JSON] writes the body or the error, and nothing else. *)
Lemma JSON_leaves_headers (builder : RequestBuilder) (v : any) :
  headers (JSON v builder) = headers builder ∧
  query (JSON v builder) = query builder.
Proof.
  unfold JSON. destruct (err builder); [done |].
  by destruct (json_Marshal v).
Qed.


(** The request built after [POST(...).JSON(v)] has no header at all
    besides the correlation header: no content type is announced. *)
Lemma POST_JSON_headers (ctx : context) (endpoint : string) (v : any)
    (out : list byte) (u : URL) :
  json_Marshal v = inr out →
  url_Parse endpoint = inr u →
  ∃ req,
    (Request (JSON v (POST ctx endpoint))).1 = (Some req, None) ∧
    ∀ key, key ≠ CanonicalMIMEHeaderKey CorrelationIDHeaderKey →
           index (req_Header req) key = [].
Proof.
  intros Hm Hu.
  rewrite (JSON_ok (POST ctx endpoint) v out eq_refl Hm).
  assert (Hreq : http_NewRequest http_MethodPost endpoint (Some (bytes_NewBuffer out)) =
                 inr {| Method := "POST"; req_URL := u; req_Header := ∅;
                        req_Body := Some (io_NopCloser (bytes_NewBuffer out));
                        req_ctx := context_Background |}).
  { unfold http_NewRequest. simpl. by rewrite Hu. }
  destruct (Build_ok (set_body (Some (bytes_NewBuffer out)) (POST ctx endpoint)) _
              eq_refl Hreq) as (req & Hout & _ & _ & _ & _ & Hkey).
  exists req. split; [apply Request_Build; by rewrite Hout |].
  intros key Hne. rewrite Hkey. simpl.
  by rewrite index_empty, bool_decide_eq_false_2.
Qed.

(** The earlier revision of [JSON] does announce the content type. *)
Lemma Earlier_JSON_sets_content_type (builder : RequestBuilder) (v : any)
    (out : list byte) (h : gmap string (list string)) (req : http_Request) :
  err builder = None →
  headers builder = Some h →
  request builder = Some req →
  json_Marshal v = inr out →
  ∃ builder',
    Earlier.JSON v builder = Ret builder' ∧
    index_nilable (headers builder') "content-type" =
      (index h "content-type" ++ ["application/json"])%list.
Proof.
  intros He Hh Hr Hm. unfold Earlier.JSON, Header.
  rewrite He, Hh. simpl. rewrite He, Hm, Hr.
  eexists. split; [reflexivity |]. simpl.
  by rewrite index_insert, bool_decide_eq_true_2.
Qed.
End Payload.



(** C8, on the current [JSON].  The request of the package's own test,
    [POST(ctx, endpoint).JSON(map[string]string{"hello": "world"})], is
    built with the encoded payload as its body and with an empty header
    map: [Header.Get("content-type")] is the empty string. *)
Lemma POST_JSON_request_has_no_content_type :
  let lib := Example.library (Example.replying 200 "ok") in
  let endpoint := "https://api.github.com/users/poorlydefinedbehaviour/repos" in
  let payload := AMapStringString [("hello", "world")] in
  ∃ req rc,
    (@Request lib (@JSON lib payload (@POST lib context_Background endpoint))).1 =
      (Some req, None) ∧
    req_Body req = Some rc ∧
    string_of_list_byte (ioutil_ReadAll rc).1.1 =
      "{" ++ Example.quoted "hello" ++ ":" ++ Example.quoted "world" ++ "}" ∧
    req_Header req = ∅ ∧
    Header_Get (req_Header req) "content-type" = "".
Proof. eexists _, _. repeat split. Qed.

(** ** The query values of [PATCH] and [PUT] builders *)

Section NilQuery.
Context `{GoLibrary}.

Lemma Query_nil_string (builder : RequestBuilder) (key value : string) :
  query builder = None →
  Query key (AString value) builder = Panic nil_map_panic.
Proof. intros Hq. unfold Query. by rewrite Hq. Qed.

Lemma Query_nil_strings (builder : RequestBuilder) (key value : string)
    (rest : list string) :
  query builder = None →
  Query key (AStrings (value :: rest)) builder = Panic nil_map_panic.
Proof. intros Hq. unfold Query. by rewrite Hq. Qed.

(** With nothing to add, [Query] never reaches the map. *)
Lemma Query_no_values (builder : RequestBuilder) (key : string) :
  Query key (AStrings []) builder = Ret (set_query (query builder) builder).
Proof. reflexivity. Qed.

Lemma Build_nil_query (builder : RequestBuilder) (req0 : http_Request) :
  err builder = None →
  query builder = None →
  http_NewRequest (method builder) (endpoint builder) (body builder) = inr req0 →
  ∃ req, (Request builder).1 = (Some req, None) ∧ RawQuery (req_URL req) = "".
Proof.
  intros He Hq Hreq.
  destruct (Build_ok builder req0 He Hreq) as (req & Hout & _ & _ & _ & Hraw & _).
  exists req. split; [apply Request_Build; by rewrite Hout |].
  by rewrite Hraw, Hq.
Qed.

(** C10, as the code has it.  [PATCH] and [PUT] create the builder with a
    nil query map, [GET] and [POST] with an allocated, empty one.  On a
    [PATCH] or [PUT] builder a [Query] call with a string, or with a
    [[]string] holding at least one value, panics on the write to the nil
    map; and when the library accepts the endpoint, building the
    query-free builder succeeds with an empty encoded query. *)
Theorem PATCH_PUT_query_is_nil (ctx : context) (endpoint : string) (u : URL)
    (builder : RequestBuilder) :
  url_Parse endpoint = inr u →
  builder = PATCH ctx endpoint ∨ builder = PUT ctx endpoint →
  query builder = None ∧
  query (GET ctx endpoint) = Some ∅ ∧
  query (POST ctx endpoint) = Some ∅ ∧
  (∀ key value, Query key (AString value) builder = Panic nil_map_panic) ∧
  (∀ key value rest,
     Query key (AStrings (value :: rest)) builder = Panic nil_map_panic) ∧
  ∃ req, (Request builder).1 = (Some req, None) ∧
         out_err (Build builder).1 = None ∧
         RawQuery (req_URL req) = "".
Proof.
  intros Hu Hb.
  assert (Hq : query builder = None) by (by destruct Hb as [-> | ->]).
  assert (He : err builder = None) by (by destruct Hb as [-> | ->]).
  split; [exact Hq |]. split; [done |]. split; [done |].
  split; [intros; by apply Query_nil_string |].
  split; [intros; by apply Query_nil_strings |].
  assert (Hreq : ∃ req0, http_NewRequest (method builder) (Reqwest.endpoint builder)
                           (body builder) = inr req0).
  { destruct Hb as [-> | ->]; unfold http_NewRequest; simpl; rewrite Hu; by eexists. }
  destruct Hreq as [req0 Hreq].
  destruct (Build_ok builder req0 He Hreq) as (req & Hout & _ & _ & _ & Hraw & _).
  exists req. split; [apply Request_Build; by rewrite Hout |].
  split; [by rewrite Hout |]. by rewrite Hraw, Hq.
Qed.
End NilQuery.

Lemma PATCH_PUT_query_is_nil_witness :
  let lib := Example.library (Example.replying 200 "ok") in
  let endpoint := "http://localhost:5000/users/" in
  let u := {| Location := endpoint; RawQuery := "" |} in
  let builder := @PATCH lib context_Background endpoint in
  (@url_Parse lib endpoint = inr u ∧
   (builder = @PATCH lib context_Background endpoint ∨
    builder = @PUT lib context_Background endpoint)) ∧
  query builder = None ∧
  query (@GET lib context_Background endpoint) = Some ∅ ∧
  query (@POST lib context_Background endpoint) = Some ∅ ∧
  (∀ key value, Query key (AString value) builder = Panic nil_map_panic) ∧
  (∀ key value rest,
     Query key (AStrings (value :: rest)) builder = Panic nil_map_panic) ∧
  ∃ req, (@Request lib builder).1 = (Some req, None) ∧
         out_err (@Build lib builder).1 = None ∧
         RawQuery (req_URL req) = "".
Proof.
  intros lib endpoint u builder.
  split; [split; [reflexivity | left; reflexivity] |].
  apply (@PATCH_PUT_query_is_nil lib context_Background endpoint u builder);
    [reflexivity | left; reflexivity].
Defined.

(** Not every [Query] call with a [[]string] value panics on a [PATCH] or
    [PUT] builder: with an empty slice the call returns the builder as it
    was. *)
Lemma Query_empty_slice_on_PATCH_returns :
  let lib := Example.library (Example.replying 200 "ok") in
  let patch := @PATCH lib context_Background "http://localhost:5000/users/" in
  let put := @PUT lib context_Background "http://localhost:5000/users/" in
  query patch = None ∧
  Query "key" (AStrings []) patch = Ret patch ∧
  ¬ panics (Query "key" (AStrings []) patch) ∧
  query put = None ∧
  Query "key" (AStrings []) put = Ret put.
Proof.
  intros lib patch put. repeat split.
  intros [r Hr]. discriminate.
Qed.

(** * Properties of the logger *)

Lemma append_empty (s : string) : s ++ "" = s.
Proof.
  induction s as [| c s IH]; [done |].
  change (String c s ++ "") with (String c (s ++ "")). by f_equal.
Qed.

Lemma Sprintf_trace (now elapsed : Z) (message : string) :
  Sprintf "[END - %d(%dms)] %s" [fmt_int now; fmt_int elapsed; fmt_string message] =
  "[END - " ++ pretty now ++ "(" ++ pretty elapsed ++ "ms)] " ++ message.
Proof. cbn. by rewrite append_empty. Qed.

(** C9, the first half as the code has it.  The line [Trace] emits at call
    time, after the [trace_start] handlers ran, is formatted with the end
    marker: its message is "[END - now(elapsed ms)] message", where [now]
    and [elapsed] come from the two clock readings that follow the reading
    of the start time. *)
Theorem Trace_start_line_carries_END_marker (log : Logger.logger)
    (message site : string) (w : Logger.World) :
  let w0 := Logger.callBeforeEachHandlers log Logger.TraceStart message w in
  let started := Logger.clock w0 (Logger.ticks w0) in
  let now := Logger.clock w0 (S (Logger.ticks w0)) in
  let elapsed := Logger.clock w0 (S (S (Logger.ticks w0))) - started in
  ∃ line,
    Logger.output (Logger.Trace log message site w).2 =
      (Logger.output w0 ++ [line])%list ∧
    Logger.msg line =
      "[END - " ++ pretty (Logger.UnixMilli now) ++ "(" ++
      pretty (Logger.Milliseconds elapsed) ++ "ms)] " ++ message ∧
    Logger.correlation_id line = Logger.prefix log ∧
    Logger.start (Logger.Trace log message site w).1 = started.
Proof.
  intros w0 started now elapsed. unfold Logger.Trace. fold w0.
  eexists. split; [reflexivity |].
  cbn [Logger.msg Logger.zerolog_Info Logger.output Logger.time_Now Logger.clock
       Logger.ticks Logger.correlation_id].
  rewrite !Sprintf_trace. repeat split.
Qed.

(** The second half: the closure emits, after the [trace_end] handlers ran,
    a line with the same marker that carries the time elapsed since the
    start reading taken by [Trace]. *)
Lemma Tracer_line_carries_elapsed_time (t : Logger.Tracer) (log : Logger.logger)
    (site : string) (w : Logger.World) :
  let w0 := Logger.callBeforeEachHandlers log Logger.TraceEnd (Logger.message t) w in
  let now := Logger.clock w0 (Logger.ticks w0) in
  let elapsed := Logger.clock w0 (S (Logger.ticks w0)) - Logger.start t in
  ∃ line,
    Logger.output (Logger.invoke t log site w) = (Logger.output w0 ++ [line])%list ∧
    Logger.msg line =
      "[END - " ++ pretty (Logger.UnixMilli now) ++ "(" ++
      pretty (Logger.Milliseconds elapsed) ++ "ms)] " ++ Logger.message t.
Proof.
  intros w0 now elapsed. unfold Logger.invoke. fold w0.
  eexists. split; [reflexivity |].
  cbn [Logger.msg Logger.zerolog_Info Logger.output Logger.time_Now Logger.clock
       Logger.ticks].
  by rewrite Sprintf_trace.
Qed.

(** One traced call on a fresh logger: both lines open with the end
    marker. *)
Example Trace_then_closure :
  let '(t, w) := Logger.Trace Logger.New "GET /users" "main.main" Example.ticking in
  Logger.msg <$> Logger.output (Logger.invoke t Logger.New "main.main" w) =
  ["[END - 1700000000125(250ms)] GET /users";
   "[END - 1700000000375(500ms)] GET /users"].
Proof. vm_compute. reflexivity. Qed.

(** * The package's tests, run on the model *)

Section Tests.
#[local] Existing Instance Example.standard.

(** [Test_PureRequestBuilder_Header] *)
Example test_Header :
  ∃ req,
    (b ← chain [CallHeader "key1" "value1"; CallHeader "key2" "value2";
                 CallHeader "key3" "VALUE3"] (GET context_Background Example.repos);
     Ret (Request b).1) = Ret (Some req, None) ∧
    req_Header req =
      <["key1" := ["value1"]]> (<["key2" := ["value2"]]> (<["key3" := ["VALUE3"]]> ∅)).
Proof. eexists. split; [reflexivity |]. by vm_compute. Qed.

(** [Test_PureRequestBuilder_Query] *)
Example test_Query :
  ∃ req,
    (b ← chain [CallQuery "key1" (AString "value1");
                 CallQuery "key2" (AStrings ["value1"; "value2"])]
           (GET context_Background Example.repos);
     Ret (Request b).1) = Ret (Some req, None) ∧
    RawQuery (req_URL req) = "key1=value1&key2=value1&key2=value2" ∧
    RawQuery (req_URL req) =
      Values_Encode
        (Some (<["key1" := ["value1"]]> (<["key2" := ["value1"; "value2"]]> ∅))).
Proof. eexists. split; [reflexivity |]. by vm_compute. Qed.

(** [Test_PureRequestBuilder_Body] *)
Example test_Body :
  ∃ req rc,
    (Request (Body (Some (strings_NewReader "hello world"))
                (POST context_Background Example.repos))).1 = (Some req, None) ∧
    req_Body req = Some rc ∧
    string_of_list_byte (ioutil_ReadAll rc).1.1 = "hello world".
Proof. eexists _, _. repeat split. Qed.

(** [Test_ResponseBuilder_Build]: the correlation id of the context. *)
Example test_correlation_id :
  ∃ req,
    (Request (GET Example.tracing Example.repos)).1 = (Some req, None) ∧
    Header_Get (req_Header req) CorrelationIDHeaderKey = Example.requestID.
Proof. eexists. split; [reflexivity |]. by vm_compute. Qed.

(** [Test_ResponseBuilder_Request]: the error of the builder is returned. *)
Example test_Request_error :
  ∃ e,
    (Request (set_err (Some Example.someError) (GET context_Background Example.repos))).1 =
      (None, Some e) ∧
    errors_Is e Example.someError = true.
Proof. eexists. split; [reflexivity |]. by vm_compute. Qed.

(** [Test_BeforeEach]: no interceptor runs when the builder carries an
    error, and none of the transport. *)
Example test_BeforeEach_error (w : World) :
  ∃ r, Send (set_err (Some Example.someError) (GET context_Background Example.repos)) w =
       Ret (r, set_err (Some Example.someError) (GET context_Background Example.repos), w).
Proof. by eexists. Qed.

(** [Test_Response_Bytes] and [Test_Response_Text] *)
Example test_Response_Text :
  ∃ resp b w,
    Send (GET context_Background Example.repos) Example.idle = Ret ((resp, None), b, w) ∧
    Text resp = "hello world" ∧
    Bytes resp = list_byte_of_string "hello world" ∧
    roundTrips w = [Example.plain Example.repos].
Proof. eexists _, _, _. split; [reflexivity |]. by vm_compute. Qed.
End Tests.

(** * Further properties of the request builder *)

(** ** Query values and their encoding *)

#[local] Instance leb_total_relation : Total (λ a b : string, Is_true (String.leb a b)).
Proof.
  intros a b. destruct (String.leb_total a b) as [Hab | Hba];
    [left | right]; by apply Is_true_true.
Qed.

Section QueryFacts.
Context `{GoLibrary}.

Lemma Values_AddEach_insert (key : string) (value : list string)
    (q : gmap string (list string)) :
  Values_AddEach key value (Some q) =
  Ret (Some (match value with
             | [] => q
             | _ :: _ => <[key := (index q key ++ value)%list]> q
             end)).
Proof.
  revert q. induction value as [| v rest IH]; intros q; [done |].
  simpl. rewrite IH. do 2 f_equal. destruct rest as [| v' rest]; [done |].
  rewrite index_insert, bool_decide_eq_true_2 by done.
  by rewrite insert_insert_eq, <- app_assoc.
Qed.

Lemma set_query_same (builder : RequestBuilder) :
  set_query (query builder) builder = builder.
Proof. by destruct builder. Qed.

(** [Query] appends to the values of its key, in the order given, and
    touches no other key and no other field: one value for a string, every
    element for a slice, nothing for a value of another type. *)
Theorem Query_accumulates (builder : RequestBuilder) (key : string) (value : any)
    (q : gmap string (list string)) :
  query builder = Some q →
  ∃ q',
    Query key value builder = Ret (set_query (Some q') builder) ∧
    ∀ k, index q' k =
         (index q k ++ if bool_decide (k = key) then queryValues value else [])%list.
Proof.
  intros Hq.
  assert (Hsame : ∃ q', Ret builder = Ret (set_query (Some q') builder) ∧
            ∀ k, index q' k = (index q k ++ if bool_decide (k = key) then [] else [])%list).
  { exists q. split; [by rewrite <- Hq, set_query_same |].
    intros k. case_bool_decide; by rewrite app_nil_r. }
  destruct value as [| s | ss | | | |]; try exact Hsame; unfold Query; rewrite Hq.
  - eexists. split; [reflexivity |]. intros k. rewrite index_insert.
    case_bool_decide; subst; [done | by rewrite app_nil_r].
  - rewrite Values_AddEach_insert. eexists. split; [reflexivity |].
    intros k. destruct ss as [| v rest]; simpl.
    + case_bool_decide; by rewrite app_nil_r.
    + rewrite index_insert. case_bool_decide; subst; [done | by rewrite app_nil_r].
Qed.

Lemma sorted_keys_elem (m : gmap string (list string)) (k : string) :
  k ∈ sorted_keys m ↔ is_Some (m !! k).
Proof.
  unfold sorted_keys. rewrite merge_sort_Permutation, list_elem_of_fmap. split.
  - intros ([k' vs] & -> & Hin). apply elem_of_map_to_list in Hin. by eexists.
  - intros [vs Hvs]. exists (k, vs). split; [done |]. by apply elem_of_map_to_list.
Qed.

(** [Values.Encode] writes the pairs key by key: every key of the map
    exactly once, in ascending byte order, and under a key its values in
    the order they were added. *)
Theorem Values_Encode_by_sorted_key (m : gmap string (list string)) :
  ∃ keys,
    Values_Encode (Some m) =
      String.concat "&" (flat_map (λ k, encodedPairs k (index m k)) keys) ∧
    Sorted (λ a b : string, Is_true (String.leb a b)) keys ∧
    NoDup keys ∧
    ∀ k, k ∈ keys ↔ is_Some (m !! k).
Proof.
  exists (sorted_keys m). split; [reflexivity |].
  split; [apply Sorted_merge_sort, _ |].
  split; [| apply sorted_keys_elem].
  unfold sorted_keys. rewrite merge_sort_Permutation. apply NoDup_fst_map_to_list.
Qed.

Lemma Values_Encode_empty (q : option (gmap string (list string))) :
  len q = 0%nat → Values_Encode q = "".
Proof.
  destruct q as [m |]; [| done]. simpl. intros Hm.
  apply map_size_empty_iff in Hm. subst. unfold sorted_keys.
  by rewrite map_to_list_empty.
Qed.

Lemma Values_Encode_singleton (key : string) (values : list string) :
  Values_Encode (Some {[key := values]}) = String.concat "&" (encodedPairs key values).
Proof.
  unfold Values_Encode, sorted_keys. rewrite map_to_list_singleton. simpl.
  unfold index. rewrite lookup_singleton_eq. simpl. by rewrite app_nil_r.
Qed.

(** The URL of the request [Build] makes. *)
Lemma Build_request_URL (builder : RequestBuilder) (req0 req : http_Request) :
  err builder = None →
  http_NewRequest (method builder) (Reqwest.endpoint builder) (body builder) = inr req0 →
  out_request (Build builder).1 = Some req →
  req_URL req = {| Location := Location (req_URL req0);
                   RawQuery := Values_Encode (query builder) |}.
Proof.
  intros He Hreq. unfold Build. rewrite He, Hreq. simpl.
  intros Hout. by injection Hout as <-.
Qed.

(** One [Query] call on a builder with no query values yet: the built
    request's raw query is the pairs [key=value] of the call, escaped, in
    the order given and joined by [&]. *)
Theorem Query_encoded_in_order (builder : RequestBuilder) (key : string) (value : any)
    (req0 : http_Request) :
  err builder = None →
  query builder = Some ∅ →
  http_NewRequest (method builder) (Reqwest.endpoint builder) (body builder) = inr req0 →
  ∃ builder' req,
    Query key value builder = Ret builder' ∧
    (Request builder').1 = (Some req, None) ∧
    RawQuery (req_URL req) = String.concat "&" (encodedPairs key (queryValues value)).
Proof.
  intros He Hq Hreq.
  assert (Hb : ∃ q', Query key value builder = Ret (set_query (Some q') builder) ∧
                     Values_Encode (Some q') =
                     String.concat "&" (encodedPairs key (queryValues value))).
  { assert (Hsame : ∃ q', Ret builder = Ret (set_query (Some q') builder) ∧
                          Values_Encode (Some q') = "").
    { exists ∅. split; [by rewrite <- Hq, set_query_same | by apply Values_Encode_empty]. }
    destruct value as [| s | ss | | | |]; try exact Hsame; unfold Query; rewrite Hq.
    - eexists. split; [reflexivity |]. rewrite index_empty, insert_empty.
      apply Values_Encode_singleton.
    - rewrite Values_AddEach_insert. eexists. split; [reflexivity |].
      destruct ss as [| v rest]; [by apply Values_Encode_empty |].
      rewrite index_empty, insert_empty. apply Values_Encode_singleton. }
  destruct Hb as (q' & HQ & Henc).
  destruct (Build_ok (set_query (Some q') builder) req0 He Hreq)
    as (req & Hout & _ & _ & _ & Hraw & _).
  exists (set_query (Some q') builder), req. split; [exact HQ |].
  split; [apply Request_Build; by rewrite Hout |]. by rewrite Hraw.
Qed.

(** [Build] keeps the location the library parsed from the endpoint and
    replaces its query: the raw query of the built request is the encoding
    of the builder's query values, whatever query string the endpoint
    carried, and is empty when the builder holds no query value. *)
Theorem Build_replaces_endpoint_query (builder : RequestBuilder) (req0 : http_Request) :
  err builder = None →
  http_NewRequest (method builder) (Reqwest.endpoint builder) (body builder) = inr req0 →
  ∃ req,
    (Request builder).1 = (Some req, None) ∧
    Location (req_URL req) = Location (req_URL req0) ∧
    RawQuery (req_URL req) = Values_Encode (query builder) ∧
    (len (query builder) = 0%nat → RawQuery (req_URL req) = "").
Proof.
  intros He Hreq.
  destruct (Build_ok builder req0 He Hreq) as (req & Hout & _).
  assert (Hr : out_request (Build builder).1 = Some req) by by rewrite Hout.
  exists req. split; [apply Request_Build; by rewrite Hout |].
  rewrite (Build_request_URL builder req0 req He Hreq Hr). simpl.
  split; [done |]. split; [done |]. apply Values_Encode_empty.
Qed.
End QueryFacts.

Lemma Query_accumulates_witness :
  let builder := set_query (Some {["page" := ["1"]]})
                   (@GET Example.standard context_Background Example.repos) in
  query builder = Some {["page" := ["1"]]} ∧
  ∃ q',
    Query "page" (AStrings ["2"; "3"]) builder = Ret (set_query (Some q') builder) ∧
    ∀ k, index q' k =
         (index {["page" := ["1"]]} k ++
          if bool_decide (k = "page") then queryValues (AStrings ["2"; "3"]) else [])%list.
Proof.
  intros builder. split; [reflexivity |].
  apply (Query_accumulates builder "page" (AStrings ["2"; "3"]) {["page" := ["1"]]}).
  reflexivity.
Defined.

Lemma Query_encoded_in_order_witness :
  let lib := Example.standard in
  let builder := @GET lib context_Background Example.repos in
  (err builder = None ∧ query builder = Some ∅ ∧
   @http_NewRequest lib (method builder) (Reqwest.endpoint builder) (body builder) =
     inr (Example.plain Example.repos)) ∧
  ∃ builder' req,
    Query "key2" (AStrings ["value1"; "value2"]) builder = Ret builder' ∧
    (@Request lib builder').1 = (Some req, None) ∧
    RawQuery (req_URL req) =
      String.concat "&"
        (@encodedPairs lib "key2" (queryValues (AStrings ["value1"; "value2"]))).
Proof.
  intros lib builder. split; [repeat split |].
  apply (@Query_encoded_in_order lib builder "key2" (AStrings ["value1"; "value2"])
           (Example.plain Example.repos)); reflexivity.
Defined.

Lemma Build_replaces_endpoint_query_witness :
  let lib := Example.splitting (Example.replying 200 "ok") in
  let builder := @GET lib context_Background "http://foo.com/search?q=go" in
  let req0 := {| Method := "GET";
                 req_URL := {| Location := "http://foo.com/search"; RawQuery := "q=go" |};
                 req_Header := ∅; req_Body := None; req_ctx := context_Background |} in
  (err builder = None ∧
   @http_NewRequest lib (method builder) (Reqwest.endpoint builder) (body builder) =
     inr req0) ∧
  ∃ req,
    (@Request lib builder).1 = (Some req, None) ∧
    Location (req_URL req) = Location (req_URL req0) ∧
    RawQuery (req_URL req) = @Values_Encode lib (query builder) ∧
    (len (query builder) = 0%nat → RawQuery (req_URL req) = "").
Proof.
  intros lib builder req0. split; [repeat split |].
  apply (@Build_replaces_endpoint_query lib builder req0); reflexivity.
Defined.

(** ** What [Request] and [Send] return *)

Lemma errors_Is_WithStack_New (e : error) (m : string) :
  errors_Is (WithStack e) (errors_New m) = errors_Is e (errors_New m).
Proof.
  change (errors_Is (WithStack e) (errors_New m))
    with (bool_decide (WithStack e = errors_New m) || errors_Is e (errors_New m)).
  by rewrite bool_decide_eq_false_2.
Qed.

Section Outcomes.
Context `{GoLibrary}.

(** [Request] returns a request or an error, never both and never
    neither: a request exactly when the builder carries no error and the
    library accepts method and endpoint; otherwise an error that wraps the
    recorded error, or else the library's. *)
Theorem Request_returns_request_or_error (builder : RequestBuilder) :
  match err builder,
        http_NewRequest (method builder) (Reqwest.endpoint builder) (body builder) with
  | Some e, _ =>
      (Request builder).1 = (None, Some (WithStack (WithStack e)))
  | None, inl e =>
      (Request builder).1 = (None, Some (WithStack (WithStack e)))
  | None, inr _ =>
      ∃ req, (Request builder).1 = (Some req, None)
  end.
Proof.
  destruct (err builder) as [e |] eqn:He.
  - unfold Request. by rewrite (Build_err builder e He).
  - destruct (http_NewRequest _ _ _) as [e | req0] eqn:Hreq.
    + unfold Request, Build. by rewrite He, Hreq.
    + destruct (Build_ok builder req0 He Hreq) as (req & Hout & _).
      exists req. apply Request_Build; by rewrite Hout.
Qed.

(** When the request cannot be built because the library rejects method
    or endpoint, [Send] makes no round trip: it returns the zero response
    and the library's error, wrapped, and leaves builder and process state
    as they were. *)
Theorem Send_rejected_endpoint (builder : RequestBuilder) (w : World) (e : error) :
  err builder = None →
  http_NewRequest (method builder) (Reqwest.endpoint builder) (body builder) = inl e →
  Send builder w = Ret ((zeroResponse, Some (WithStack (WithStack e))), builder, w) ∧
  Is (Some (WithStack (WithStack e))) e = true.
Proof.
  intros He Hreq. split.
  - unfold Send, Build. by rewrite He, Hreq.
  - simpl. do 2 apply errors_Is_WithStack. apply errors_Is_refl.
Qed.

(** When the transport fails, [Send] has made one round trip and returns
    the transport's error, wrapped, with whatever response came with it
    and no body bytes; the status policy is not applied, so the error is an
    [ErrUnexpectedResponseStatus] only if the transport's own error is.
    Nothing is said of the builder afterwards: the request's header map is
    the builder's own when the builder holds headers, so an interceptor
    that adds a header writes to the builder too. *)
Theorem Send_transport_error (builder : RequestBuilder) (w : World)
    (req : http_Request) (response : option http_Response) (e : error) :
  out_request (Build builder).1 = Some req →
  out_err (Build builder).1 = None →
  Do (client builder) (roundTrips w)
     (runInterceptors (beforeEachInterceptors w) req) = (response, Some e) →
  ∃ builder' w',
    Send builder w =
      Ret (({| Response_ := response; Body_ := [] |},
            Some (WithStack (WithStack e))), builder', w') ∧
    roundTrips w' =
      (roundTrips w ++ [runInterceptors (beforeEachInterceptors w) req])%list ∧
    errors_Is (WithStack (WithStack e)) e = true ∧
    errors_Is (WithStack (WithStack e)) ErrUnexpectedResponseStatus =
      errors_Is e ErrUnexpectedResponseStatus.
Proof.
  intros Hreq Herr HDo. exists (Build builder).2. eexists. split.
  - unfold Send. pose proof (Build_client builder) as Hcl.
    destruct (Build builder) as [out b']. simpl in *.
    unfold makeRequest. rewrite Herr, Hreq, Hcl, HDo. reflexivity.
  - split; [reflexivity |].
    split; [do 2 apply errors_Is_WithStack; apply errors_Is_refl |].
    unfold ErrUnexpectedResponseStatus. by rewrite !errors_Is_WithStack_New.
Qed.

(** On a status code in 200..299, [Send] returns no error and the response
    with the transport's status and headers, its stream read to the end
    and closed, and every byte the stream delivered in [Body]; a read error
    of the stream is dropped. *)
Theorem Send_success (builder : RequestBuilder) (w : World)
    (req : http_Request) (response : http_Response) :
  out_request (Build builder).1 = Some req →
  out_err (Build builder).1 = None →
  Do (client builder) (roundTrips w)
     (runInterceptors (beforeEachInterceptors w) req) = (Some response, None) →
  in_200_299 (StatusCode response) →
  ∃ resp raw builder' w',
    Send builder w = Ret ((resp, None), builder', w') ∧
    Response_ resp = Some raw ∧
    StatusCode raw = StatusCode response ∧
    resp_Header raw = resp_Header response ∧
    drained (resp_Body raw) ∧
    closed (resp_Body raw) = true ∧
    failure (stream (resp_Body raw)) = failure (stream (resp_Body response)) ∧
    Bytes resp = unread (stream (resp_Body response)).
Proof.
  intros Hreq Herr HDo Hstatus.
  rewrite (Send_completed builder w req response Hreq Herr HDo).
  assert (Hs : unexpectedStatus (StatusCode response) = false).
  { destruct (unexpectedStatus (StatusCode response)) eqn:Hu; [| done].
    by apply unexpectedStatus_spec in Hu. }
  rewrite Hs. eexists _, _, _, _. repeat split.
Qed.
End Outcomes.

Lemma Send_rejected_endpoint_witness :
  let lib := Example.standard in
  let builder := @GET lib context_Background "localhost:5000/users" in
  let e := LibraryError "net/url" "missing protocol scheme" in
  (err builder = None ∧
   @http_NewRequest lib (method builder) (Reqwest.endpoint builder) (body builder) =
     inl e) ∧
  @Send lib builder Example.idle =
    Ret ((zeroResponse, Some (WithStack (WithStack e))), builder, Example.idle) ∧
  Is (Some (WithStack (WithStack e))) e = true.
Proof.
  intros lib builder e. split; [repeat split |].
  apply (@Send_rejected_endpoint lib builder Example.idle e); reflexivity.
Defined.

Lemma Send_transport_error_witness :
  let lib := Example.library (Example.failing Example.refused) in
  let builder := @GET lib context_Background Example.repos in
  let req := Example.plain Example.repos in
  (out_request (@Build lib builder).1 = Some req ∧
   out_err (@Build lib builder).1 = None ∧
   Do (client builder) (roundTrips Example.idle)
      (runInterceptors (beforeEachInterceptors Example.idle) req) =
     (None, Some Example.refused)) ∧
  ∃ builder' w',
    @Send lib builder Example.idle =
      Ret (({| Response_ := None; Body_ := [] |},
            Some (WithStack (WithStack Example.refused))),
           builder', w') ∧
    roundTrips w' =
      (roundTrips Example.idle ++
       [runInterceptors (beforeEachInterceptors Example.idle) req])%list ∧
    errors_Is (WithStack (WithStack Example.refused)) Example.refused = true ∧
    errors_Is (WithStack (WithStack Example.refused)) ErrUnexpectedResponseStatus =
      errors_Is Example.refused ErrUnexpectedResponseStatus.
Proof.
  intros lib builder req. split; [repeat split |].
  apply (@Send_transport_error lib builder Example.idle req None Example.refused);
    reflexivity.
Defined.

Lemma Send_success_witness :
  let lib := Example.library (Example.replying 204 "") in
  let builder := @GET lib context_Background Example.repos in
  let req := Example.plain Example.repos in
  let response := Example.reply 204 "" in
  (out_request (@Build lib builder).1 = Some req ∧
   out_err (@Build lib builder).1 = None ∧
   Do (client builder) (roundTrips Example.idle)
      (runInterceptors (beforeEachInterceptors Example.idle) req) =
     (Some response, None) ∧
   in_200_299 (StatusCode response)) ∧
  ∃ resp raw builder' w',
    @Send lib builder Example.idle = Ret ((resp, None), builder', w') ∧
    Response_ resp = Some raw ∧
    StatusCode raw = StatusCode response ∧
    resp_Header raw = resp_Header response ∧
    drained (resp_Body raw) ∧
    closed (resp_Body raw) = true ∧
    failure (stream (resp_Body raw)) = failure (stream (resp_Body response)) ∧
    Bytes resp = unread (stream (resp_Body response)).
Proof.
  intros lib builder req response.
  assert (Hin : in_200_299 (StatusCode response)).
  { unfold in_200_299. simpl. lia. }
  split; [repeat split; apply Hin |].
  apply (@Send_success lib builder Example.idle req response);
    [reflexivity | reflexivity | reflexivity | exact Hin].
Defined.

(** ** Header keys *)

Section HeaderKeys.
Context `{GoLibrary}.

(** [Header] stores the value under the key exactly as given, while
    [Header.Get] looks a key up in canonical form.  On a builder that holds
    nothing under the canonical form of the key and whose context carries
    no correlation id, the request built after [Header key value] lists
    the value under [key], after the values held there, and
    [Header.Get key] finds it only if [key] is already canonical: for any
    other spelling it returns the empty string. *)
Theorem Header_key_is_kept_verbatim (builder : RequestBuilder) (key value : string)
    (h : gmap string (list string)) (req0 : http_Request) :
  err builder = None →
  headers builder = Some h →
  http_NewRequest (method builder) (Reqwest.endpoint builder) (body builder) = inr req0 →
  index h (CanonicalMIMEHeaderKey key) = [] →
  correlation (ctx builder) = [] →
  ∃ builder' req,
    Header key value builder = Ret builder' ∧
    (Request builder').1 = (Some req, None) ∧
    index (req_Header req) key = (index h key ++ [value])%list ∧
    Header_Get (req_Header req) key =
      if bool_decide (CanonicalMIMEHeaderKey key = key) then value else "".
Proof.
  intros He Hh Hreq Hcanon Hcorr. unfold Header. rewrite Hh.
  set (h' := <[key := (index h key ++ [value])%list]> h).
  destruct (Build_ok (set_headers (Some h') builder) req0 He Hreq)
    as (req & Hout & _ & _ & _ & _ & Hkey).
  exists (set_headers (Some h') builder), req. split; [done |].
  split; [apply Request_Build; by rewrite Hout |].
  simpl in Hkey. rewrite Hcorr in Hkey.
  assert (Hidx : ∀ k, index (req_Header req) k = index h' k).
  { intros k. rewrite Hkey. case_bool_decide; by rewrite app_nil_r. }
  unfold Header_Get. rewrite !Hidx. unfold h'. rewrite !index_insert.
  rewrite bool_decide_eq_true_2 by done.
  split; [done |].
  case_bool_decide as Hc.
  - rewrite Hc in Hcanon. by rewrite Hcanon.
  - by rewrite Hcanon.
Qed.

(** [Build] hands the builder's own header map to the request when the
    map is not empty, and adds the correlation id through it: the builder
    comes out of [Build] with the id in its map, and a second [Request]
    lists the id twice.  With an empty map the request gets a map of its
    own and the builder is left as it was. *)
Theorem Build_shares_header_map (builder : RequestBuilder) (correlationID : string)
    (req0 : http_Request) :
  err builder = None →
  http_NewRequest (method builder) (Reqwest.endpoint builder) (body builder) = inr req0 →
  ctx_Value (ctx builder) CorrelationIDContextKey = AString correlationID →
  (len (headers builder) = 0%nat → (Build builder).2 = builder) ∧
  (∀ h, headers builder = Some h → (0 < size h)%nat →
     (Build builder).2 =
       set_headers (Some (Header_Add CorrelationIDHeaderKey correlationID h)) builder ∧
     ∃ req,
       (Request (Request builder).2).1 = (Some req, None) ∧
       index (req_Header req) "X-Correlation-Id" =
         (index h "X-Correlation-Id" ++ [correlationID; correlationID])%list).
Proof.
  intros He Hreq Hctx. split.
  - intros Hlen. unfold Build. rewrite He, Hreq. simpl.
    by rewrite bool_decide_eq_false_2 by lia.
  - intros h Hh Hsize.
    assert (Hb : (Build builder).2 =
                 set_headers (Some (Header_Add CorrelationIDHeaderKey correlationID h))
                   builder).
    { unfold Build. rewrite He, Hreq, Hctx, Hh. simpl.
      by rewrite bool_decide_eq_true_2 by lia. }
    split; [exact Hb |].
    assert (Hr : (Request builder).2 = (Build builder).2).
    { unfold Request. destruct (Build builder) as [out b']. simpl.
      by destruct (out_err out). }
    rewrite Hr, Hb.
    set (b1 := set_headers (Some (Header_Add CorrelationIDHeaderKey correlationID h))
                 builder).
    destruct (Build_ok b1 req0 He Hreq) as (req & Hout & _ & _ & _ & _ & Hkey).
    exists req. split; [apply Request_Build; by rewrite Hout |].
    rewrite (Hkey "X-Correlation-Id").
    change (index_nilable (headers b1) "X-Correlation-Id")
      with (index (Header_Add CorrelationIDHeaderKey correlationID h) "X-Correlation-Id").
    change (ctx b1) with (ctx builder).
    rewrite index_Header_Add.
    change (CanonicalMIMEHeaderKey CorrelationIDHeaderKey) with "X-Correlation-Id".
    rewrite bool_decide_eq_true_2 by reflexivity.
    unfold correlation. rewrite Hctx. by rewrite <- app_assoc.
Qed.
End HeaderKeys.

Lemma Header_key_is_kept_verbatim_witness :
  let lib := Example.standard in
  let builder := @GET lib context_Background Example.repos in
  (err builder = None ∧ headers builder = Some ∅ ∧
   @http_NewRequest lib (method builder) (Reqwest.endpoint builder) (body builder) =
     inr (Example.plain Example.repos) ∧
   index ∅ (CanonicalMIMEHeaderKey "content-type") = [] ∧
   correlation (ctx builder) = []) ∧
  ∃ builder' req,
    Header "content-type" "text/plain" builder = Ret builder' ∧
    (@Request lib builder').1 = (Some req, None) ∧
    index (req_Header req) "content-type" =
      (index ∅ "content-type" ++ ["text/plain"])%list ∧
    Header_Get (req_Header req) "content-type" =
      if bool_decide (CanonicalMIMEHeaderKey "content-type" = "content-type")
      then "text/plain" else "".
Proof.
  intros lib builder. split; [repeat split |].
  apply (@Header_key_is_kept_verbatim lib builder "content-type" "text/plain" ∅
           (Example.plain Example.repos)); reflexivity.
Defined.

Lemma Build_shares_header_map_witness :
  let lib := Example.standard in
  let builder := set_headers (Some {["key1" := ["value1"]]})
                   (@GET lib Example.tracing Example.repos) in
  (err builder = None ∧
   @http_NewRequest lib (method builder) (Reqwest.endpoint builder) (body builder) =
     inr (Example.plain Example.repos) ∧
   ctx_Value (ctx builder) CorrelationIDContextKey = AString Example.requestID) ∧
  (len (headers builder) = 0%nat → (@Build lib builder).2 = builder) ∧
  (∀ h, headers builder = Some h → (0 < size h)%nat →
     (@Build lib builder).2 =
       set_headers (Some (Header_Add CorrelationIDHeaderKey Example.requestID h))
         builder ∧
     ∃ req,
       (@Request lib (@Request lib builder).2).1 = (Some req, None) ∧
       index (req_Header req) "X-Correlation-Id" =
         (index h "X-Correlation-Id" ++ [Example.requestID; Example.requestID])%list).
Proof.
  intros lib builder. split; [repeat split |].
  apply (@Build_shares_header_map lib builder Example.requestID
           (Example.plain Example.repos)); reflexivity.
Defined.

(** The same on the example library: one header, a correlation id, two
    calls of [Request]. *)
Example Request_twice_repeats_correlation_id :
  let lib := Example.standard in
  ∃ b1 req1 b2 req2,
    Header "key1" "value1" (@GET lib Example.tracing Example.repos) = Ret b1 ∧
    @Request lib b1 = ((Some req1, None), b2) ∧
    (@Request lib b2).1 = (Some req2, None) ∧
    index (req_Header req1) "X-Correlation-Id" = [Example.requestID] ∧
    index (req_Header req2) "X-Correlation-Id" =
      [Example.requestID; Example.requestID].
Proof. eexists _, _, _, _. repeat split. Qed.

(** ** Interceptors *)

Lemma register_interceptors (interceptors : list Interceptor) (w : World) :
  beforeEachInterceptors (register interceptors w) =
    (beforeEachInterceptors w ++ interceptors)%list ∧
  roundTrips (register interceptors w) = roundTrips w.
Proof.
  revert w. induction interceptors as [| i rest IH]; intros w.
  - by rewrite app_nil_r.
  - change (register (i :: rest) w) with (register rest (BeforeEach i w)).
    destruct (IH (BeforeEach i w)) as [-> ->]. simpl. by rewrite <- app_assoc.
Qed.

Lemma runInterceptors_app (first second : list Interceptor) (req : http_Request) :
  runInterceptors (first ++ second) req =
  runInterceptors second (runInterceptors first req).
Proof. unfold runInterceptors. apply foldl_app. Qed.

Section Interceptors.
Context `{GoLibrary}.

(** [BeforeEach] appends to the interceptors of the process, and a [Send]
    that gets a response hands the transport the built request after every
    interceptor has been applied to it in registration order: first the
    ones registered earlier, then the new ones in the order of their
    registration.  That request is the one round trip made. *)
Theorem interceptors_run_in_registration_order (builder : RequestBuilder) (w : World)
    (interceptors : list Interceptor) (req : http_Request) (response : http_Response) :
  out_request (Build builder).1 = Some req →
  out_err (Build builder).1 = None →
  Do (client builder) (roundTrips w)
     (foldl (λ sent (interceptor : Interceptor), interceptor sent) req
        (beforeEachInterceptors w ++ interceptors)) =
    (Some response, None) →
  ∃ r builder' w',
    Send builder (register interceptors w) = Ret (r, builder', w') ∧
    roundTrips w' =
      (roundTrips w ++
       [foldl (λ sent (interceptor : Interceptor), interceptor sent) req
          (beforeEachInterceptors w ++ interceptors)])%list ∧
    beforeEachInterceptors w' = (beforeEachInterceptors w ++ interceptors)%list.
Proof.
  intros Hreq Herr HDo.
  destruct (register_interceptors interceptors w) as [Hi Hr].
  rewrite (Send_completed builder (register interceptors w) req response Hreq Herr).
  - eexists _, _, _. split; [reflexivity |]. simpl.
    by rewrite Hi, Hr.
  - by rewrite Hi, Hr.
Qed.
End Interceptors.

Lemma interceptors_run_in_registration_order_witness :
  let lib := Example.standard in
  let builder := @GET lib context_Background Example.repos in
  let req := Example.plain Example.repos in
  let interceptors := [Example.stamp "X-Trace" "1"; Example.mark "seen=1"] in
  (out_request (@Build lib builder).1 = Some req ∧
   out_err (@Build lib builder).1 = None ∧
   Do (client builder) (roundTrips Example.idle)
      (foldl (λ sent (interceptor : Interceptor), interceptor sent) req
         (beforeEachInterceptors Example.idle ++ interceptors)) =
     (Some (Example.reply 200 "hello world"), None)) ∧
  ∃ r builder' w',
    @Send lib builder (register interceptors Example.idle) = Ret (r, builder', w') ∧
    roundTrips w' =
      (roundTrips Example.idle ++
       [foldl (λ sent (interceptor : Interceptor), interceptor sent) req
          (beforeEachInterceptors Example.idle ++ interceptors)])%list ∧
    beforeEachInterceptors w' =
      (beforeEachInterceptors Example.idle ++ interceptors)%list.
Proof.
  intros lib builder req interceptors. split; [repeat split |].
  apply (@interceptors_run_in_registration_order lib builder Example.idle interceptors
           req (Example.reply 200 "hello world")); reflexivity.
Defined.

(** ** Payloads *)

Section Payloads.
Context `{GoLibrary}.

(** When the library cannot encode the value, [JSON] records the
    library's error (wrapped) and changes nothing else; every later [JSON]
    call is then ignored, whatever its value, and [Request] and [Send]
    return that error without building a request or making a round trip. *)
Theorem JSON_failure_is_recorded (builder : RequestBuilder) (v : any) (e : error) :
  err builder = None →
  json_Marshal v = inl e →
  JSON v builder = set_err (Some (WithStack e)) builder ∧
  (∀ v', JSON v' (JSON v builder) = JSON v builder) ∧
  (Request (JSON v builder)).1 = (None, Some (WithStack (WithStack (WithStack e)))) ∧
  (∀ w, Send (JSON v builder) w =
        Ret ((zeroResponse, Some (WithStack (WithStack (WithStack e)))),
             JSON v builder, w)) ∧
  errors_Is (WithStack (WithStack (WithStack e))) e = true.
Proof.
  intros He Hm.
  assert (HJ : JSON v builder = set_err (Some (WithStack e)) builder).
  { unfold JSON. by rewrite He, Hm. }
  rewrite HJ. split; [done |].
  split; [intros v'; by apply (JSON_err _ (WithStack e)) |].
  unfold Request, Send.
  rewrite (Build_err (set_err (Some (WithStack e)) builder) (WithStack e) eq_refl).
  split; [done |]. split; [done |].
  do 3 apply errors_Is_WithStack. apply errors_Is_refl.
Qed.

Lemma configure_keeps_no_error (c : config) (builder : RequestBuilder) :
  err builder = None → marshals c →
  is_Some (headers builder) → is_Some (query builder) →
  ∃ builder', configure c builder = Ret builder' ∧
    err builder' = None ∧ is_Some (headers builder') ∧ is_Some (query builder') ∧
    method builder' = method builder ∧
    Reqwest.endpoint builder' = Reqwest.endpoint builder ∧
    body builder' = lastBody [c] (body builder).
Proof.
  intros He Hc [h Hh] [q Hq]. destruct c as [k v | k v | r | v]; simpl.
  - unfold Header. rewrite Hh. eexists. split; [done |]. simpl. eauto 10.
  - assert (HQ : ∃ q', Query k v builder = Ret (set_query (Some q') builder)).
    { destruct v; try (exists q; by rewrite <- Hq, set_query_same);
        unfold Query; rewrite Hq; [by eexists |].
      rewrite Values_AddEach_insert. by eexists. }
    destruct HQ as (q' & ->).
    eexists. split; [done |]. simpl. rewrite Hh. eauto 10.
  - eexists. split; [done |]. simpl. rewrite Hh, Hq. eauto 10.
  - destruct Hc as [out Hout]. rewrite (JSON_ok builder v out He Hout), Hout.
    eexists. split; [done |]. simpl. rewrite Hh, Hq. eauto 10.
Qed.

Lemma chain_lastBody (cs : list config) (builder : RequestBuilder) :
  err builder = None → Forall marshals cs →
  is_Some (headers builder) → is_Some (query builder) →
  ∃ builder', chain cs builder = Ret builder' ∧
    err builder' = None ∧
    method builder' = method builder ∧
    Reqwest.endpoint builder' = Reqwest.endpoint builder ∧
    body builder' = lastBody cs (body builder).
Proof.
  revert builder. induction cs as [| c cs IH]; intros builder He Hcs Hh Hq.
  - by exists builder.
  - apply Forall_cons in Hcs as [Hc Hcs].
    destruct (configure_keeps_no_error c builder He Hc Hh Hq)
      as (b1 & Hb1 & He1 & Hh1 & Hq1 & Hm1 & Hend1 & Hbody1).
    destruct (IH b1 He1 Hcs Hh1 Hq1) as (b2 & Hb2 & He2 & Hm2 & Hend2 & Hbody2).
    exists b2. simpl. rewrite Hb1. simpl. split; [exact Hb2 |].
    split; [done |]. split; [congruence |]. split; [congruence |].
    rewrite Hbody2, Hbody1. destruct c as [| | r | v]; try done.
    simpl. by destruct (json_Marshal v).
Qed.

(** [Body] and [JSON] both set the one payload of the builder, so the last
    of them wins: after any chain of configuration calls on a builder with
    no error and allocated maps, all of whose [JSON] values the library
    encodes, the body of the built request is the reader of the last
    [Body] call, or the encoding of the last [JSON] call if that came
    later, or the payload the builder already had if the chain has
    neither. *)
Theorem last_payload_wins (cs : list config) (builder : RequestBuilder)
    (req0 : http_Request) :
  err builder = None →
  is_Some (headers builder) →
  is_Some (query builder) →
  Forall marshals cs →
  http_NewRequest (method builder) (Reqwest.endpoint builder)
    (lastBody cs (body builder)) = inr req0 →
  ∃ builder' req,
    chain cs builder = Ret builder' ∧
    (Request builder').1 = (Some req, None) ∧
    req_Body req = io_NopCloser <$> lastBody cs (body builder).
Proof.
  intros He Hh Hq Hcs Hreq.
  destruct (chain_lastBody cs builder He Hcs Hh Hq)
    as (b' & Hchain & He' & Hm & Hend & Hbody).
  rewrite <- Hm, <- Hend, <- Hbody in Hreq.
  destruct (Build_ok b' req0 He' Hreq) as (req & Hout & _ & Hb & _).
  exists b', req. split; [exact Hchain |].
  split; [apply Request_Build; by rewrite Hout |].
  by rewrite Hb, (NewRequest_Body _ _ _ _ Hreq), Hbody.
Qed.
End Payloads.

Lemma JSON_failure_is_recorded_witness :
  let lib := Example.standard in
  let builder := @POST lib context_Background Example.repos in
  let e := LibraryError "encoding/json" "unsupported type" in
  (err builder = None ∧ @json_Marshal lib (AChan 0) = inl e) ∧
  @JSON lib (AChan 0) builder = set_err (Some (WithStack e)) builder ∧
  (∀ v', @JSON lib v' (@JSON lib (AChan 0) builder) = @JSON lib (AChan 0) builder) ∧
  (@Request lib (@JSON lib (AChan 0) builder)).1 =
    (None, Some (WithStack (WithStack (WithStack e)))) ∧
  (∀ w, @Send lib (@JSON lib (AChan 0) builder) w =
        Ret ((zeroResponse, Some (WithStack (WithStack (WithStack e)))),
             @JSON lib (AChan 0) builder, w)) ∧
  errors_Is (WithStack (WithStack (WithStack e))) e = true.
Proof.
  intros lib builder e. split; [repeat split |].
  apply (@JSON_failure_is_recorded lib builder (AChan 0) e); reflexivity.
Defined.

Lemma last_payload_wins_witness :
  let lib := Example.standard in
  let builder := @POST lib context_Background Example.repos in
  let cs := [CallJSON (AString "hello"); CallHeader "key1" "value1";
             CallBody (Some (strings_NewReader "hello world"))] in
  let req0 := {| Method := "POST";
                 req_URL := {| Location := Example.repos; RawQuery := "" |};
                 req_Header := ∅;
                 req_Body := Some (io_NopCloser (strings_NewReader "hello world"));
                 req_ctx := context_Background |} in
  (err builder = None ∧ is_Some (headers builder) ∧ is_Some (query builder) ∧
   Forall (@marshals lib) cs ∧
   @http_NewRequest lib (method builder) (Reqwest.endpoint builder)
     (@lastBody lib cs (body builder)) = inr req0) ∧
  ∃ builder' req,
    @chain lib cs builder = Ret builder' ∧
    (@Request lib builder').1 = (Some req, None) ∧
    req_Body req = io_NopCloser <$> @lastBody lib cs (body builder).
Proof.
  intros lib builder cs req0.
  assert (Hcs : Forall (@marshals lib) cs).
  { repeat constructor. by eexists. }
  split; [repeat split; eauto |].
  apply (@last_payload_wins lib cs builder req0);
    [reflexivity | by eexists | by eexists | exact Hcs | reflexivity].
Defined.

(** ** The constructors *)

Section Constructors.
Context `{GoLibrary}.

(** Each constructor gives a builder with no error whose request, when the
    library accepts the endpoint, has the constructor's method, the given
    context, the parsed location with an empty query, no body, and no
    header besides the correlation id of the context. *)
Theorem constructed_builder_builds_bare_request
    (new : context → string → RequestBuilder) (verb : string)
    (ctx : context) (endpoint : string) (u : URL) :
  (new, verb) ∈ [(GET, "GET"); (POST, "POST"); (PATCH, "PATCH"); (PUT, "PUT")] →
  url_Parse endpoint = inr u →
  err (new ctx endpoint) = None ∧
  client (new ctx endpoint) = http_DefaultClient ∧
  ∃ req,
    (Request (new ctx endpoint)).1 = (Some req, None) ∧
    Method req = verb ∧
    req_ctx req = ctx ∧
    req_URL req = {| Location := Location u; RawQuery := "" |} ∧
    req_Body req = None ∧
    ∀ key, index (req_Header req) key =
           if bool_decide (key = CanonicalMIMEHeaderKey CorrelationIDHeaderKey)
           then correlation ctx else [].
Proof.
  intros Hnew Hu.
  assert (Hcases : new ctx endpoint = GET ctx endpoint ∧ verb = "GET" ∨
                   new ctx endpoint = POST ctx endpoint ∧ verb = "POST" ∨
                   new ctx endpoint = PATCH ctx endpoint ∧ verb = "PATCH" ∨
                   new ctx endpoint = PUT ctx endpoint ∧ verb = "PUT").
  { repeat (apply elem_of_cons in Hnew as [Hnew | Hnew];
            [injection Hnew as -> ->; by eauto 6 |]).
    by apply elem_of_nil in Hnew. }
  assert (Hgoal : ∀ b, err b = None → client b = http_DefaultClient →
            Reqwest.ctx b = ctx → Reqwest.endpoint b = endpoint → method b = verb →
            validMethod verb = true → verb ≠ "" → body b = None →
            len (headers b) = 0%nat → len (query b) = 0%nat →
            err b = None ∧ client b = http_DefaultClient ∧
            ∃ req, (Request b).1 = (Some req, None) ∧ Method req = verb ∧
              req_ctx req = ctx ∧
              req_URL req = {| Location := Location u; RawQuery := "" |} ∧
              req_Body req = None ∧
              ∀ key, index (req_Header req) key =
                     if bool_decide (key = CanonicalMIMEHeaderKey CorrelationIDHeaderKey)
                     then correlation ctx else []).
  { intros b He Hcl Hctx Hend Hm Hvalid Hne Hbody Hh Hq.
    assert (Hreq : http_NewRequest (method b) (Reqwest.endpoint b) (body b) =
                   inr {| Method := verb; req_URL := u; req_Header := ∅;
                          req_Body := None; req_ctx := context_Background |}).
    { unfold http_NewRequest. rewrite Hm, Hend, Hbody.
      rewrite bool_decide_eq_false_2 by done. by rewrite Hvalid, Hu. }
    destruct (Build_ok b _ He Hreq) as (req & Hout & HM & HB & HC & HQ & HK).
    assert (Hr : out_request (Build b).1 = Some req) by by rewrite Hout.
    split; [done |]. split; [done |]. exists req.
    split; [apply Request_Build; by rewrite Hout |].
    split; [done |]. split; [congruence |].
    split; [rewrite (Build_request_URL b _ req He Hreq Hr); simpl;
            by rewrite (Values_Encode_empty _ Hq) |].
    split; [done |].
    intros key. rewrite HK, Hctx.
    destruct (headers b) as [h |]; simpl in *; [| done].
    apply map_size_empty_iff in Hh. subst. by rewrite index_empty. }
  destruct Hcases as [[-> ->] | [[-> ->] | [[-> ->] | [-> ->]]]];
    by apply Hgoal.
Qed.
End Constructors.

Lemma constructed_builder_builds_bare_request_witness :
  let lib := Example.standard in
  let u := {| Location := Example.repos; RawQuery := "" |} in
  ((@PUT lib, "PUT") ∈
     [(@GET lib, "GET"); (@POST lib, "POST"); (@PATCH lib, "PATCH"); (@PUT lib, "PUT")] ∧
   @url_Parse lib Example.repos = inr u) ∧
  err (@PUT lib Example.tracing Example.repos) = None ∧
  client (@PUT lib Example.tracing Example.repos) = @http_DefaultClient lib ∧
  ∃ req,
    (@Request lib (@PUT lib Example.tracing Example.repos)).1 = (Some req, None) ∧
    Method req = "PUT" ∧
    req_ctx req = Example.tracing ∧
    req_URL req = {| Location := Location u; RawQuery := "" |} ∧
    req_Body req = None ∧
    ∀ key, index (req_Header req) key =
           if bool_decide (key = CanonicalMIMEHeaderKey CorrelationIDHeaderKey)
           then correlation Example.tracing else [].
Proof.
  intros lib u.
  assert (Hin : (@PUT lib, "PUT") ∈
     [(@GET lib, "GET"); (@POST lib, "POST"); (@PATCH lib, "PATCH"); (@PUT lib, "PUT")]).
  { repeat constructor. }
  split; [split; [exact Hin | reflexivity] |].
  apply (@constructed_builder_builds_bare_request lib (@PUT lib) "PUT" Example.tracing
           Example.repos u); [exact Hin | reflexivity].
Defined.

(** * Properties of the earlier revisions *)

(** ** The response builder that consumes the response *)

Lemma index_Header_Set (h : gmap string (list string)) (k v key : string) :
  index (Header_Set k v h) key =
  if bool_decide (key = CanonicalMIMEHeaderKey k) then [v] else index h key.
Proof. unfold Header_Set. apply index_insert. Qed.

Section ResponseBuilder.
Context `{GoLibrary}.

Lemma Responses_makeRequest_ok (builder : Responses.ResponseBuilder)
    (trips : list http_Request) (req : http_Request) (resp : option http_Response) :
  Responses.err builder = None →
  Responses.request builder = Some req →
  Do (Responses.client builder) trips req = (resp, None) →
  Responses.makeRequest builder trips =
  Ret (Responses.set_response resp builder, (trips ++ [req])%list).
Proof.
  intros He Hr HDo. unfold Responses.makeRequest. by rewrite He, Hr, HDo.
Qed.

(** The whole of [Bytes] when the transport answers. *)
Lemma Responses_Bytes_answered (builder : Responses.ResponseBuilder)
    (trips : list http_Request) (req : http_Request) (resp : http_Response) :
  Responses.err builder = None →
  Responses.request builder = Some req →
  Do (Responses.client builder) trips req = (Some resp, None) →
  Responses.Bytes builder trips =
  Ret ((unread (stream (resp_Body resp)),
        WithStack <$> failure (stream (resp_Body resp))),
       {| Responses.client := Responses.client builder;
          Responses.request := Some req;
          Responses.response :=
            Some (with_resp_Body (Close (ioutil_ReadAll (resp_Body resp)).2) resp);
          Responses.err := WithStack <$> failure (stream (resp_Body resp)) |},
       (trips ++ [req])%list).
Proof.
  intros He Hr HDo. unfold Responses.Bytes.
  rewrite (Responses_makeRequest_ok builder trips req (Some resp) He Hr HDo).
  simpl. rewrite He. simpl.
  destruct (failure (stream (resp_Body resp)));
    unfold Responses.set_err, Responses.set_response; simpl;
    by rewrite ?Hr, ?He.
Qed.

(** In this revision there is no status policy: when the transport
    answers and the body can be read, [Bytes] returns every byte of the
    body and no error whatever the status code, has made one round trip,
    and leaves the response with its stream read to the end and closed. *)
Theorem Responses_Bytes_any_status (builder : Responses.ResponseBuilder)
    (trips : list http_Request) (req : http_Request) (resp : http_Response) :
  Responses.err builder = None →
  Responses.request builder = Some req →
  Do (Responses.client builder) trips req = (Some resp, None) →
  failure (stream (resp_Body resp)) = None →
  ∃ builder' raw,
    Responses.Bytes builder trips =
      Ret ((unread (stream (resp_Body resp)), None), builder', (trips ++ [req])%list) ∧
    Responses.err builder' = None ∧
    Responses.response builder' = Some raw ∧
    StatusCode raw = StatusCode resp ∧
    drained (resp_Body raw) ∧
    closed (resp_Body raw) = true.
Proof.
  intros He Hr HDo Hf.
  rewrite (Responses_Bytes_answered builder trips req resp He Hr HDo), Hf.
  eexists _, _. repeat split.
Qed.

(** Nothing is kept from one consuming call to the next: after a [Bytes]
    that succeeded, [Text] sends the request again, and what it returns is
    the text of the second response, not of the bytes already read. *)
Theorem Responses_Text_after_Bytes_sends_again (builder : Responses.ResponseBuilder)
    (trips : list http_Request) (req : http_Request) (first second : http_Response) :
  Responses.err builder = None →
  Responses.request builder = Some req →
  Do (Responses.client builder) trips req = (Some first, None) →
  failure (stream (resp_Body first)) = None →
  Do (Responses.client builder) (trips ++ [req]) req = (Some second, None) →
  failure (stream (resp_Body second)) = None →
  ∃ builder1 builder2,
    Responses.Bytes builder trips =
      Ret ((unread (stream (resp_Body first)), None), builder1, (trips ++ [req])%list) ∧
    Responses.Text builder1 (trips ++ [req]) =
      Ret ((string_of_list_byte (unread (stream (resp_Body second))), None),
           builder2, (trips ++ [req; req])%list).
Proof.
  intros He Hr HDo1 Hf1 HDo2 Hf2.
  rewrite (Responses_Bytes_answered builder trips req first He Hr HDo1), Hf1.
  simpl. eexists _, _. split; [reflexivity |].
  unfold Responses.Text.
  erewrite Responses_Bytes_answered; [| reflexivity | reflexivity | exact HDo2].
  rewrite Hf2. simpl. by rewrite <- app_assoc.
Qed.

(** A response builder that carries an error makes no round trip: every
    consuming call returns an error that wraps the recorded one, [JSON]
    without touching the request.  [Response], [Bytes] and [JSON] return
    the recorded error in one wrapper and leave the builder as it was.
    [Text] wraps once more what [Bytes] returns and stores that back: it
    returns the recorded error in two wrappers, and the builder then
    records the error in those two wrappers.  [Build] on a request builder
    with a recorded error gives such a response builder, recording the
    error in one wrapper and holding no request. *)
Theorem Responses_error_short_circuits (builder : Responses.ResponseBuilder)
    (trips : list http_Request) (e : error) :
  Responses.err builder = Some e →
  Responses.Response builder trips =
    Ret ((Responses.response builder, Some (WithStack e)), builder, trips) ∧
  Responses.Bytes builder trips = Ret (([], Some (WithStack e)), builder, trips) ∧
  Responses.Text builder trips =
    Ret (("", Some (WithStack (WithStack e))),
         Responses.set_err (Some (WithStack (WithStack e))) builder, trips) ∧
  Responses.JSON builder trips = Ret (inl (WithStack e), builder, trips) ∧
  errors_Is (WithStack (WithStack e)) e = true ∧
  ∀ rb, Reqwest.err rb = Some e →
        Responses.err (Responses.Build rb) = Some (WithStack e) ∧
        Responses.request (Responses.Build rb) = None.
Proof.
  intros He.
  assert (Hm : Responses.makeRequest builder trips = Ret (builder, trips)).
  { unfold Responses.makeRequest. by rewrite He. }
  unfold Responses.Response, Responses.Text, Responses.Bytes, Responses.JSON.
  rewrite Hm. simpl. rewrite He. simpl.
  split; [done |]. split; [done |]. split; [done |]. split; [done |].
  split; [do 2 apply errors_Is_WithStack; apply errors_Is_refl |].
  intros rb Hrb. unfold Responses.Build. by rewrite Hrb.
Qed.

(** [JSON] sets the [Accept] header on the request before the round trip:
    the transport is handed the request with [Accept: application/json] as
    the only value under that key, whatever was there, every other header
    unchanged; and the call returns what the library decodes from the
    body. *)
Theorem Responses_JSON_sets_accept (builder : Responses.ResponseBuilder)
    (trips : list http_Request) (req : http_Request) (resp : http_Response) :
  let sent := with_Header (Header_Set "accept" "application/json" (req_Header req)) req in
  Responses.err builder = None →
  Responses.request builder = Some req →
  Do (Responses.client builder) trips sent = (Some resp, None) →
  failure (stream (resp_Body resp)) = None →
  ∃ builder',
    Responses.JSON builder trips =
      Ret (json_Unmarshal (unread (stream (resp_Body resp))), builder',
           (trips ++ [sent])%list) ∧
    Responses.Request builder' = Some sent ∧
    Header_Get (req_Header sent) "accept" = "application/json" ∧
    index (req_Header sent) "Accept" = ["application/json"] ∧
    ∀ key, key ≠ "Accept" → index (req_Header sent) key = index (req_Header req) key.
Proof.
  intros sent He Hr HDo Hf. unfold Responses.JSON. rewrite He, Hr. fold sent.
  rewrite (Responses_makeRequest_ok (Responses.set_request (Some sent) builder)
             trips sent (Some resp) He eq_refl HDo).
  simpl. rewrite He, Hf. simpl.
  eexists. split; [reflexivity |]. split; [reflexivity |].
  assert (Hidx : ∀ key,
            index (Header_Set "accept" "application/json" (req_Header req)) key =
            if bool_decide (key = "Accept") then ["application/json"]
            else index (req_Header req) key).
  { intros key. by rewrite index_Header_Set. }
  split; [unfold Header_Get;
          change (CanonicalMIMEHeaderKey "accept") with "Accept";
          by rewrite (Hidx "Accept") |].
  split; [by rewrite Hidx |].
  intros key Hne. by rewrite Hidx, bool_decide_eq_false_2.
Qed.

(** A failure of the transport is recorded, wrapped, after the one round
    trip, and from then on no consuming call sends anything. *)
Theorem Responses_transport_error_is_kept (builder : Responses.ResponseBuilder)
    (trips : list http_Request) (req : http_Request) (resp : option http_Response)
    (e : error) :
  Responses.err builder = None →
  Responses.request builder = Some req →
  Do (Responses.client builder) trips req = (resp, Some e) →
  ∃ builder',
    Responses.Bytes builder trips =
      Ret (([], Some (WithStack (WithStack e))), builder', (trips ++ [req])%list) ∧
    Responses.err builder' = Some (WithStack e) ∧
    ∀ later,
      Responses.Bytes builder' later =
        Ret (([], Some (WithStack (WithStack e))), builder', later) ∧
      Responses.JSON builder' later = Ret (inl (WithStack (WithStack e)), builder', later).
Proof.
  intros He Hr HDo.
  exists (Responses.set_response resp (Responses.set_err (Some (WithStack e)) builder)).
  unfold Responses.Bytes, Responses.JSON, Responses.makeRequest.
  rewrite He, Hr, HDo. simpl. repeat split.
Qed.

(** When reading the body fails, [Bytes] returns the bytes read so far
    with the error wrapped, records it, and closes the stream; [JSON] in
    the same situation returns the bare error and records nothing, so the
    builder stays free to send again. *)
Theorem Responses_read_failure (builder : Responses.ResponseBuilder)
    (trips : list http_Request) (req : http_Request) (resp : http_Response)
    (e : error) :
  let sent := with_Header (Header_Set "accept" "application/json" (req_Header req)) req in
  Responses.err builder = None →
  Responses.request builder = Some req →
  failure (stream (resp_Body resp)) = Some e →
  (Do (Responses.client builder) trips req = (Some resp, None) →
   ∃ builder' raw,
     Responses.Bytes builder trips =
       Ret ((unread (stream (resp_Body resp)), Some (WithStack e)), builder',
            (trips ++ [req])%list) ∧
     Responses.err builder' = Some (WithStack e) ∧
     Responses.response builder' = Some raw ∧
     closed (resp_Body raw) = true) ∧
  (Do (Responses.client builder) trips sent = (Some resp, None) →
   ∃ builder' raw,
     Responses.JSON builder trips = Ret (inl e, builder', (trips ++ [sent])%list) ∧
     Responses.err builder' = None ∧
     Responses.response builder' = Some raw ∧
     closed (resp_Body raw) = true).
Proof.
  intros sent He Hr Hf. split; intros HDo.
  - rewrite (Responses_Bytes_answered builder trips req resp He Hr HDo), Hf.
    eexists _, _. repeat split.
  - unfold Responses.JSON. rewrite He, Hr. fold sent.
    rewrite (Responses_makeRequest_ok (Responses.set_request (Some sent) builder)
               trips sent (Some resp) He eq_refl HDo).
    simpl. rewrite He, Hf. simpl. eexists _, _. repeat split. exact He.
Qed.
End ResponseBuilder.

Lemma Responses_Bytes_any_status_witness :
  let lib := Example.library (Example.replying 500 "internal error") in
  let builder := @Responses.Build lib (@GET lib context_Background Example.repos) in
  let req := Example.plain Example.repos in
  let resp := Example.reply 500 "internal error" in
  (Responses.err builder = None ∧
   Responses.request builder = Some req ∧
   Do (Responses.client builder) [] req = (Some resp, None) ∧
   failure (stream (resp_Body resp)) = None) ∧
  ∃ builder' raw,
    Responses.Bytes builder [] =
      Ret ((unread (stream (resp_Body resp)), None), builder', ([] ++ [req])%list) ∧
    Responses.err builder' = None ∧
    Responses.response builder' = Some raw ∧
    StatusCode raw = StatusCode resp ∧
    drained (resp_Body raw) ∧
    closed (resp_Body raw) = true.
Proof.
  intros lib builder req resp. split; [repeat split |].
  apply (@Responses_Bytes_any_status builder [] req resp); reflexivity.
Defined.

Lemma Responses_Text_after_Bytes_sends_again_witness :
  let lib := Example.library Example.counting in
  let builder := @Responses.Build lib (@GET lib context_Background Example.repos) in
  let req := Example.plain Example.repos in
  let first := Example.reply 200 "reply 0" in
  let second := Example.reply 200 "reply 1" in
  (Responses.err builder = None ∧
   Responses.request builder = Some req ∧
   Do (Responses.client builder) [] req = (Some first, None) ∧
   failure (stream (resp_Body first)) = None ∧
   Do (Responses.client builder) ([] ++ [req]) req = (Some second, None) ∧
   failure (stream (resp_Body second)) = None) ∧
  ∃ builder1 builder2,
    Responses.Bytes builder [] =
      Ret ((unread (stream (resp_Body first)), None), builder1, ([] ++ [req])%list) ∧
    Responses.Text builder1 ([] ++ [req]) =
      Ret ((string_of_list_byte (unread (stream (resp_Body second))), None),
           builder2, ([] ++ [req; req])%list).
Proof.
  intros lib builder req first second. split; [repeat split |].
  apply (@Responses_Text_after_Bytes_sends_again builder [] req first second);
    reflexivity.
Defined.

Lemma Responses_error_short_circuits_witness :
  let lib := Example.standard in
  let builder := @Responses.Build lib
                   (Reqwest.set_err (Some Example.someError)
                      (@GET lib context_Background Example.repos)) in
  let e := WithStack Example.someError in
  Responses.err builder = Some e ∧
  Responses.Response builder [] =
    Ret ((Responses.response builder, Some (WithStack e)), builder, []) ∧
  Responses.Bytes builder [] = Ret (([], Some (WithStack e)), builder, []) ∧
  Responses.Text builder [] =
    Ret (("", Some (WithStack (WithStack e))),
         Responses.set_err (Some (WithStack (WithStack e))) builder, []) ∧
  @Responses.JSON lib builder [] = Ret (inl (WithStack e), builder, []) ∧
  errors_Is (WithStack (WithStack e)) e = true ∧
  ∀ rb, Reqwest.err rb = Some e →
        Responses.err (@Responses.Build lib rb) = Some (WithStack e) ∧
        Responses.request (@Responses.Build lib rb) = None.
Proof.
  intros lib builder e. split; [reflexivity |].
  apply (@Responses_error_short_circuits lib builder [] e). reflexivity.
Defined.

Lemma Responses_JSON_sets_accept_witness :
  let lib := Example.library (Example.replying 200 (Example.quoted "bar")) in
  let builder := @Responses.Build lib (@GET lib context_Background Example.repos) in
  let req := Example.plain Example.repos in
  let resp := Example.reply 200 (Example.quoted "bar") in
  let sent := with_Header (Header_Set "accept" "application/json" (req_Header req)) req in
  (Responses.err builder = None ∧
   Responses.request builder = Some req ∧
   Do (Responses.client builder) [] sent = (Some resp, None) ∧
   failure (stream (resp_Body resp)) = None) ∧
  ∃ builder',
    @Responses.JSON lib builder [] =
      Ret (@json_Unmarshal lib (unread (stream (resp_Body resp))), builder',
           ([] ++ [sent])%list) ∧
    Responses.Request builder' = Some sent ∧
    Header_Get (req_Header sent) "accept" = "application/json" ∧
    index (req_Header sent) "Accept" = ["application/json"] ∧
    ∀ key, key ≠ "Accept" → index (req_Header sent) key = index (req_Header req) key.
Proof.
  intros lib builder req resp sent. split; [repeat split |].
  apply (@Responses_JSON_sets_accept lib builder [] req resp); reflexivity.
Defined.

Lemma Responses_transport_error_is_kept_witness :
  let lib := Example.library (Example.failing Example.refused) in
  let builder := @Responses.Build lib (@GET lib context_Background Example.repos) in
  let req := Example.plain Example.repos in
  let e := Example.refused in
  (Responses.err builder = None ∧
   Responses.request builder = Some req ∧
   Do (Responses.client builder) [] req = (None, Some e)) ∧
  ∃ builder',
    Responses.Bytes builder [] =
      Ret (([], Some (WithStack (WithStack e))), builder', ([] ++ [req])%list) ∧
    Responses.err builder' = Some (WithStack e) ∧
    ∀ later,
      Responses.Bytes builder' later =
        Ret (([], Some (WithStack (WithStack e))), builder', later) ∧
      @Responses.JSON lib builder' later =
        Ret (inl (WithStack (WithStack e)), builder', later).
Proof.
  intros lib builder req e. split; [repeat split |].
  apply (@Responses_transport_error_is_kept lib builder [] req None e); reflexivity.
Defined.

Lemma Responses_read_failure_witness :
  let lib := Example.library (Example.truncating "hello wo") in
  let builder := @Responses.Build lib (@GET lib context_Background Example.repos) in
  let req := Example.plain Example.repos in
  let resp := Example.truncated "hello wo" in
  let e := Example.unexpectedEOF in
  let sent := with_Header (Header_Set "accept" "application/json" (req_Header req)) req in
  (Responses.err builder = None ∧
   Responses.request builder = Some req ∧
   failure (stream (resp_Body resp)) = Some e ∧
   Do (Responses.client builder) [] req = (Some resp, None) ∧
   Do (Responses.client builder) [] sent = (Some resp, None)) ∧
  (Do (Responses.client builder) [] req = (Some resp, None) →
   ∃ builder' raw,
     Responses.Bytes builder [] =
       Ret ((unread (stream (resp_Body resp)), Some (WithStack e)), builder',
            ([] ++ [req])%list) ∧
     Responses.err builder' = Some (WithStack e) ∧
     Responses.response builder' = Some raw ∧
     closed (resp_Body raw) = true) ∧
  (Do (Responses.client builder) [] sent = (Some resp, None) →
   ∃ builder' raw,
     @Responses.JSON lib builder [] = Ret (inl e, builder', ([] ++ [sent])%list) ∧
     Responses.err builder' = None ∧
     Responses.response builder' = Some raw ∧
     closed (resp_Body raw) = true).
Proof.
  intros lib builder req resp e sent. split; [repeat split |].
  apply (@Responses_read_failure lib builder [] req resp e); reflexivity.
Defined.

(** ** The first revision ([package http]) *)

Section FirstRevision.
Context `{GoLibrary}.

Lemma Http_makeRequest_answer (builder : Http.RequestBuilder)
    (trips : list http_Request) (req : http_Request) (resp : option http_Response)
    (e : option error) :
  Http.err builder = None →
  Http.request builder = Some req →
  Do (Http.client builder) trips req = (resp, e) →
  Http.makeRequest builder trips =
  Ret (Http.set_response resp (Http.set_err e builder), (trips ++ [req])%list).
Proof. intros He Hr HDo. unfold Http.makeRequest. by rewrite He, Hr, HDo. Qed.

(** The constructors never record an error: when the library rejects the
    endpoint they dereference the nil request and panic, and every builder
    they return carries no error and a request with the given context. *)
Theorem Http_constructor_panics_on_rejected_endpoint (ctx : context)
    (endpoint : string) :
  match url_Parse endpoint with
  | inl _ => panics (Http.POST ctx endpoint) ∧ panics (Http.GET ctx endpoint)
  | inr u =>
      ∃ post get,
        Http.POST ctx endpoint = Ret post ∧ Http.GET ctx endpoint = Ret get ∧
        Http.err post = None ∧ Http.err get = None ∧
        Http.request post =
          Some {| Method := "POST"; req_URL := u; req_Header := ∅; req_Body := None;
                  req_ctx := ctx |} ∧
        Http.request get =
          Some {| Method := "GET"; req_URL := u; req_Header := ∅; req_Body := None;
                  req_ctx := ctx |}
  end.
Proof.
  unfold Http.POST, Http.GET, Http.construct, http_NewRequest. simpl.
  destruct (url_Parse endpoint) as [e | u].
  - split; by eexists.
  - eexists _, _. repeat split.
Qed.

(** [Header] replaces: after two calls whose keys have the same canonical
    form, the request lists the second value alone under that form, and
    [Header.Get] returns it for either spelling. *)
Theorem Http_Header_replaces (builder : Http.RequestBuilder) (req : http_Request)
    (key1 key2 value1 value2 : string) :
  Http.request builder = Some req →
  CanonicalMIMEHeaderKey key1 = CanonicalMIMEHeaderKey key2 →
  ∃ builder' req',
    (Http.Header key1 value1 builder ≫= Http.Header key2 value2) = Ret builder' ∧
    Http.request builder' = Some req' ∧
    index (req_Header req') (CanonicalMIMEHeaderKey key1) = [value2] ∧
    Header_Get (req_Header req') key1 = value2 ∧
    Header_Get (req_Header req') key2 = value2 ∧
    ∀ key, key ≠ CanonicalMIMEHeaderKey key1 →
           index (req_Header req') key = index (req_Header req) key.
Proof.
  intros Hr Hcanon. unfold Http.Header. rewrite Hr. simpl.
  eexists _, _. split; [reflexivity |]. split; [reflexivity |].
  cbn [req_Header with_Header]. unfold Header_Get.
  rewrite <- Hcanon, !index_Header_Set, <- Hcanon.
  rewrite !bool_decide_eq_true_2 by done.
  repeat split. intros key Hne.
  by rewrite !index_Header_Set, <- Hcanon, !bool_decide_eq_false_2.
Qed.

(** [JSON] makes the round trip before it attaches the payload: the
    transport is handed the request with the content type announced and
    the body it had before the call, and only the request kept on the
    builder afterwards carries the encoded payload. *)
Theorem Http_JSON_sends_before_payload (builder : Http.RequestBuilder)
    (trips : list http_Request) (req : http_Request) (resp : option http_Response)
    (v : any) (out : list byte) :
  let sent :=
    with_Header (Header_Set "content-type" "application/json" (req_Header req)) req in
  Http.err builder = None →
  Http.request builder = Some req →
  Do (Http.client builder) trips sent = (resp, None) →
  json_Marshal v = inr out →
  ∃ builder',
    Http.JSON v builder trips = Ret (builder', (trips ++ [sent])%list) ∧
    req_Body sent = req_Body req ∧
    Header_Get (req_Header sent) "content-type" = "application/json" ∧
    Http.request builder' =
      Some (with_req_Body (Some (io_NopCloser (bytes_NewBuffer out))) sent) ∧
    Http.response builder' = resp ∧
    Http.err builder' = None.
Proof.
  intros sent He Hr HDo Hm. unfold Http.JSON, Http.Header. rewrite He, Hr. simpl.
  fold sent. unfold Http.makeRequest. simpl. rewrite He, HDo. simpl. rewrite Hm.
  eexists. split; [reflexivity |]. split; [reflexivity |].
  split; [| by repeat split].
  unfold Header_Get, sent. cbn [req_Header with_Header].
  by rewrite index_Header_Set, bool_decide_eq_true_2.
Qed.

(** [Send] only wraps the builder; the round trip of the response side is
    made by [ResponseBuilder.JSON].  After [JSON v], which already made
    one, [Send().JSON] makes a second round trip, this time with the
    payload and the [Accept] header on the request, and returns what the
    library decodes from the second response. *)
Theorem Http_JSON_then_decode_sends_twice (builder : Http.RequestBuilder)
    (trips : list http_Request) (req : http_Request)
    (first : option http_Response) (second : http_Response)
    (v : any) (out : list byte) :
  let sent1 :=
    with_Header (Header_Set "content-type" "application/json" (req_Header req)) req in
  let loaded := with_req_Body (Some (io_NopCloser (bytes_NewBuffer out))) sent1 in
  let sent2 :=
    with_Header (Header_Set "accept" "application/json" (req_Header loaded)) loaded in
  Http.err builder = None →
  Http.request builder = Some req →
  Do (Http.client builder) trips sent1 = (first, None) →
  json_Marshal v = inr out →
  Do (Http.client builder) (trips ++ [sent1]) sent2 = (Some second, None) →
  failure (stream (resp_Body second)) = None →
  ∃ builder' final,
    Http.JSON v builder trips = Ret (builder', (trips ++ [sent1])%list) ∧
    Http.ResponseBuilder_JSON (Http.Send builder') (trips ++ [sent1]) =
      Ret (json_Unmarshal (unread (stream (resp_Body second))), final,
           (trips ++ [sent1; sent2])%list) ∧
    req_Body sent1 = req_Body req ∧
    req_Body sent2 = Some (io_NopCloser (bytes_NewBuffer out)).
Proof.
  intros sent1 loaded sent2 He Hr HDo1 Hm HDo2 Hf.
  unfold Http.JSON, Http.Header. rewrite He, Hr. simpl.
  fold sent1. unfold Http.makeRequest at 1. simpl. rewrite He, HDo1. simpl. rewrite Hm.
  eexists _, _. split; [reflexivity |].
  split; [| by split].
  unfold Http.ResponseBuilder_JSON, Http.Send, Http.Header. simpl.
  erewrite Http_makeRequest_answer; [| reflexivity | reflexivity | exact HDo2].
  simpl. rewrite Hf. by rewrite <- app_assoc.
Qed.
End FirstRevision.

Example Http_POST_example :
  @Http.POST (Example.library Example.counting) context_Background Example.repos =
  Ret (Example.posted Example.counting).
Proof. reflexivity. Qed.

Lemma Http_Header_replaces_witness :
  let builder := Example.posted Example.counting in
  let req := Example.posting Example.repos in
  (Http.request builder = Some req ∧
   CanonicalMIMEHeaderKey "Accept" = CanonicalMIMEHeaderKey "accept") ∧
  ∃ builder' req',
    (Http.Header "Accept" "text/html" builder ≫=
     Http.Header "accept" "application/json") = Ret builder' ∧
    Http.request builder' = Some req' ∧
    index (req_Header req') (CanonicalMIMEHeaderKey "Accept") = ["application/json"] ∧
    Header_Get (req_Header req') "Accept" = "application/json" ∧
    Header_Get (req_Header req') "accept" = "application/json" ∧
    ∀ key, key ≠ CanonicalMIMEHeaderKey "Accept" →
           index (req_Header req') key = index (req_Header req) key.
Proof.
  intros builder req. split; [repeat split |].
  apply (Http_Header_replaces builder req "Accept" "accept" "text/html"
           "application/json"); reflexivity.
Defined.

Lemma Http_JSON_sends_before_payload_witness :
  let lib := Example.library Example.counting in
  let builder := Example.posted Example.counting in
  let req := Example.posting Example.repos in
  let out := list_byte_of_string (Example.quoted "hello") in
  let sent :=
    with_Header (Header_Set "content-type" "application/json" (req_Header req)) req in
  (Http.err builder = None ∧
   Http.request builder = Some req ∧
   Do (Http.client builder) [] sent = (Some (Example.reply 200 "reply 0"), None) ∧
   @json_Marshal lib (AString "hello") = inr out) ∧
  ∃ builder',
    @Http.JSON lib (AString "hello") builder [] = Ret (builder', ([] ++ [sent])%list) ∧
    req_Body sent = req_Body req ∧
    Header_Get (req_Header sent) "content-type" = "application/json" ∧
    Http.request builder' =
      Some (with_req_Body (Some (io_NopCloser (bytes_NewBuffer out))) sent) ∧
    Http.response builder' = Some (Example.reply 200 "reply 0") ∧
    Http.err builder' = None.
Proof.
  intros lib builder req out sent. split; [repeat split |].
  apply (@Http_JSON_sends_before_payload lib builder [] req
           (Some (Example.reply 200 "reply 0")) (AString "hello") out); reflexivity.
Defined.

Lemma Http_JSON_then_decode_sends_twice_witness :
  let lib := Example.library (Example.replying 200 (Example.quoted "bar")) in
  let builder := Example.posted (Example.replying 200 (Example.quoted "bar")) in
  let req := Example.posting Example.repos in
  let out := list_byte_of_string (Example.quoted "hello") in
  let answer := Example.reply 200 (Example.quoted "bar") in
  let sent1 :=
    with_Header (Header_Set "content-type" "application/json" (req_Header req)) req in
  let loaded := with_req_Body (Some (io_NopCloser (bytes_NewBuffer out))) sent1 in
  let sent2 :=
    with_Header (Header_Set "accept" "application/json" (req_Header loaded)) loaded in
  (Http.err builder = None ∧
   Http.request builder = Some req ∧
   Do (Http.client builder) [] sent1 = (Some answer, None) ∧
   @json_Marshal lib (AString "hello") = inr out ∧
   Do (Http.client builder) ([] ++ [sent1]) sent2 = (Some answer, None) ∧
   failure (stream (resp_Body answer)) = None) ∧
  ∃ builder' final,
    @Http.JSON lib (AString "hello") builder [] =
      Ret (builder', ([] ++ [sent1])%list) ∧
    @Http.ResponseBuilder_JSON lib (Http.Send builder') ([] ++ [sent1]) =
      Ret (@json_Unmarshal lib (unread (stream (resp_Body answer))), final,
           ([] ++ [sent1; sent2])%list) ∧
    req_Body sent1 = req_Body req ∧
    req_Body sent2 = Some (io_NopCloser (bytes_NewBuffer out)).
Proof.
  intros lib builder req out answer sent1 loaded sent2. split; [repeat split |].
  apply (@Http_JSON_then_decode_sends_twice lib builder [] req (Some answer) answer
           (AString "hello") out); reflexivity.
Defined.

(** * Further properties of the logger *)

Lemma callBeforeEachHandlers_registered (log : Logger.logger)
    (handlers : list Logger.EventHandler) (event : Logger.Event) (message : string)
    (w : Logger.World) :
  Logger.callBeforeEachHandlers (foldl (λ l h, Logger.BeforeEach h l) log handlers)
    event message w =
  foldl (λ w h, h event message w)
    (Logger.callBeforeEachHandlers log event message w) handlers ∧
  Logger.prefix (foldl (λ l h, Logger.BeforeEach h l) log handlers) = Logger.prefix log.
Proof.
  revert log w. induction handlers as [| h rest IH]; intros log w; [done |].
  simpl. destruct (IH (Logger.BeforeEach h log) w) as [-> ->].
  split; [| done]. f_equal. unfold Logger.callBeforeEachHandlers. simpl.
  by rewrite foldl_app.
Qed.

(** Handlers run before the line is written, in the order of their
    registration and after the ones registered earlier, each with the
    event of the call and its message; the line of [Info], [Debug] and
    [Error] then goes to the end of the sink with the level of the call,
    the prefix of the logger and the message unchanged. *)
Theorem handlers_run_before_the_line (log : Logger.logger)
    (handlers : list Logger.EventHandler) (message site : string) (w : Logger.World) :
  let log' := foldl (λ l h, Logger.BeforeEach h l) log handlers in
  let notified event :=
    foldl (λ w h, h event message w)
      (Logger.callBeforeEachHandlers log event message w) handlers in
  let line lvl site :=
    {| Logger.level := lvl; Logger.caller := site;
       Logger.correlation_id := Logger.prefix log; Logger.msg := message |} in
  Logger.output (Logger.Info log' message site w) =
    (Logger.output (notified Logger.Events_Info) ++ [line "info" site])%list ∧
  Logger.output (Logger.Debug log' message site w) =
    (Logger.output (notified Logger.Events_Debug) ++ [line "debug" site])%list ∧
  Logger.output (Logger.Error log' message w) =
    (Logger.output (notified Logger.Events_Error) ++ [line "error" ""])%list.
Proof.
  intros log' notified line.
  assert (Hp : Logger.prefix log' = Logger.prefix log)
    by apply (callBeforeEachHandlers_registered log handlers Logger.TraceStart message w).
  assert (Hn : ∀ event,
            Logger.callBeforeEachHandlers log' event message w = notified event)
    by (intros event; apply callBeforeEachHandlers_registered).
  unfold Logger.Info, Logger.Debug, Logger.Error. rewrite !Hn, Hp. done.
Qed.

(** Two handlers that each write a line, then [Info]: three lines, in the
    order first handler, second handler, the message. *)
Example Info_after_two_handlers :
  let log := Logger.BeforeEach (Example.noting "second")
               (Logger.BeforeEach (Example.noting "first")
                  (Logger.Prefix "request-1" Logger.New)) in
  (λ l, (Logger.correlation_id l, Logger.msg l)) <$>
    Logger.output (Logger.Info log "test" "main.main" Example.ticking) =
  [("first", "info: test"); ("second", "info: test"); ("request-1", "test")].
Proof. reflexivity. Qed.

Lemma Split_slash_last (s : string) :
  ∃ dirs segment dir,
    Logger.strings_Split_slash s = (dirs ++ [segment])%list ∧
    ("/"%char ∉ list_ascii_of_string segment) ∧
    s = dir ++ segment ∧
    (dirs = [] → dir = "") ∧
    (dirs ≠ [] → ∃ d, dir = d ++ "/").
Proof.
  induction s as [| c rest (dirs & segment & dir & Hsplit & Hno & Hs & Hnil & Hcons)].
  - exists [], "", "". repeat split; [apply not_elem_of_nil | done].
  - cbn [Logger.strings_Split_slash]. destruct (Ascii.eqb c "/") eqn:Hc.
    + apply Ascii.eqb_eq in Hc. subst c.
      exists ("" :: dirs), segment, (String "/" dir). rewrite Hsplit.
      split; [done |]. split; [done |]. split; [by rewrite Hs |].
      split; [done |]. intros _. destruct dirs as [| d0 ds].
      * rewrite (Hnil eq_refl). by exists "".
      * destruct (Hcons ltac:(done)) as [d ->]. by exists (String "/" d).
    + apply Ascii.eqb_neq in Hc. rewrite Hsplit. destruct dirs as [| d0 ds].
      * exists [], (String c segment), "". simpl.
        split; [done |]. split; [by apply not_elem_of_cons |].
        split; [by rewrite Hs, (Hnil eq_refl) |]. by split.
      * exists (String c d0 :: ds), segment, (String c dir). simpl.
        split; [done |]. split; [done |]. split; [by rewrite Hs |].
        split; [done |]. intros _. destruct (Hcons ltac:(done)) as [d ->].
        by exists (String c d).
Qed.

(** [caller] never indexes out of range, and what it returns is the name
    of the function with everything up to its last slash removed: the
    whole name when it has no slash. *)
Theorem callerName_is_last_segment (function : string) :
  ∃ segment dir,
    Logger.callerName function = Ret segment ∧
    function = dir ++ segment ∧
    ("/"%char ∉ list_ascii_of_string segment) ∧
    (dir = "" ∨ ∃ d, dir = d ++ "/").
Proof.
  destruct (Split_slash_last function)
    as (dirs & segment & dir & Hsplit & Hno & Hs & Hnil & Hcons).
  exists segment, dir. split.
  - unfold Logger.callerName. by rewrite Hsplit, last_snoc.
  - split; [done |]. split; [done |].
    destruct dirs as [| d0 ds]; [left; by apply Hnil | right; by apply Hcons].
Qed.

Example callerName_example :
  Logger.callerName "kata/src/logger.(*logger).Info" = Ret "logger.(*logger).Info" ∧
  Logger.callerName "main.main" = Ret "main.main".
Proof. split; reflexivity. Qed.

(** ** The revision between the two *)

Section TransitionalRevision.
Context `{GoLibrary}.

(** In this revision the payload and the endpoint of a [POST] are lost on
    the way to the request that is sent: [JSON] announces the content type
    in the builder's headers and stores the payload on the request the
    constructor made, but [Build] makes a new request, from the builder's
    empty endpoint and with no body.  The built request carries the
    content type, and neither the payload nor the endpoint. *)
Theorem Transitional_POST_JSON_loses_payload (ctx : context) (endpoint : string)
    (v : any) (out : list byte) (u nowhere : URL) :
  url_Parse endpoint = inr u →
  url_Parse "" = inr nowhere →
  json_Marshal v = inr out →
  ∃ builder builder' kept req,
    Transitional.POST ctx endpoint = Ret builder ∧
    Earlier.JSON v builder = Ret builder' ∧
    Reqwest.request builder' = Some kept ∧
    req_Body kept = Some (io_NopCloser (bytes_NewBuffer out)) ∧
    req_URL kept = u ∧
    Responses.request (Transitional.Build builder') = Some req ∧
    Responses.err (Transitional.Build builder') = None ∧
    req_Body req = None ∧
    req_URL req = nowhere ∧
    index (req_Header req) "content-type" = ["application/json"].
Proof.
  intros Hu Hnowhere Hm.
  unfold Transitional.POST, http_NewRequest. simpl. rewrite Hu.
  eexists _, _, _, _. split; [reflexivity |].
  unfold Earlier.JSON, Header. simpl. rewrite Hm.
  split; [reflexivity |]. split; [reflexivity |].
  split; [reflexivity |]. split; [reflexivity |].
  unfold Transitional.Build, http_NewRequest. simpl. rewrite Hnowhere. simpl.
  rewrite insert_empty, map_size_singleton. simpl.
  split; [reflexivity |]. repeat split.
Qed.

(** [GET] allocates no header map in this revision, so the first [Header]
    call on the builder it returns panics; a builder left without headers
    still builds its request. *)
Theorem Transitional_GET_Header_panics (ctx : context) (endpoint key value : string)
    (u : URL) :
  url_Parse endpoint = inr u →
  Header key value (Transitional.GET ctx endpoint) = Panic nil_map_panic ∧
  Responses.request (Transitional.Build (Transitional.GET ctx endpoint)) =
    Some {| Method := "GET"; req_URL := u; req_Header := ∅; req_Body := None;
            req_ctx := ctx |} ∧
  Responses.err (Transitional.Build (Transitional.GET ctx endpoint)) = None.
Proof.
  intros Hu. split; [reflexivity |].
  unfold Transitional.Build, http_NewRequest. simpl. by rewrite Hu.
Qed.
End TransitionalRevision.

Lemma Transitional_POST_JSON_loses_payload_witness :
  let lenient := {| url_Parse := λ s, inr {| Location := s; RawQuery := "" |};
                    url_QueryEscape := λ s, s;
                    json_Marshal := Example.marshal;
                    json_Unmarshal := Example.unmarshal;
                    http_DefaultClient := Example.replying 200 "ok" |} in
  let out := list_byte_of_string (Example.quoted "hello") in
  let u := {| Location := Example.repos; RawQuery := "" |} in
  let nowhere := {| Location := ""; RawQuery := "" |} in
  (@url_Parse lenient Example.repos = inr u ∧
   @url_Parse lenient "" = inr nowhere ∧
   @json_Marshal lenient (AString "hello") = inr out) ∧
  ∃ builder builder' kept req,
    @Transitional.POST lenient context_Background Example.repos = Ret builder ∧
    @Earlier.JSON lenient (AString "hello") builder = Ret builder' ∧
    Reqwest.request builder' = Some kept ∧
    req_Body kept = Some (io_NopCloser (bytes_NewBuffer out)) ∧
    req_URL kept = u ∧
    Responses.request (@Transitional.Build lenient builder') = Some req ∧
    Responses.err (@Transitional.Build lenient builder') = None ∧
    req_Body req = None ∧
    req_URL req = nowhere ∧
    index (req_Header req) "content-type" = ["application/json"].
Proof.
  intros lenient out u nowhere. split; [repeat split |].
  apply (@Transitional_POST_JSON_loses_payload lenient context_Background Example.repos
           (AString "hello") out u nowhere); reflexivity.
Defined.

Lemma Transitional_GET_Header_panics_witness :
  let lib := Example.standard in
  let u := {| Location := Example.repos; RawQuery := "" |} in
  @url_Parse lib Example.repos = inr u ∧
  Header "key1" "value1" (@Transitional.GET lib context_Background Example.repos) =
    Panic nil_map_panic ∧
  Responses.request
    (@Transitional.Build lib (@Transitional.GET lib context_Background Example.repos)) =
    Some {| Method := "GET"; req_URL := u; req_Header := ∅; req_Body := None;
            req_ctx := context_Background |} ∧
  Responses.err
    (@Transitional.Build lib (@Transitional.GET lib context_Background Example.repos)) =
    None.
Proof.
  intros lib u. split; [reflexivity |].
  apply (@Transitional_GET_Header_panics lib context_Background Example.repos
           "key1" "value1" u). reflexivity.
Defined.
